(** * WorldMorse API server: connection rooms, relay and recent messages

    A shallow embedding of the WebSocket part of the three server variants
    of the repository ([src/index.js], [src/server.js] and the earlier
    server [part_000]) and of the [GET /v1/messages/recent] route, then
    of the station, message and contact routes, followed by the
    properties of the connection-room subsystem and of the routes.

    Every handler is run to completion: an [await] on the store is a call
    that either resolves or rejects before the handler goes on. *)

From Stdlib Require Import ZArith QArith Lia Ascii String.
From stdpp Require Import base option list gmap strings sorting.

Set Warnings "-register-all".
Local Open Scope string_scope.
Local Open Scope list_scope.
Local Open Scope Z_scope.

(** ** JavaScript values *)

(** The values [JSON.parse] produces and [JSON.stringify] consumes
    (numbers are kept to the integers: no handler looks at one). *)
Inductive json : Type :=
| JNull
| JBool (b : bool)
| JNum (z : Z)
| JStr (s : string)
| JArr (items : list json)
| JObj (fields : list (string * json)).

(** What the handlers take from the runtime: [JSON.stringify],
    [JSON.parse] ([None] stands for the [SyntaxError] it throws),
    [Number] applied to a string ([None] stands for [NaN]) and
    [process.env]. *)
Class JsRuntime : Type := {
  JSON_stringify : json → string;
  JSON_parse : string → option json;
  Number_of_string : string → option Q;
  process_env : string → option string
}.

(** Own-property lookup on a parsed object. *)
Fixpoint get_field (k : string) (fields : list (string * json)) : option json :=
  match fields with
  | [] => None
  | (k', v) :: rest => if String.eqb k' k then Some v else get_field k rest
  end.

(** [msg?.kind]: [undefined] ([None]) on [null] and on every value that is
    not an object carrying the property. *)
Definition kind_of (msg : json) : option json :=
  match msg with
  | JObj fields => get_field "kind" fields
  | _ => None
  end.

(** [msg?.kind === "ping"] *)
Definition kind_is_ping (msg : json) : bool :=
  match kind_of msg with
  | Some (JStr s) => String.eqb s "ping"
  | _ => false
  end.

(** A string is falsy exactly when it is empty. *)
Definition truthy (s : string) : bool := negb (String.eqb s "").

(** [x || d] where [x] is a string or [null] (a query parameter). *)
Definition or_else (x : option string) (d : string) : string :=
  match x with
  | Some s => if truthy s then s else d
  | None => d
  end.

(** White space removed by [String.prototype.trim], in the ASCII range.
    The text of a request is taken to be ASCII: the white space outside
    that range that JavaScript also trims (U+00A0, U+3000 and the like)
    is not modelled. *)
Definition is_space (a : ascii) : bool :=
  let n := nat_of_ascii a in
  (Nat.eqb n 9 || Nat.eqb n 10 || Nat.eqb n 11 || Nat.eqb n 12 || Nat.eqb n 13 || Nat.eqb n 32)%bool.

Fixpoint trim_start (s : string) : string :=
  match s with
  | String a rest => if is_space a then trim_start rest else s
  | EmptyString => EmptyString
  end.

Definition trim (s : string) : string :=
  String.rev (trim_start (String.rev (trim_start s))).

(** [toUpperCase] on the ASCII letters; other characters are kept (on
    ASCII text that is what JavaScript does; its mappings of letters
    outside that range are not modelled). *)
Definition upper_ascii (a : ascii) : ascii :=
  let n := nat_of_ascii a in
  if (Nat.leb 97 n && Nat.leb n 122)%bool then ascii_of_nat (n - 32) else a.

Fixpoint toUpperCase (s : string) : string :=
  match s with
  | String a rest => String (upper_ascii a) (toUpperCase rest)
  | EmptyString => EmptyString
  end.

(** [const norm = (s) => String(s || "").trim().toUpperCase();] *)
Definition norm (s : option string) : string :=
  toUpperCase (trim (or_else s "")).

(** ** The world the handlers run in *)

(** A connection is a [ws] object; objects are compared by identity. *)
Definition WsId : Type := nat.

(** [readyState] of the [ws] library. *)
Definition CONNECTING : Z := 0.
Definition OPEN : Z := 1.
Definition CLOSING : Z := 2.
Definition CLOSED : Z := 3.

(** The variables a connection's handlers close over. *)
Record Closure : Type := {
  cl_channel : string;
  cl_callsign : string
}.

Record WebSocket : Type := {
  readyState : Z;
  (** the transport refuses the next write: [send] and [ping] throw *)
  sendRaises : bool;
  (** [ws.isAlive], [undefined] until a handler assigns it *)
  isAlive : option bool;
  _channel : option string;
  _callsign : option string;
  (** the [pong]/[message]/[close] listeners, once registered *)
  handlers : option Closure;
  (** the [setInterval] timer of the connection is running *)
  interval : bool
}.

(** A row of [stations], keyed by its primary key [callsign]. *)
Record Station : Type := {
  st_channel : string;
  st_mode : option string;
  st_last_seen : Z
}.

(** A row of [messages]. *)
Record Message : Type := {
  m_id : Z;
  m_channel : string;
  m_from_callsign : string;
  m_to_callsign : option string;
  m_type : string;
  m_payload : json;
  m_created_at : Z
}.

(** The statements the WebSocket handlers send to the store. *)
Inductive Sql : Type :=
| UpsertStation (callsign channel : string)
| TouchStation (callsign : string)
| TouchStationChannel (callsign channel : string)
| SelectRecent (channel : string) (limit : option Q).

(** What a handler does to the outside, in order. *)
Inductive Effect : Type :=
| ESerialize (obj : json)
| ESend (ws : WsId) (data : string)
| EPing (ws : WsId)
| EClose (ws : WsId)
| EQuery (stmt : Sql).

Record World : Type := {
  (** [channelRooms] / [channelClients]: channel => Set(ws), a [Set]
      being its members in insertion order *)
  rooms : gmap string (list WsId);
  sockets : gmap WsId WebSocket;
  stations : gmap string Station;
  messages : list Message;
  (** the store answers; when [false] every query rejects *)
  dbUp : bool;
  (** value of [now()] *)
  clock : Z;
  trace : list Effect
}.

Definition set_rooms (r : gmap string (list WsId)) (σ : World) : World :=
  {| rooms := r; sockets := sockets σ; stations := stations σ;
     messages := messages σ; dbUp := dbUp σ; clock := clock σ; trace := trace σ |}.

Definition set_sockets (s : gmap WsId WebSocket) (σ : World) : World :=
  {| rooms := rooms σ; sockets := s; stations := stations σ;
     messages := messages σ; dbUp := dbUp σ; clock := clock σ; trace := trace σ |}.

Definition set_stations (s : gmap string Station) (σ : World) : World :=
  {| rooms := rooms σ; sockets := sockets σ; stations := s;
     messages := messages σ; dbUp := dbUp σ; clock := clock σ; trace := trace σ |}.

Definition set_trace (t : list Effect) (σ : World) : World :=
  {| rooms := rooms σ; sockets := sockets σ; stations := stations σ;
     messages := messages σ; dbUp := dbUp σ; clock := clock σ; trace := t |}.

(** ** Handlers as state transformers that may throw *)

Inductive Result (A : Type) : Type :=
| Ok (a : A)
| Thrown (e : string).
Arguments Ok {A} a.
Arguments Thrown {A} e.

Record M (A : Type) : Type := Run { run : World → Result A * World }.
Arguments Run {A} _.
Arguments run {A} _ _.

#[export] Instance M_ret : MRet M := λ A a, Run (λ σ, (Ok a, σ)).

#[export] Instance M_bind : MBind M := λ A B f m,
  Run (λ σ, match run m σ with
            | (Ok a, σ') => run (f a) σ'
            | (Thrown e, σ') => (Thrown e, σ')
            end).

Definition throw {A : Type} (e : string) : M A := Run (λ σ, (Thrown e, σ)).

(** [try { body } catch { handler }] *)
Definition try_catch {A : Type} (body handler : M A) : M A :=
  Run (λ σ, match run body σ with
            | (Ok a, σ') => (Ok a, σ')
            | (Thrown _, σ') => run handler σ'
            end).

Definition gets {A : Type} (f : World → A) : M A := Run (λ σ, (Ok (f σ), σ)).
Definition modify (f : World → World) : M () := Run (λ σ, (Ok (), f σ)).
Definition emit (e : Effect) : M () := modify (λ σ, set_trace (trace σ ++ [e]) σ).

(** [for (const x of xs) body(x)] *)
Fixpoint for_of {A : Type} (xs : list A) (body : A → M ()) : M () :=
  match xs with
  | [] => mret ()
  | x :: rest => body x ;; for_of rest body
  end.

(** ** The [ws] library and the store, as the handlers see them *)

(** A reference the world holds no object for reads as a closed socket. *)
Definition detached : WebSocket :=
  {| readyState := CLOSED; sendRaises := false; isAlive := None;
     _channel := None; _callsign := None; handlers := None; interval := false |}.

Definition socket_of (σ : World) (ws : WsId) : WebSocket :=
  default detached (sockets σ !! ws).

Definition update_socket (ws : WsId) (f : WebSocket → WebSocket) (σ : World) : World :=
  set_sockets (<[ws := f (socket_of σ ws)]> (sockets σ)) σ.

Definition with_readyState (st : Z) (s : WebSocket) : WebSocket :=
  {| readyState := st; sendRaises := sendRaises s; isAlive := isAlive s;
     _channel := _channel s; _callsign := _callsign s;
     handlers := handlers s; interval := interval s |}.

Definition with_isAlive (b : bool) (s : WebSocket) : WebSocket :=
  {| readyState := readyState s; sendRaises := sendRaises s; isAlive := Some b;
     _channel := _channel s; _callsign := _callsign s;
     handlers := handlers s; interval := interval s |}.

Definition with_identity (channel callsign : string) (s : WebSocket) : WebSocket :=
  {| readyState := readyState s; sendRaises := sendRaises s; isAlive := isAlive s;
     _channel := Some channel; _callsign := Some callsign;
     handlers := handlers s; interval := interval s |}.

Definition with_handlers (cl : Closure) (s : WebSocket) : WebSocket :=
  {| readyState := readyState s; sendRaises := sendRaises s; isAlive := isAlive s;
     _channel := _channel s; _callsign := _callsign s;
     handlers := Some cl; interval := interval s |}.

Definition with_interval (b : bool) (s : WebSocket) : WebSocket :=
  {| readyState := readyState s; sendRaises := sendRaises s; isAlive := isAlive s;
     _channel := _channel s; _callsign := _callsign s;
     handlers := handlers s; interval := b |}.

(** [ws.readyState === ws.OPEN] *)
Definition is_open (σ : World) (ws : WsId) : bool :=
  Z.eqb (readyState (socket_of σ ws)) OPEN.

(** [ws.send(data)]: throws when the transport refuses the write or the
    socket is still connecting; queues the frame on an open socket; drops
    it on a closing or closed one. *)
Definition ws_send (ws : WsId) (data : string) : M () :=
  s ← gets (λ σ, socket_of σ ws);
  if sendRaises s then throw "send failed"
  else if Z.eqb (readyState s) CONNECTING then throw "WebSocket is not open"
  else if Z.eqb (readyState s) OPEN then emit (ESend ws data)
  else mret ().

(** [ws.ping()] *)
Definition ws_ping (ws : WsId) : M () :=
  s ← gets (λ σ, socket_of σ ws);
  if sendRaises s then throw "send failed"
  else if Z.eqb (readyState s) CONNECTING then throw "WebSocket is not open"
  else if Z.eqb (readyState s) OPEN then emit (EPing ws)
  else mret ().

(** [ws.close()]: starts the closing handshake of a socket that is not
    closed yet; the [close] event comes later, from the transport. *)
Definition ws_close (ws : WsId) : M () :=
  emit (EClose ws);;
  modify (update_socket ws (λ s,
    if (Z.eqb (readyState s) CLOSED) || (Z.eqb (readyState s) CLOSING)
    then s else with_readyState CLOSING s)).

(** [Set.prototype.add] and [Set.prototype.delete] *)
Definition set_add (ws : WsId) (members : list WsId) : list WsId :=
  if bool_decide (ws ∈ members) then members else members ++ [ws].

Definition set_delete (ws : WsId) (members : list WsId) : list WsId :=
  filter (λ w, w ≠ ws) members.

(** What a write statement does to [stations]. An insert gives [mode] its
    column default. *)
Definition touch (now : Z) (r : Station) : Station :=
  {| st_channel := st_channel r; st_mode := st_mode r; st_last_seen := now |}.

Definition touch_channel (channel : string) (now : Z) (r : Station) : Station :=
  {| st_channel := channel; st_mode := st_mode r; st_last_seen := now |}.

Definition apply_sql (stmt : Sql) (now : Z) (st : gmap string Station) : gmap string Station :=
  match stmt with
  | UpsertStation callsign channel =>
      match st !! callsign with
      | Some r => <[callsign := touch_channel channel now r]> st
      | None => <[callsign := {| st_channel := channel; st_mode := Some "morse";
                                 st_last_seen := now |}]> st
      end
  | TouchStation callsign => alter (touch now) callsign st
  | TouchStationChannel callsign channel => alter (touch_channel channel now) callsign st
  | SelectRecent _ _ => st
  end.

(** [await q(stmt)] / [await pool.query(stmt)] for a write: the statement
    is issued, then the store applies it or the call rejects. *)
Definition query (stmt : Sql) : M () :=
  emit (EQuery stmt);;
  up ← gets dbUp;
  if (up : bool) then modify (λ σ, set_stations (apply_sql stmt (clock σ) (stations σ)) σ)
  else throw "store unavailable".

(** [JSON.stringify(obj)], recorded as a step of its own. *)
Definition stringify `{!JsRuntime} (obj : json) : M string :=
  emit (ESerialize obj);; mret (JSON_stringify obj).

(** The query parameters of an upgrade request the handlers read
    ([url.searchParams.get] gives [null] for an absent one). *)
Record Request : Type := {
  param_callsign : option string;
  param_channel : option string
}.

(** What the transport and the timers deliver to the server. *)
Inductive Event : Type :=
| Connection (ws : WsId) (raises : bool) (req : Request)
| Incoming (ws : WsId) (raw : string)
| Pong (ws : WsId)
| Tick (ws : WsId)
| Close (ws : WsId).

(** The object the [ws] library hands to the [connection] listener. *)
Definition accepted (raises : bool) : WebSocket :=
  {| readyState := OPEN; sendRaises := raises; isAlive := None;
     _channel := None; _callsign := None; handlers := None; interval := false |}.

Definition accept (ws : WsId) (raises : bool) : M () :=
  modify (λ σ, set_sockets (<[ws := accepted raises]> (sockets σ)) σ).

(** The transport closes the socket before it emits [close]. *)
Definition transport_closed (ws : WsId) : M () :=
  modify (update_socket ws (with_readyState CLOSED)).

Definition hello_event (callsign channel : string) : json :=
  JObj [("kind", JStr "hello"); ("ok", JBool true);
        ("callsign", JStr callsign); ("channel", JStr channel)].

Definition presence_event (callsign channel : string) : json :=
  JObj [("kind", JStr "presence");
        ("data", JObj [("callsign", JStr callsign); ("channel", JStr channel)])].

Definition pong_event : json := JObj [("kind", JStr "pong")].

Definition empty_world : World :=
  {| rooms := ∅; sockets := ∅; stations := ∅; messages := [];
     dbUp := true; clock := 0; trace := [] |}.

(** ** [src/index.js] *)

Module Index.
Section Handlers.
Context `{!JsRuntime}.

(** [function joinRoom(channel, ws)] *)
Definition joinRoom (channel : string) (ws : WsId) : M () :=
  has ← gets (λ σ, bool_decide (is_Some (rooms σ !! channel)));
  (if (has : bool) then mret ()
   else modify (λ σ, set_rooms (<[channel := []]> (rooms σ)) σ));;
  s ← gets (λ σ, rooms σ !! channel);
  match s with
  | Some members =>
      modify (λ σ, set_rooms (<[channel := set_add ws members]> (rooms σ)) σ)
  | None => throw "TypeError"
  end.

(** [function leaveRoom(channel, ws)]; [s] is the set held by the map, so
    [s.size] is read after the deletion. *)
Definition leaveRoom (channel : string) (ws : WsId) : M () :=
  s ← gets (λ σ, rooms σ !! channel);
  match s with
  | None => mret ()
  | Some members =>
      modify (λ σ, set_rooms (<[channel := set_delete ws members]> (rooms σ)) σ);;
      if bool_decide (length (set_delete ws members) = 0%nat)
      then modify (λ σ, set_rooms (delete channel (rooms σ)) σ)
      else mret ()
  end.

(** [function broadcastToChannel(channel, obj)]; the loop body leaves the
    set alone, so the members met are those held at the start. *)
Definition broadcastToChannel (channel : string) (obj : json) : M () :=
  s ← gets (λ σ, rooms σ !! channel);
  match s with
  | None => mret ()
  | Some members =>
      data ← stringify obj;
      for_of members (λ ws,
        opened ← gets (λ σ, is_open σ ws);
        if (opened : bool) then ws_send ws data else mret ())
  end.

(** [wss.on("connection", async (ws, req) => ...)]; the listeners are
    registered last. *)
Definition connection (ws : WsId) (req : Request) : M () :=
  let callsign := toUpperCase (trim (or_else (param_callsign req) "")) in
  let channel := or_else (param_channel req) "7.050" in
  modify (update_socket ws (with_identity channel callsign));;
  joinRoom channel ws;;
  (if truthy callsign
   then query (UpsertStation callsign channel);;
        broadcastToChannel channel (presence_event callsign channel)
   else mret ());;
  modify (update_socket ws
            (with_handlers {| cl_channel := channel; cl_callsign := callsign |})).

(** [ws.on("message", async (raw) => ...)] *)
Definition on_message (cl : Closure) (ws : WsId) (raw : string) : M () :=
  match JSON_parse raw with
  | None => mret ()
  | Some msg =>
      if kind_is_ping msg
      then (if truthy (cl_callsign cl)
            then query (TouchStation (cl_callsign cl))
            else mret ());;
           data ← stringify pong_event;
           ws_send ws data
      else broadcastToChannel (cl_channel cl) msg
  end.

(** [ws.on("close", () => ...)] *)
Definition on_close (cl : Closure) (ws : WsId) : M () :=
  leaveRoom (cl_channel cl) ws.

(** One event, handed to the listener registered for it (if any). *)
Definition deliver (e : Event) : M () :=
  match e with
  | Connection ws raises req => accept ws raises;; connection ws req
  | Incoming ws raw =>
      cl ← gets (λ σ, handlers (socket_of σ ws));
      match cl with Some cl => on_message cl ws raw | None => mret () end
  | Close ws =>
      transport_closed ws;;
      cl ← gets (λ σ, handlers (socket_of σ ws));
      match cl with Some cl => on_close cl ws | None => mret () end
  | Pong _ | Tick _ => mret ()
  end.

End Handlers.
End Index.

(** ** [src/server.js] *)

Module Server.
Section Handlers.
Context `{!JsRuntime}.

(** [const DEFAULT_CHANNEL = process.env.DEFAULT_CHANNEL || "7.050";] *)
Definition DEFAULT_CHANNEL : string :=
  or_else (process_env "DEFAULT_CHANNEL") "7.050".

(** [function broadcastToChannel(channel, obj)] *)
Definition broadcastToChannel (channel : string) (obj : json) : M () :=
  set ← gets (λ σ, rooms σ !! channel);
  match set with
  | None => mret ()
  | Some members =>
      data ← stringify obj;
      for_of members (λ ws,
        st ← gets (λ σ, readyState (socket_of σ ws));
        if Z.eqb st 1 then ws_send ws data else mret ())
  end.

(** [function cleanupChannelIfEmpty(channel)] *)
Definition cleanupChannelIfEmpty (channel : string) : M () :=
  set ← gets (λ σ, rooms σ !! channel);
  match set with
  | Some members =>
      if bool_decide (length members = 0%nat)
      then modify (λ σ, set_rooms (delete channel (rooms σ)) σ)
      else mret ()
  | None => mret ()
  end.

(** The body of [setInterval(async () => ..., 30_000)] *)
Definition heartbeat (cl : Closure) (ws : WsId) : M () :=
  try_catch
    (modify (update_socket ws (with_isAlive false));;
     ws_ping ws;;
     query (TouchStationChannel (cl_callsign cl) (cl_channel cl)))
    (mret ()).

(** [ws.on("pong", () => ...)] *)
Definition on_pong (ws : WsId) : M () :=
  modify (update_socket ws (with_isAlive true)).

(** [ws.on("close", () => ...)] *)
Definition on_close (cl : Closure) (ws : WsId) : M () :=
  modify (update_socket ws (with_interval false));;
  set ← gets (λ σ, rooms σ !! cl_channel cl);
  match set with
  | Some members =>
      modify (λ σ, set_rooms (<[cl_channel cl := set_delete ws members]> (rooms σ)) σ)
  | None => mret ()
  end;;
  cleanupChannelIfEmpty (cl_channel cl).

(** [ws.on("message", () => {})] *)
Definition on_message (cl : Closure) (ws : WsId) (raw : string) : M () :=
  mret ().

(** [wss.on("connection", async (ws, req) => ...)] *)
Definition connection (ws : WsId) (req : Request) : M () :=
  try_catch
    (let callsign := norm (param_callsign req) in
     let channel := or_else (param_channel req) DEFAULT_CHANNEL in
     if negb (truthy callsign) || negb (truthy channel)
     then ws_close ws
     else
       has ← gets (λ σ, bool_decide (is_Some (rooms σ !! channel)));
       (if (has : bool) then mret ()
        else modify (λ σ, set_rooms (<[channel := []]> (rooms σ)) σ));;
       set ← gets (λ σ, rooms σ !! channel);
       match set with
       | Some members =>
           modify (λ σ, set_rooms (<[channel := set_add ws members]> (rooms σ)) σ)
       | None => throw "TypeError"
       end;;
       modify (update_socket ws (with_identity channel callsign));;
       modify (update_socket ws (with_isAlive true));;
       query (UpsertStation callsign channel);;
       data ← stringify (hello_event callsign channel);
       ws_send ws data;;
       modify (update_socket ws
                 (with_handlers {| cl_channel := channel; cl_callsign := callsign |}));;
       modify (update_socket ws (with_interval true)))
    (ws_close ws).

Definition deliver (e : Event) : M () :=
  match e with
  | Connection ws raises req => accept ws raises;; connection ws req
  | Incoming ws raw =>
      cl ← gets (λ σ, handlers (socket_of σ ws));
      match cl with Some cl => on_message cl ws raw | None => mret () end
  | Pong ws =>
      cl ← gets (λ σ, handlers (socket_of σ ws));
      match cl with Some _ => on_pong ws | None => mret () end
  | Tick ws =>
      s ← gets (λ σ, socket_of σ ws);
      match handlers s with
      | Some cl => if interval s then heartbeat cl ws else mret ()
      | None => mret ()
      end
  | Close ws =>
      transport_closed ws;;
      cl ← gets (λ σ, handlers (socket_of σ ws));
      match cl with Some cl => on_close cl ws | None => mret () end
  end.

End Handlers.
End Server.

(** ** The earlier server ([part_000]) *)

Module Part000.
Section Handlers.
Context `{!JsRuntime}.

(** [function broadcastToChannel(channel, obj)] *)
Definition broadcastToChannel (channel : string) (obj : json) : M () :=
  set ← gets (λ σ, rooms σ !! channel);
  match set with
  | None => mret ()
  | Some members =>
      data ← stringify obj;
      for_of members (λ ws,
        st ← gets (λ σ, readyState (socket_of σ ws));
        if Z.eqb st 1 then ws_send ws data else mret ())
  end.

(** The body of [setInterval(async () => ..., 30_000)] *)
Definition iv (cl : Closure) (ws : WsId) : M () :=
  try_catch
    (query (TouchStationChannel (cl_callsign cl) (cl_channel cl)))
    (mret ()).

(** [ws.on("close", () => ...)] *)
Definition on_close (cl : Closure) (ws : WsId) : M () :=
  modify (update_socket ws (with_interval false));;
  set ← gets (λ σ, rooms σ !! cl_channel cl);
  match set with
  | Some members =>
      modify (λ σ, set_rooms (<[cl_channel cl := set_delete ws members]> (rooms σ)) σ)
  | None => mret ()
  end.

(** [wss.on("connection", async (ws, req) => ...)] *)
Definition connection (ws : WsId) (req : Request) : M () :=
  try_catch
    (let callsign := norm (param_callsign req) in
     let channel := or_else (param_channel req) "" in
     if negb (truthy callsign) || negb (truthy channel)
     then ws_close ws
     else
       has ← gets (λ σ, bool_decide (is_Some (rooms σ !! channel)));
       (if (has : bool) then mret ()
        else modify (λ σ, set_rooms (<[channel := []]> (rooms σ)) σ));;
       set ← gets (λ σ, rooms σ !! channel);
       match set with
       | Some members =>
           modify (λ σ, set_rooms (<[channel := set_add ws members]> (rooms σ)) σ)
       | None => throw "TypeError"
       end;;
       modify (update_socket ws (with_identity channel callsign));;
       query (UpsertStation callsign channel);;
       data ← stringify (hello_event callsign channel);
       ws_send ws data;;
       modify (update_socket ws
                 (with_handlers {| cl_channel := channel; cl_callsign := callsign |}));;
       modify (update_socket ws (with_interval true)))
    (ws_close ws).

Definition deliver (e : Event) : M () :=
  match e with
  | Connection ws raises req => accept ws raises;; connection ws req
  | Incoming _ _ | Pong _ => mret ()
  | Tick ws =>
      s ← gets (λ σ, socket_of σ ws);
      match handlers s with
      | Some cl => if interval s then iv cl ws else mret ()
      | None => mret ()
      end
  | Close ws =>
      transport_closed ws;;
      cl ← gets (λ σ, handlers (socket_of σ ws));
      match cl with Some cl => on_close cl ws | None => mret () end
  end.

End Handlers.
End Part000.

(** Running a sequence of events; what a listener throws is lost. *)
Definition after (deliver : Event → M ()) (events : list Event)
    (σ : World) : World :=
  foldl (λ w e, (run (deliver e) w).2) σ events.

(** ** [GET /v1/messages/recent] *)

(** A row of the result: [from_callsign] is selected [as callsign]
    ([to_callsign] is selected [as "toCallsign"] by [src/server.js]). *)
Record Row : Type := {
  r_id : Z;
  r_channel : string;
  r_callsign : string;
  r_to_callsign : option string;
  r_type : string;
  r_payload : json;
  r_created_at : Z
}.

Definition row_of (m : Message) : Row :=
  {| r_id := m_id m; r_channel := m_channel m; r_callsign := m_from_callsign m;
     r_to_callsign := m_to_callsign m; r_type := m_type m;
     r_payload := m_payload m; r_created_at := m_created_at m |}.

(** [order by id desc] *)
Definition newer_first (a b : Message) : Prop := m_id b ≤ m_id a.

#[export] Instance newer_first_dec (a b : Message) : Decision (newer_first a b) :=
  Z_le_dec (m_id b) (m_id a).

(** [select ... from messages where channel=$1 order by id desc limit $2] *)
Definition select_recent (channel : string) (limit : Z) (table : list Message) : list Row :=
  row_of <$> take (Z.to_nat limit)
               (merge_sort newer_first (filter (λ m, m_channel m = channel) table)).

(** A number is accepted as [limit] when it is a non-negative integer. *)
Definition integral (x : Q) : bool :=
  Z.eqb (Qnum x mod Zpos (Qden x)) 0 && Z.leb 0 (Qnum x).

Definition limit_value (x : Q) : Z := Qnum x / Zpos (Qden x).

(** [await q(select, [channel, limit])]: the rows, or a rejection when the
    store is down or refuses the limit. *)
Definition query_rows (channel : string) (limit : option Q) : M (list Row) :=
  emit (EQuery (SelectRecent channel limit));;
  up ← gets dbUp;
  if (up : bool) then
    match limit with
    | Some x =>
        if integral x
        then gets (λ σ, select_recent channel (limit_value x) (messages σ))
        else throw "invalid input syntax for type bigint"
    | None => throw "invalid input syntax for type bigint"
    end
  else throw "store unavailable".

(** [Math.max] and [Math.min]; [NaN] ([None]) wins. *)
Definition Math_max (a b : option Q) : option Q :=
  match a, b with
  | Some x, Some y => Some (if Qle_bool x y then y else x)
  | _, _ => None
  end.

Definition Math_min (a b : option Q) : option Q :=
  match a, b with
  | Some x, Some y => Some (if Qle_bool x y then x else y)
  | _, _ => None
  end.

(** [Number(req.query?.limit || 100)] *)
Definition requested_limit `{!JsRuntime} (q_limit : option string) : option Q :=
  match q_limit with
  | Some s => if truthy s then Number_of_string s else Some (inject_Z 100)
  | None => Some (inject_Z 100)
  end.

Inductive Response : Type :=
| Messages (rows : list Row)
| Failure (status : Z) (error : string).

(** [x => ({ ...x, payload: x.payload })] *)
Definition copy_row (x : Row) : Row :=
  {| r_id := r_id x; r_channel := r_channel x; r_callsign := r_callsign x;
     r_to_callsign := r_to_callsign x; r_type := r_type x;
     r_payload := r_payload x; r_created_at := r_created_at x |}.

(** The route of [src/index.js] *)
Definition Index_recent `{!JsRuntime} (q_channel q_limit : option string) : M Response :=
  try_catch
    (let channel := or_else q_channel "7.050" in
     let limit := Math_min (Some (inject_Z 200))
                    (Math_max (Some (inject_Z 1)) (requested_limit q_limit)) in
     rows ← query_rows channel limit;
     mret (Messages (copy_row <$> reverse rows)))
    (mret (Failure 500 "recent_failed")).

(** The route of [src/server.js] *)
Definition Server_recent `{!JsRuntime} (q_channel q_limit : option string) : M Response :=
  try_catch
    (let channel := or_else q_channel Server.DEFAULT_CHANNEL in
     let limit := Math_min (Some (inject_Z 500))
                    (Math_max (Some (inject_Z 1)) (requested_limit q_limit)) in
     rows ← query_rows channel limit;
     mret (Messages (reverse rows)))
    (mret (Failure 500 "recent_failed")).

(** ** A runtime to run the handlers on concrete inputs *)

(** Frames that carry nothing but their kind: the text of a frame is its
    kind. *)
Definition kind_frame (k : string) : json := JObj [("kind", JStr k)].

Definition render_kind (obj : json) : string :=
  match kind_of obj with
  | Some (JStr k) => k
  | _ => "?"
  end.

Definition decimal_digit (a : ascii) : option Z :=
  let n := nat_of_ascii a in
  if (Nat.leb 48 n && Nat.leb n 57)%bool then Some (Z.of_nat (n - 48)) else None.

Fixpoint decimal (acc : Z) (s : string) : option Z :=
  match s with
  | EmptyString => Some acc
  | String a rest =>
      match decimal_digit a with
      | Some d => decimal (10 * acc + d) rest
      | None => None
      end
  end.

#[export] Instance kind_runtime : JsRuntime := {
  JSON_stringify := render_kind;
  JSON_parse := λ raw, if truthy raw then Some (kind_frame raw) else None;
  Number_of_string := λ s, inject_Z <$> decimal 0 s;
  process_env := λ _, None
}.

(** ** Vocabulary of the statements *)

(** The effects a run added to the trace of [σ]. *)
Definition emitted (σ σ' : World) (es : list Effect) : Prop :=
  trace σ' = trace σ ++ es.

(** The frame [data] was handed to [ws]. *)
Definition receives (ws : WsId) (data : string) (es : list Effect) : Prop :=
  ESend ws data ∈ es.

(** The write to [ws] goes through: the transport does not throw. *)
Definition writable (σ : World) (ws : WsId) : Prop :=
  sendRaises (socket_of σ ws) = false.

(** The members a fan-out reaches, in iteration order, and whether it
    runs to its end: it stops at the first open member whose transport
    throws. *)
Fixpoint reached (σ : World) (members : list WsId) : list WsId * bool :=
  match members with
  | [] => ([], true)
  | w :: rest =>
      if is_open σ w
      then if sendRaises (socket_of σ w) then ([], false)
           else (w :: (reached σ rest).1, (reached σ rest).2)
      else reached σ rest
  end.

(** The effects a run from [σ] to [σ'] added. *)
Definition new_effects (σ σ' : World) : list Effect :=
  drop (length (trace σ)) (trace σ').

(** A query parameter that is absent or the empty string. *)
Definition missing (p : option string) : Prop := p = None ∨ p = Some "".

(** A rejected handshake: the socket is closed and that is all; no room
    changes and no statement reaches the store. *)
Definition rejected (ws : WsId) (σ σ' : World) : Prop :=
  rooms σ' = rooms σ ∧ stations σ' = stations σ ∧ emitted σ σ' [EClose ws].

(** The room map once [ws] has been added to the room of [channel]. *)
Definition joined_rooms (channel : string) (ws : WsId)
    (r : gmap string (list WsId)) : gmap string (list WsId) :=
  <[channel := set_add ws (default [] (r !! channel))]> r.

(** [ws] is a member of the room of [channel]. *)
Definition joined (ws : WsId) (channel : string) (σ : World) : Prop :=
  ∃ members, rooms σ !! channel = Some members ∧ ws ∈ members.

(** ** Worlds and requests of the scenarios *)

Definition k1abc_on (channel : option string) : Request :=
  {| param_callsign := Some "K1ABC"; param_channel := channel |}.

Definition anonymous_on (channel : option string) : Request :=
  {| param_callsign := None; param_channel := channel |}.

(** One socket accepted by the transport, before its [connection] event. *)
Definition one_accepted : World :=
  (run (accept 1%nat false) empty_world).2.

(** A room of two open sockets; the transport of the first one throws on
    a write when [raises] is set. *)
Definition room_of_two (raises : bool) : World :=
  {| rooms := {[ "7.050" := [1%nat; 2%nat] ]};
     sockets := {[ 1%nat := accepted raises; 2%nat := accepted false ]};
     stations := ∅; messages := []; dbUp := true; clock := 0; trace := [] |}.

Definition w1aw_on (channel : option string) : Request :=
  {| param_callsign := Some "W1AW"; param_channel := channel |}.

(** Two stations joined to "7.050" through [src/index.js]. *)
Definition two_joined : World :=
  after Index.deliver
    [Connection 1%nat false (k1abc_on (Some "7.050"));
     Connection 2%nat false (w1aw_on (Some "7.050"))]
    empty_world.

(** A relay that spares its sender: [A] does not get [data], every other
    open member does. *)
Definition relayed_to_others (A : WsId) (data : string) (σ : World)
    (members : list WsId) (es : list Effect) : Prop :=
  ¬ receives A data es ∧
  ∀ w, w ∈ members → w ≠ A → is_open σ w = true → receives w data es.

(** A handler keeps the part [proj] of the world. *)
Definition keeps {A T : Type} (proj : World → T) (m : M A) : Prop :=
  ∀ σ, proj (run m σ).2 = proj σ.

(** Projections that do not look at the trace or at the store. *)
Definition ignores_trace {T : Type} (proj : World → T) : Prop :=
  ∀ t σ, proj (set_trace t σ) = proj σ.

Definition ignores_stations {T : Type} (proj : World → T) : Prop :=
  ∀ s σ, proj (set_stations s σ) = proj σ.

(** The [close] calls recorded in the trace. *)
Definition is_close (e : Effect) : bool :=
  match e with EClose _ => true | _ => false end.

Definition closes (σ : World) : list Effect :=
  filter (λ e, is_close e = true) (trace σ).

(** A connection the server holds as live: member of the room of its
    channel, socket open, timer running, and the server has closed
    nothing. *)
Definition held_live (ws : WsId) (channel : string) (σ : World) : Prop :=
  joined ws channel σ ∧ is_open σ ws = true ∧
  interval (socket_of σ ws) = true ∧ closes σ = [].

(** Orders on result rows. *)
Definition descending (a b : Row) : Prop := r_id b ≤ r_id a.
Definition ascending (a b : Row) : Prop := r_id a ≤ r_id b.

Definition cw (id : Z) (channel from : string) : Message :=
  {| m_id := id; m_channel := channel; m_from_callsign := from;
     m_to_callsign := None; m_type := "CW_MORSE"; m_payload := JObj [];
     m_created_at := 1000 + id |}.

(** A store with three messages on "7.050" and one on "14.070". *)
Definition four_messages : World :=
  {| rooms := ∅; sockets := ∅; stations := ∅;
     messages := [cw 1 "7.050" "K1ABC"; cw 2 "14.070" "W1AW";
                  cw 3 "7.050" "W1AW"; cw 4 "7.050" "K1ABC"];
     dbUp := true; clock := 2000; trace := [] |}.

(** The registry holds no entry for a channel without members. *)
Definition no_empty_room (σ : World) : Prop :=
  ∀ channel members, rooms σ !! channel = Some members → members ≠ [].

(** ** The REST routes on [stations] *)

(** What a route answers: the body of [res.json({ ok: true, ... })], or
    [res.status(code).json({ ok: false, error })]. *)
Inductive Answer (T : Type) : Type :=
| Json (body : T)
| Status (code : Z) (error : string).
Arguments Json {T} body.
Arguments Status {T} code error.

(** The fields [POST /v1/stations/register] reads; a text field of a
    body is a string, or absent. *)
Record RegisterRequest : Type := {
  reg_callsign : option string;
  reg_channel : option string;
  reg_query_channel : option string
}.

(** [app.post("/v1/stations/register", ...)] of [src/index.js]; the body
    is the station [{ callsign, channel }]. *)
Definition Index_register (req : RegisterRequest) : M (Answer (string * string)) :=
  try_catch
    (let callsign := toUpperCase (trim (or_else (reg_callsign req) "")) in
     let channel := or_else (reg_channel req)
                      (or_else (reg_query_channel req) "7.050") in
     if negb (truthy callsign)
     then mret (Status 400 "callsign_required")
     else query (UpsertStation callsign channel);;
          mret (Json (callsign, channel)))
    (mret (Status 500 "register_failed")).

(** [app.post("/v1/stations/register", ...)] of [src/server.js] *)
Definition Server_register `{!JsRuntime} (req : RegisterRequest)
    : M (Answer (string * string)) :=
  try_catch
    (let callsign := norm (reg_callsign req) in
     let channel := or_else (reg_channel req) Server.DEFAULT_CHANNEL in
     if negb (truthy callsign)
     then mret (Status 400 "callsign_required")
     else query (UpsertStation callsign channel);;
          mret (Json (callsign, channel)))
    (mret (Status 500 "register_failed")).

(** A row of the online list ([frequency] is written by no route and
    stays [NULL]). The clock counts seconds. *)
Record OnlineRow : Type := {
  on_callsign : string;
  on_channel : string;
  on_mode : option string;
  on_last_seen : Z
}.

Definition online_row (kv : string * Station) : OnlineRow :=
  {| on_callsign := kv.1; on_channel := st_channel kv.2;
     on_mode := st_mode kv.2; on_last_seen := st_last_seen kv.2 |}.

(** [last_seen > now() - ($2 || ' seconds')::interval] *)
Definition fresh (now : Z) (ttl : Q) (last_seen : Z) : bool :=
  negb (Qle_bool (inject_Z last_seen) (inject_Z now - ttl)).

(** [order by last_seen desc] *)
Definition seen_later (a b : string * Station) : Prop :=
  st_last_seen b.2 ≤ st_last_seen a.2.

#[export] Instance seen_later_dec (a b : string * Station) : Decision (seen_later a b) :=
  Z_le_dec (st_last_seen b.2) (st_last_seen a.2).

(** [select ... from stations where <on_channel> and last_seen > now() -
    ttl order by last_seen desc limit 200] *)
Definition select_online (on_channel : string → bool) (now : Z) (ttl : Q)
    (table : gmap string Station) : list OnlineRow :=
  online_row <$>
    take 200
      (merge_sort seen_later
         (filter (λ kv, on_channel (st_channel kv.2) = true ∧
                        fresh now ttl (st_last_seen kv.2) = true)
                 (map_to_list table))).

(** [await q(select, [channel, ttl])]: the interval does not parse when
    the number is [NaN]. *)
Definition query_online (on_channel : string → bool) (ttl : option Q)
    : M (list OnlineRow) :=
  up ← gets dbUp;
  if (up : bool) then
    match ttl with
    | Some x => gets (λ σ, select_online on_channel (clock σ) x (stations σ))
    | None => throw "invalid input syntax for type interval"
    end
  else throw "store unavailable".

(** [Number(process.env.STATION_TTL_SEC || dflt)] *)
Definition station_ttl `{!JsRuntime} (dflt : Z) : option Q :=
  match process_env "STATION_TTL_SEC" with
  | Some s => if truthy s then Number_of_string s else Some (inject_Z dflt)
  | None => Some (inject_Z dflt)
  end.

(** [app.get("/v1/stations/online", ...)] of [src/index.js] *)
Definition Index_online `{!JsRuntime} (q_channel : option string)
    : M (Answer (list OnlineRow)) :=
  try_catch
    (let channel := or_else q_channel "7.050" in
     let ttlSec := station_ttl 60 in
     rows ← query_online (String.eqb channel) ttlSec;
     mret (Json rows))
    (mret (Status 500 "online_failed")).

(** [app.get("/v1/stations/online", ...)] of [src/server.js];
    [STATION_TTL_SEC] is read once, with 120 as its default. *)
Definition Server_online `{!JsRuntime} (q_channel : option string)
    : M (Answer (list OnlineRow)) :=
  try_catch
    (let channel := or_else q_channel Server.DEFAULT_CHANNEL in
     rows ← query_online (String.eqb channel) (station_ttl 120);
     mret (Json rows))
    (mret (Status 500 "online_failed")).

(** ** [POST /v1/messages] of [src/index.js] *)

Record MessageBody : Type := {
  msg_fromCallsign : option string;
  msg_toCallsign : option string;
  msg_channel : option string;
  msg_type : option string;
  msg_payload : option json
}.

Definition set_messages (ms : list Message) (σ : World) : World :=
  {| rooms := rooms σ; sockets := sockets σ; stations := stations σ;
     messages := ms; dbUp := dbUp σ; clock := clock σ; trace := trace σ |}.

(** [payload ?? {}] *)
Definition payload_or_empty (p : option json) : json :=
  match p with
  | Some JNull | None => JObj []
  | Some v => v
  end.

(** [toCallsign ? String(toCallsign).trim().toUpperCase() : null] *)
Definition recipient (to : option string) : option string :=
  match to with
  | Some s => if truthy s then Some (toUpperCase (trim s)) else None
  | None => None
  end.

(** [insert into messages(...) values($1,$2,$3,$4,$5) returning id,
    created_at]: [id] is the value the sequence of the table hands out,
    the payload is stored as the [jsonb] its text denotes. The insert
    leaves no entry in the trace; it shows in the table. *)
Definition insert_message `{!JsRuntime} (id : Z) (channel from : string)
    (to : option string) (type payload : string) : M (Z * Z) :=
  up ← gets dbUp;
  if (up : bool) then
    match JSON_parse payload with
    | Some p =>
        now ← gets clock;
        modify (λ σ, set_messages
                       (messages σ ++
                        [{| m_id := id; m_channel := channel;
                            m_from_callsign := from; m_to_callsign := to;
                            m_type := type; m_payload := p;
                            m_created_at := now |}]) σ);;
        mret (id, now)
    | None => throw "invalid input syntax for type json"
    end
  else throw "store unavailable".

(** The object [msg] of the route. *)
Definition posted (id : Z) (channel from : string) (to : option string)
    (type : string) (p : json) (created_at : Z) : Row :=
  {| r_id := id; r_channel := channel; r_callsign := from; r_to_callsign := to;
     r_type := type; r_payload := p; r_created_at := created_at |}.

Definition json_of_row (r : Row) : json :=
  JObj [("id", JNum (r_id r)); ("channel", JStr (r_channel r));
        ("callsign", JStr (r_callsign r));
        ("to_callsign", match r_to_callsign r with Some s => JStr s | None => JNull end);
        ("type", JStr (r_type r)); ("payload", r_payload r);
        ("created_at", JNum (r_created_at r))].

(** [{ kind: "message", data: msg }] *)
Definition message_event (r : Row) : json :=
  JObj [("kind", JStr "message"); ("data", json_of_row r)].

(** [app.post("/v1/messages", ...)] of [src/index.js]; [nextval] is what
    the sequence of [messages.id] hands out for this insert. *)
Definition Index_post_message `{!JsRuntime} (nextval : Z) (body : MessageBody)
    : M (Answer Row) :=
  try_catch
    (let from := toUpperCase (trim (or_else (msg_fromCallsign body) "")) in
     let to := recipient (msg_toCallsign body) in
     let ch := or_else (msg_channel body) "7.050" in
     let t := or_else (msg_type body) "CW_MORSE" in
     let p := payload_or_empty (msg_payload body) in
     if negb (truthy from)
     then mret (Status 400 "from_required")
     else
       text ← stringify p;
       r ← insert_message nextval ch from to t text;
       query (UpsertStation from ch);;
       let msg := posted r.1 ch from to t p r.2 in
       Index.broadcastToChannel ch (message_event msg);;
       mret (Json msg))
    (mret (Status 500 "send_failed")).

(** What the route computes from the body. *)
Definition post_from (body : MessageBody) : string := norm (msg_fromCallsign body).
Definition post_channel (body : MessageBody) : string := or_else (msg_channel body) "7.050".
Definition post_row (nextval : Z) (body : MessageBody) (p : json) (now : Z) : Row :=
  posted nextval (post_channel body) (post_from body) (recipient (msg_toCallsign body))
    (or_else (msg_type body) "CW_MORSE") p now.

(** ** The contacts routes of [src/index.js] *)

(** A row of [contacts], keyed by [(my_callsign, callsign)]. *)
Record Contact : Type := {
  c_name : option string;
  c_location : option string;
  c_notes : option string;
  c_last_contact_date : option Z;
  c_qso_count : Z
}.

Record ContactBody : Type := {
  cb_myCallsign : option string;
  cb_callsign : option string;
  cb_name : option string;
  cb_location : option string;
  cb_notes : option string
}.

(** [insert into contacts(my_callsign, callsign, name, location, notes)
    ... on conflict(my_callsign, callsign) do update set name=excluded.name,
    location=excluded.location, notes=excluded.notes] *)
Definition upsert_contact (my cs : string) (name location notes : option string)
    (table : gmap (string * string) Contact) : gmap (string * string) Contact :=
  match table !! (my, cs) with
  | Some old =>
      <[(my, cs) := {| c_name := name; c_location := location; c_notes := notes;
                       c_last_contact_date := c_last_contact_date old;
                       c_qso_count := c_qso_count old |}]> table
  | None =>
      <[(my, cs) := {| c_name := name; c_location := location; c_notes := notes;
                       c_last_contact_date := None; c_qso_count := 0 |}]> table
  end.

(** [app.patch("/v1/contacts/update", ...)]: the table is passed
    explicitly; [up] tells whether the store answers. *)
Definition Index_contacts_update (up : bool) (body : ContactBody)
    (table : gmap (string * string) Contact)
    : Answer () * gmap (string * string) Contact :=
  let my := toUpperCase (trim (or_else (cb_myCallsign body) "")) in
  let cs := toUpperCase (trim (or_else (cb_callsign body) "")) in
  if negb (truthy my) || negb (truthy cs)
  then (Status 400 "callsign_required", table)
  else if up
       then (Json (), upsert_contact my cs (cb_name body) (cb_location body)
                        (cb_notes body) table)
       else (Status 500 "contact_update_failed", table).

(** A row of the contact list. *)
Record ContactRow : Type := {
  cr_callsign : string;
  cr_contact : Contact
}.

(** [order by last_contact_date desc nulls last] *)
Definition contacted_later (a b : (string * string) * Contact) : Prop :=
  match c_last_contact_date a.2, c_last_contact_date b.2 with
  | Some x, Some y => y ≤ x
  | Some _, None => True
  | None, Some _ => False
  | None, None => True
  end.

#[export] Instance contacted_later_dec (a b : (string * string) * Contact)
    : Decision (contacted_later a b).
Proof.
  unfold contacted_later.
  destruct (c_last_contact_date a.2), (c_last_contact_date b.2); apply _.
Defined.

(** [select ... from contacts where my_callsign=$1 order by
    last_contact_date desc nulls last limit 500] *)
Definition select_contacts (my : string) (table : gmap (string * string) Contact)
    : list ContactRow :=
  (λ kv, {| cr_callsign := kv.1.2; cr_contact := kv.2 |}) <$>
    take 500
      (merge_sort contacted_later
         (filter (λ kv, kv.1.1 = my) (map_to_list table))).

(** [app.get("/v1/contacts/list", ...)] *)
Definition Index_contacts_list (up : bool) (q_myCallsign : option string)
    (table : gmap (string * string) Contact) : Answer (list ContactRow) :=
  let my := toUpperCase (trim (or_else q_myCallsign "")) in
  if negb (truthy my)
  then Status 400 "my_callsign_required"
  else if up then Json (select_contacts my table)
       else Status 500 "contacts_failed".

(** The table after a series of [PATCH /v1/contacts/update] requests,
    each with the state of the store at its time. *)
Definition contacts_after (requests : list (bool * ContactBody))
    (table : gmap (string * string) Contact) : gmap (string * string) Contact :=
  foldl (λ t r, (Index_contacts_update r.1 r.2 t).2) table requests.

(** ** Vocabulary of the further statements *)


(** No connection is twice a member of a room. *)
Definition rooms_nodup (σ : World) : Prop :=
  ∀ channel members, rooms σ !! channel = Some members → NoDup members.
(** * Properties *)

(** ** The monad *)

Lemma run_bind {A B : Type} (m : M A) (f : A → M B) (σ : World) :
  run (m ≫= f) σ =
  match run m σ with
  | (Ok a, σ') => run (f a) σ'
  | (Thrown e, σ') => (Thrown e, σ')
  end.
Proof. reflexivity. Qed.

Lemma set_trace_id (σ : World) : set_trace (trace σ ++ []) σ = σ.
Proof. destruct σ; unfold set_trace; cbn. by rewrite app_nil_r. Qed.

Lemma set_trace_twice (t1 t2 : list Effect) (σ : World) :
  set_trace t2 (set_trace t1 σ) = set_trace t2 σ.
Proof. reflexivity. Qed.

Lemma is_open_set_trace (t : list Effect) (σ : World) (ws : WsId) :
  is_open (set_trace t σ) ws = is_open σ ws.
Proof. reflexivity. Qed.

Lemma reached_set_trace (t : list Effect) (σ : World) (members : list WsId) :
  reached (set_trace t σ) members = reached σ members.
Proof. induction members as [|w rest IH]; cbn; [done|]. by rewrite IH. Qed.

(** An open socket is not connecting. *)
Lemma open_not_connecting (σ : World) (ws : WsId) :
  is_open σ ws = true → Z.eqb (readyState (socket_of σ ws)) CONNECTING = false.
Proof. unfold is_open, OPEN, CONNECTING. intros H%Z.eqb_eq. rewrite H. reflexivity. Qed.

(** ** Sockets and the store *)

Lemma socket_of_update_eq (ws : WsId) (f : WebSocket → WebSocket) (σ : World) :
  socket_of (update_socket ws f σ) ws = f (socket_of σ ws).
Proof. unfold socket_of, update_socket. cbn. by rewrite lookup_insert_eq. Qed.

Lemma socket_of_update_ne (ws w : WsId) (f : WebSocket → WebSocket) (σ : World) :
  ws ≠ w → socket_of (update_socket ws f σ) w = socket_of σ w.
Proof. intros Hne. unfold socket_of, update_socket. cbn. by rewrite lookup_insert_ne. Qed.

(** A field that the update [f] keeps reads the same on every socket. *)
Lemma field_update {T : Type} (field : WebSocket → T) (ws w : WsId)
    (f : WebSocket → WebSocket) (σ : World) :
  (∀ s, field (f s) = field s) →
  field (socket_of (update_socket ws f σ) w) = field (socket_of σ w).
Proof.
  intros Hf. destruct (decide (ws = w)) as [->|Hne].
  - by rewrite socket_of_update_eq.
  - by rewrite socket_of_update_ne.
Qed.

Lemma is_open_update (ws w : WsId) (f : WebSocket → WebSocket) (σ : World) :
  (∀ s, readyState (f s) = readyState s) →
  is_open (update_socket ws f σ) w = is_open σ w.
Proof. intros Hf. unfold is_open. by rewrite (field_update readyState). Qed.

Lemma writable_update (ws w : WsId) (f : WebSocket → WebSocket) (σ : World) :
  (∀ s, sendRaises (f s) = sendRaises s) →
  writable (update_socket ws f σ) w ↔ writable σ w.
Proof. intros Hf. unfold writable. by rewrite (field_update sendRaises). Qed.

Lemma run_query (stmt : Sql) (σ : World) :
  run (query stmt) σ =
  if dbUp σ
  then (Ok (), set_stations (apply_sql stmt (clock σ) (stations σ))
                 (set_trace (trace σ ++ [EQuery stmt]) σ))
  else (Thrown "store unavailable", set_trace (trace σ ++ [EQuery stmt]) σ).
Proof. unfold query. rewrite !run_bind. cbn. by destruct (dbUp σ). Qed.

Lemma run_ws_send_open (ws : WsId) (data : string) (σ : World) :
  is_open σ ws = true → writable σ ws →
  run (ws_send ws data) σ = (Ok (), set_trace (trace σ ++ [ESend ws data]) σ).
Proof.
  intros Hopen Hw. pose proof (open_not_connecting _ _ Hopen) as Hc.
  unfold ws_send. rewrite run_bind. cbn [run gets].
  unfold writable in Hw. unfold is_open in Hopen. by rewrite Hw, Hc, Hopen.
Qed.

Lemma joined_rooms_fresh (channel : string) (ws : WsId) (r : gmap string (list WsId)) :
  r !! channel = None →
  <[channel := set_add ws []]> (<[channel := []]> r) = joined_rooms channel ws r.
Proof. intros Hn. unfold joined_rooms. by rewrite Hn, insert_insert_eq. Qed.

Lemma joined_rooms_known (channel : string) (ws : WsId) (r : gmap string (list WsId))
    (members : list WsId) :
  r !! channel = Some members →
  <[channel := set_add ws members]> r = joined_rooms channel ws r.
Proof. intros Hs. unfold joined_rooms. by rewrite Hs. Qed.

Lemma set_add_member (ws : WsId) (members : list WsId) : ws ∈ set_add ws members.
Proof.
  unfold set_add. case_bool_decide; [done|].
  apply elem_of_app. right. by left.
Qed.

Lemma joined_rooms_joined (channel : string) (ws : WsId) (σ σ' : World) :
  rooms σ' = joined_rooms channel ws (rooms σ) → joined ws channel σ'.
Proof.
  intros Hr. unfold joined. rewrite Hr.
  eexists. split; [apply lookup_insert_eq|]. apply set_add_member.
Qed.

Lemma run_stringify `{!JsRuntime} (obj : json) (σ : World) :
  run (stringify obj) σ
  = (Ok (JSON_stringify obj), set_trace (trace σ ++ [ESerialize obj]) σ).
Proof. reflexivity. Qed.

(** What an update of one socket leaves alone. *)
Lemma rooms_update_socket ws f σ : rooms (update_socket ws f σ) = rooms σ.
Proof. reflexivity. Qed.
Lemma stations_update_socket ws f σ : stations (update_socket ws f σ) = stations σ.
Proof. reflexivity. Qed.
Lemma messages_update_socket ws f σ : messages (update_socket ws f σ) = messages σ.
Proof. reflexivity. Qed.
Lemma dbUp_update_socket ws f σ : dbUp (update_socket ws f σ) = dbUp σ.
Proof. reflexivity. Qed.
Lemma clock_update_socket ws f σ : clock (update_socket ws f σ) = clock σ.
Proof. reflexivity. Qed.
Lemma trace_update_socket ws f σ : trace (update_socket ws f σ) = trace σ.
Proof. reflexivity. Qed.

Lemma is_open_set_rooms r σ w : is_open (set_rooms r σ) w = is_open σ w.
Proof. reflexivity. Qed.
Lemma is_open_set_stations s σ w : is_open (set_stations s σ) w = is_open σ w.
Proof. reflexivity. Qed.
Lemma writable_set_rooms r σ w : writable (set_rooms r σ) w = writable σ w.
Proof. reflexivity. Qed.
Lemma writable_set_stations s σ w : writable (set_stations s σ) w = writable σ w.
Proof. reflexivity. Qed.
Lemma writable_set_trace t σ w : writable (set_trace t σ) w = writable σ w.
Proof. reflexivity. Qed.

Create Rewrite HintDb world.
#[local] Hint Rewrite rooms_update_socket stations_update_socket
  messages_update_socket dbUp_update_socket clock_update_socket
  trace_update_socket is_open_set_rooms is_open_set_stations is_open_set_trace
  writable_set_rooms writable_set_stations writable_set_trace : world.

(** Stepping through a handler: binds first, then the primitive reads and
    writes of the world. *)
Ltac mrun :=
  repeat progress
    (rewrite ?run_bind, ?run_stringify;
     cbn [run gets modify emit throw mret M_ret fst snd
          rooms sockets stations messages dbUp clock trace
          set_rooms set_sockets set_stations set_trace];
     autorewrite with world).

(** The inlined join of the handshake, by cases on the room map. *)
Ltac join_inline σ channel Hroom :=
  destruct (rooms σ !! channel) as [?members|] eqn:Hroom;
  [ rewrite bool_decide_true by eauto; mrun; rewrite Hroom; mrun;
    rewrite (joined_rooms_known _ _ _ _ Hroom)
  | rewrite bool_decide_false by (by intros [? ?]); mrun;
    rewrite lookup_insert_eq; mrun; rewrite (joined_rooms_fresh _ _ _ Hroom) ].

(** ** Parts of the world a handler keeps *)

Lemma keeps_ret {A T : Type} (proj : World → T) (a : A) : keeps proj (mret a).
Proof. by intros σ. Qed.

Lemma keeps_throw {A T : Type} (proj : World → T) (e : string) :
  keeps proj (throw e : M A).
Proof. by intros σ. Qed.

Lemma keeps_gets {A T : Type} (proj : World → T) (f : World → A) :
  keeps proj (gets f).
Proof. by intros σ. Qed.

Lemma keeps_modify {T : Type} (proj : World → T) (f : World → World) :
  (∀ σ, proj (f σ) = proj σ) → keeps proj (modify f).
Proof. intros Hf σ. apply Hf. Qed.

Lemma keeps_bind {A B T : Type} (proj : World → T) (m : M A) (f : A → M B) :
  keeps proj m → (∀ a, keeps proj (f a)) → keeps proj (m ≫= f).
Proof.
  intros Hm Hf σ. rewrite run_bind. specialize (Hm σ).
  destruct (run m σ) as [[a|e] σ1]; cbn in *; [|done].
  by rewrite Hf.
Qed.

Lemma keeps_try_catch {A T : Type} (proj : World → T) (body handler : M A) :
  keeps proj body → keeps proj handler → keeps proj (try_catch body handler).
Proof.
  intros Hb Hh σ. unfold try_catch. cbn [run]. specialize (Hb σ).
  destruct (run body σ) as [[a|e] σ1]; cbn in *; [done|].
  by rewrite Hh.
Qed.

Lemma keeps_for_of {A T : Type} (proj : World → T) (xs : list A) (body : A → M ()) :
  (∀ x, keeps proj (body x)) → keeps proj (for_of xs body).
Proof.
  intros Hb. induction xs as [|x rest IH]; cbn [for_of].
  - apply keeps_ret.
  - apply keeps_bind; [apply Hb|by intros _].
Qed.

(** A step that always succeeds, followed by steps that keep [proj]. *)
Lemma keeps_after {A B T : Type} (proj : World → T) (m : M A) (f : A → M B)
    (a : A) (σ σ1 : World) :
  run m σ = (Ok a, σ1) → keeps proj (f a) →
  proj (run (m ≫= f) σ).2 = proj σ1.
Proof. intros Hm Hf. rewrite run_bind, Hm. apply Hf. Qed.

Lemma keeps_if {A T : Type} (proj : World → T) (b : bool) (m1 m2 : M A) :
  keeps proj m1 → keeps proj m2 → keeps proj (if b then m1 else m2).
Proof. by destruct b. Qed.

Lemma keeps_emit {T : Type} (proj : World → T) (e : Effect) :
  ignores_trace proj → keeps proj (emit e).
Proof. intros Ht σ. apply Ht. Qed.

Lemma keeps_query {T : Type} (proj : World → T) (stmt : Sql) :
  ignores_trace proj → ignores_stations proj → keeps proj (query stmt).
Proof.
  intros Ht Hs σ. rewrite run_query.
  destruct (dbUp σ); cbn [snd]; by rewrite ?Hs, Ht.
Qed.

Lemma keeps_ws_send {T : Type} (proj : World → T) (ws : WsId) (data : string) :
  ignores_trace proj → keeps proj (ws_send ws data).
Proof.
  intros Ht σ. unfold ws_send. rewrite run_bind. cbn [run gets].
  repeat case_match; cbn; by rewrite ?Ht.
Qed.

Lemma keeps_ws_ping {T : Type} (proj : World → T) (ws : WsId) :
  ignores_trace proj → keeps proj (ws_ping ws).
Proof.
  intros Ht σ. unfold ws_ping. rewrite run_bind. cbn [run gets].
  repeat case_match; cbn; by rewrite ?Ht.
Qed.

Lemma keeps_stringify `{!JsRuntime} {T : Type} (proj : World → T) (obj : json) :
  ignores_trace proj → keeps proj (stringify obj).
Proof. intros Ht σ. rewrite run_stringify. apply Ht. Qed.

Lemma rooms_ignores_trace : ignores_trace rooms.
Proof. by intros t σ. Qed.

Lemma rooms_ignores_stations : ignores_stations rooms.
Proof. by intros s σ. Qed.

Lemma keeps_rooms_ws_close (ws : WsId) : keeps rooms (ws_close ws).
Proof. by intros σ. Qed.

Create HintDb keeps.
#[local] Hint Resolve keeps_ret keeps_throw keeps_gets keeps_bind keeps_try_catch
  keeps_for_of keeps_if keeps_emit keeps_query keeps_ws_send keeps_ws_ping
  keeps_modify rooms_ignores_trace rooms_ignores_stations keeps_rooms_ws_close
  : keeps.
#[local] Hint Extern 2 (keeps _ (stringify _)) => apply keeps_stringify : keeps.
#[local] Hint Extern 3 (keeps _ (match ?x with _ => _ end)) => destruct x : keeps.

(** What [try]/[catch] leaves of a projection the handler keeps. *)
Lemma try_catch_keeps {A T : Type} (proj : World → T) (body handler : M A) (σ : World) :
  keeps proj handler →
  proj (run (try_catch body handler) σ).2 = proj (run body σ).2.
Proof.
  intros Hh. unfold try_catch. cbn [run].
  destruct (run body σ) as [[a|e] σ1]; cbn [snd]; [done|apply Hh].
Qed.

(** ** The fan-out loop *)

Section FanOut.
Context `{!JsRuntime}.
Variable data : string.
Variable body : WsId → M ().
Hypothesis body_guarded : ∀ w σ,
  run (body w) σ =
  if is_open σ w then run (ws_send w data) σ else (Ok (), σ).

Lemma guarded_send_run (w : WsId) (σ : World) :
  run (body w) σ =
  if is_open σ w
  then if sendRaises (socket_of σ w) then (Thrown "send failed", σ)
       else (Ok (), set_trace (trace σ ++ [ESend w data]) σ)
  else (Ok (), σ).
Proof.
  rewrite body_guarded. destruct (is_open σ w) eqn:Hopen; [|done].
  pose proof (open_not_connecting _ _ Hopen) as Hc.
  unfold is_open in Hopen. unfold ws_send. rewrite run_bind. cbn.
  destruct (sendRaises (socket_of σ w)); [done|].
  rewrite Hc, Hopen. reflexivity.
Qed.

Lemma for_of_reached (members : list WsId) (σ : World) :
  run (for_of members body) σ =
  ((if (reached σ members).2 then Ok () else Thrown "send failed"),
   set_trace (trace σ ++ ((λ w, ESend w data) <$> (reached σ members).1)) σ).
Proof.
  revert σ. induction members as [|w rest IH]; intros σ.
  - cbn. by rewrite set_trace_id.
  - cbn [for_of reached]. rewrite run_bind, guarded_send_run.
    destruct (is_open σ w) eqn:Hopen.
    + destruct (sendRaises (socket_of σ w)) eqn:Hr.
      * cbn. by rewrite set_trace_id.
      * rewrite IH, reached_set_trace. cbn.
        by rewrite set_trace_twice, <- app_assoc.
    + apply IH.
Qed.

End FanOut.

(** Members a complete fan-out reaches: the open ones. *)
Lemma reached_all_writable (σ : World) (members : list WsId) :
  (∀ w, w ∈ members → is_open σ w = true → writable σ w) →
  reached σ members = (filter (λ w, is_open σ w = true) members, true).
Proof.
  induction members as [|w rest IH]; intros Hw; [done|].
  cbn [reached]. rewrite IH by (intros; apply Hw; [by right|done]).
  destruct (is_open σ w) eqn:Hopen.
  - rewrite (Hw w) by (done || by left). cbn [fst snd].
    rewrite filter_cons. by case_decide.
  - rewrite filter_cons. case_decide; [congruence|done].
Qed.

Lemma reached_skips_closed (σ : World) (before after : list WsId) (w : WsId) :
  is_open σ w = false →
  reached σ (before ++ w :: after) = reached σ (before ++ after).
Proof.
  intros Hc. induction before as [|v rest IH]; cbn [app reached].
  - by rewrite Hc.
  - by rewrite IH.
Qed.

Lemma reached_member (σ : World) (before after : list WsId) (w : WsId) :
  is_open σ w = true → writable σ w →
  (∀ v, v ∈ before → is_open σ v = true → writable σ v) →
  w ∈ (reached σ (before ++ w :: after)).1.
Proof.
  intros Hopen Hw. induction before as [|v rest IH]; intros Hb; cbn [app reached].
  - rewrite Hopen, Hw. cbn. by left.
  - destruct (is_open σ v) eqn:Hv.
    + rewrite (Hb v) by (done || by left). cbn. right.
      apply IH. intros; apply Hb; [by right|done].
    + apply IH. intros; apply Hb; [by right|done].
Qed.

Lemma reached_stops (σ : World) (before after : list WsId) (w : WsId) :
  is_open σ w = true → sendRaises (socket_of σ w) = true →
  (∀ v, v ∈ before → is_open σ v = true → writable σ v) →
  reached σ (before ++ w :: after) = (filter (λ v, is_open σ v = true) before, false).
Proof.
  intros Hopen Hr. induction before as [|v rest IH]; intros Hb; cbn [app reached].
  - by rewrite Hopen, Hr.
  - rewrite IH by (intros; apply Hb; [by right|done]).
    rewrite filter_cons. destruct (is_open σ v) eqn:Hv.
    + rewrite (Hb v) by (done || by left). by rewrite decide_True.
    + by rewrite decide_False.
Qed.

Lemma reached_only_open (σ : World) (members : list WsId) (w : WsId) :
  w ∈ (reached σ members).1 → w ∈ members ∧ is_open σ w = true.
Proof.
  induction members as [|v rest IH]; cbn [reached]; [by intros ?%elem_of_nil|].
  destruct (is_open σ v) eqn:Hv.
  - destruct (sendRaises (socket_of σ v)); cbn; [by intros ?%elem_of_nil|].
    intros [->|Hin]%elem_of_cons; [split; [by left|done]|].
    destruct (IH Hin). split; [by right|done].
  - intros Hin. destruct (IH Hin). split; [by right|done].
Qed.

(** ** [broadcastToChannel] *)

Section Broadcast.
Context `{!JsRuntime}.

Lemma Index_broadcast_run (σ : World) (channel : string) (obj : json)
    (members : list WsId) :
  rooms σ !! channel = Some members →
  run (Index.broadcastToChannel channel obj) σ =
  ((if (reached σ members).2 then Ok () else Thrown "send failed"),
   set_trace (trace σ ++ ESerialize obj ::
                ((λ w, ESend w (JSON_stringify obj)) <$> (reached σ members).1)) σ).
Proof.
  intros Hroom. unfold Index.broadcastToChannel. rewrite run_bind. cbn [gets run].
  rewrite Hroom. unfold stringify. rewrite !run_bind. cbn [emit modify run mret M_ret].
  rewrite (for_of_reached (JSON_stringify obj))
    by (intros w s; rewrite run_bind; cbn [gets run]; unfold is_open, OPEN;
        by destruct (Z.eqb _ _)).
  rewrite reached_set_trace. cbn [trace set_trace].
  by rewrite set_trace_twice, <- app_assoc.
Qed.

Lemma Server_broadcast_run (σ : World) (channel : string) (obj : json)
    (members : list WsId) :
  rooms σ !! channel = Some members →
  run (Server.broadcastToChannel channel obj) σ =
  ((if (reached σ members).2 then Ok () else Thrown "send failed"),
   set_trace (trace σ ++ ESerialize obj ::
                ((λ w, ESend w (JSON_stringify obj)) <$> (reached σ members).1)) σ).
Proof.
  intros Hroom. unfold Server.broadcastToChannel. rewrite run_bind. cbn [gets run].
  rewrite Hroom. unfold stringify. rewrite !run_bind. cbn [emit modify run mret M_ret].
  rewrite (for_of_reached (JSON_stringify obj))
    by (intros w s; rewrite run_bind; cbn [gets run]; unfold is_open, OPEN;
        by destruct (Z.eqb _ _)).
  rewrite reached_set_trace. cbn [trace set_trace].
  by rewrite set_trace_twice, <- app_assoc.
Qed.

Lemma Index_broadcast_no_room (σ : World) (channel : string) (obj : json) :
  rooms σ !! channel = None →
  run (Index.broadcastToChannel channel obj) σ = (Ok (), σ).
Proof.
  intros Hroom. unfold Index.broadcastToChannel. rewrite run_bind. cbn [gets run].
  by rewrite Hroom.
Qed.

End Broadcast.

(** ** Broadcast fan-out *)

(** C3. A call of [broadcastToChannel] on a channel that has a room
    serializes the event once, before the loop, then hands that one
    string to every member whose [readyState] is open, in iteration
    order; the other members are passed over, the call returns normally
    and only the trace changes, so the set keeps all its members. This
    holds for [src/index.js] and [src/server.js] alike, as long as the
    transport takes the writes. *)
Theorem broadcast_serializes_once_for_open_members `{!JsRuntime}
    (σ : World) (channel : string) (obj : json) (members : list WsId) :
  rooms σ !! channel = Some members →
  (∀ w, w ∈ members → is_open σ w = true → writable σ w) →
  let sends := (λ w, ESend w (JSON_stringify obj)) <$>
                 filter (λ w, is_open σ w = true) members in
  run (Index.broadcastToChannel channel obj) σ
    = (Ok (), set_trace (trace σ ++ ESerialize obj :: sends) σ) ∧
  run (Server.broadcastToChannel channel obj) σ
    = (Ok (), set_trace (trace σ ++ ESerialize obj :: sends) σ) ∧
  rooms (set_trace (trace σ ++ ESerialize obj :: sends) σ) !! channel = Some members.
Proof.
  intros Hroom Hw sends.
  rewrite (Index_broadcast_run _ _ _ _ Hroom), (Server_broadcast_run _ _ _ _ Hroom).
  rewrite (reached_all_writable _ _ Hw). cbn [fst snd].
  split; [done|]. split; [done|]. exact Hroom.
Qed.

Lemma broadcast_serializes_once_for_open_members_witness :
  let σ := room_of_two false in
  rooms σ !! "7.050" = Some [1%nat; 2%nat] ∧
  (∀ w, w ∈ [1%nat; 2%nat] → is_open σ w = true → writable σ w) ∧
  run (Index.broadcastToChannel "7.050" (kind_frame "message")) σ
    = (Ok (), set_trace [ESerialize (kind_frame "message");
                         ESend 1%nat "message"; ESend 2%nat "message"] σ).
Proof.
  assert (∀ w, w ∈ [1%nat; 2%nat] → is_open (room_of_two false) w = true →
               writable (room_of_two false) w) as Hall.
  { intros w Hin _.
    apply elem_of_cons in Hin as [->|Hin]; [reflexivity|].
    apply elem_of_cons in Hin as [->|Hin]; [reflexivity|].
    by apply elem_of_nil in Hin. }
  cbn zeta. split; [reflexivity|]. split; [exact Hall|].
  exact (proj1 (@broadcast_serializes_once_for_open_members kind_runtime
                  (room_of_two false) "7.050" (kind_frame "message")
                  [1%nat; 2%nat] (eq_refl _) Hall)).
Defined.

(** C6, as the code has it. Take a member [w] of the room, open, and
    suppose the writes to the open members before it go through; members
    that are not open, wherever they stand, are passed over and stop
    nothing. Both servers do the same, and: if the write to [w] goes
    through, [w] receives the event; if it throws, nothing catches the
    exception, it leaves [broadcastToChannel], and no member other than
    those before [w] receives the event. *)
Theorem fan_out_reaches_member_unless_a_write_throws `{!JsRuntime}
    (σ : World) (channel : string) (obj : json)
    (before after : list WsId) (w : WsId) :
  rooms σ !! channel = Some (before ++ w :: after) →
  is_open σ w = true →
  (∀ v, v ∈ before → is_open σ v = true → writable σ v) →
  let result := run (Index.broadcastToChannel channel obj) σ in
  let es := new_effects σ result.2 in
  run (Server.broadcastToChannel channel obj) σ = result ∧
  (writable σ w → receives w (JSON_stringify obj) es) ∧
  (¬ writable σ w →
   result.1 = Thrown "send failed" ∧
   ∀ v, v ∉ before → ¬ receives v (JSON_stringify obj) es).
Proof.
  intros Hroom Hopen Hb result es. subst es result.
  rewrite (Index_broadcast_run _ _ _ _ Hroom), (Server_broadcast_run _ _ _ _ Hroom).
  unfold new_effects, receives. cbn [fst snd trace set_trace].
  rewrite drop_app_length.
  split; [done|]. split.
  - intros Hw. right. apply list_elem_of_fmap. exists w. split; [done|].
    by apply reached_member.
  - intros Hw. apply not_false_iff_true in Hw.
    rewrite (reached_stops _ _ _ _ Hopen Hw Hb). cbn [fst snd].
    split; [done|]. intros v Hv Hin.
    apply elem_of_cons in Hin as [Heq|Hin]; [discriminate|].
    apply list_elem_of_fmap in Hin as (v' & [= ->] & Hin).
    apply list_elem_of_filter in Hin as [_ Hin]. by apply Hv.
Qed.

Lemma fan_out_reaches_member_unless_a_write_throws_witness :
  let σ := room_of_two false in
  rooms σ !! "7.050" = Some ([1%nat] ++ 2%nat :: []) ∧
  is_open σ 2%nat = true ∧
  (∀ v, v ∈ [1%nat] → is_open σ v = true → writable σ v) ∧
  (writable σ 2%nat →
   receives 2%nat "message"
     (new_effects σ
        (run (Index.broadcastToChannel "7.050" (kind_frame "message")) σ).2)).
Proof.
  assert (∀ v, v ∈ [1%nat] → is_open (room_of_two false) v = true →
               writable (room_of_two false) v) as Hbefore.
  { intros v Hin _.
    apply elem_of_cons in Hin as [->|Hin]; [reflexivity|].
    by apply elem_of_nil in Hin. }
  cbn zeta. split; [reflexivity|]. split; [reflexivity|]. split; [exact Hbefore|].
  exact (proj1 (proj2 (@fan_out_reaches_member_unless_a_write_throws kind_runtime
                         (room_of_two false) "7.050" (kind_frame "message")
                         [1%nat] [] 2%nat (eq_refl _) (eq_refl true) Hbefore))).
Defined.

(** C6 as stated fails: with the write to the first member throwing, the
    second member, open and writable, is left without the event, and the
    call ends with the exception. *)
Lemma fan_out_aborted_by_throwing_send :
  let σ := room_of_two true in
  let r := run (Index.broadcastToChannel "7.050" (kind_frame "message")) σ in
  rooms σ !! "7.050" = Some [1%nat; 2%nat] ∧
  is_open σ 2%nat = true ∧ writable σ 2%nat ∧
  r.1 = Thrown "send failed" ∧
  ¬ receives 2%nat (JSON_stringify (kind_frame "message")) (new_effects σ r.2).
Proof.
  cbn zeta. repeat split.
  intros Hin. vm_compute in Hin.
  apply elem_of_cons in Hin as [Heq|Hin]; [discriminate|].
  by apply elem_of_nil in Hin.
Qed.

(** ** What closes a socket *)

Lemma keeps_closes_emit (e : Effect) : is_close e = false → keeps closes (emit e).
Proof.
  intros He σ. unfold closes. cbn. rewrite filter_app, filter_cons.
  rewrite decide_False by (by rewrite He). by rewrite filter_nil, app_nil_r.
Qed.

Lemma keeps_closes_query (stmt : Sql) : keeps closes (query stmt).
Proof.
  intros σ. rewrite run_query.
  pose proof (keeps_closes_emit (EQuery stmt) eq_refl σ) as He.
  by destruct (dbUp σ).
Qed.

Lemma keeps_closes_ws_ping (ws : WsId) : keeps closes (ws_ping ws).
Proof.
  intros σ. unfold ws_ping. rewrite run_bind. cbn [run gets].
  pose proof (keeps_closes_emit (EPing ws) eq_refl σ) as He.
  by repeat case_match.
Qed.

Lemma keeps_closes_ws_send (ws : WsId) (data : string) : keeps closes (ws_send ws data).
Proof.
  intros σ. unfold ws_send. rewrite run_bind. cbn [run gets].
  pose proof (keeps_closes_emit (ESend ws data) eq_refl σ) as He.
  by repeat case_match.
Qed.

Lemma keeps_closes_stringify `{!JsRuntime} (obj : json) : keeps closes (stringify obj).
Proof. intros σ. rewrite run_stringify. apply (keeps_closes_emit (ESerialize obj) eq_refl). Qed.

(** A run that closes nothing is no rejection. *)
Lemma closes_nothing_not_rejected (ws : WsId) (σ σ' : World) :
  closes σ' = closes σ → ¬ rejected ws σ σ'.
Proof.
  intros Hc (_ & _ & Hem). unfold closes, emitted in *.
  rewrite Hem, filter_app, filter_cons, decide_True, filter_nil in Hc by done.
  apply (f_equal length) in Hc. rewrite length_app in Hc. cbn in Hc. lia.
Qed.

Lemma ws_send_appends (ws : WsId) (data : string) (σ : World) :
  ∃ es, trace (run (ws_send ws data) σ).2 = trace σ ++ es.
Proof.
  unfold ws_send. rewrite run_bind. cbn [run gets].
  repeat case_match; cbn; first [by exists [] ; rewrite app_nil_r | by eexists].
Qed.

(** ** The connection handshake *)

Lemma truthy_empty_iff (s : string) : truthy s = false ↔ s = "".
Proof.
  unfold truthy. destruct (String.eqb_spec s ""); cbn; split; congruence.
Qed.

Lemma truthy_nonempty (s : string) : s ≠ "" → truthy s = true.
Proof.
  intros Hs. destruct (truthy s) eqn:Ht; [done|]. by apply truthy_empty_iff in Ht.
Qed.

Lemma or_else_missing (p : option string) (d : string) :
  missing p → or_else p d = d.
Proof. by intros [->| ->]. Qed.

Lemma or_else_truthy (p : option string) (d : string) :
  truthy d = true → truthy (or_else p d) = true.
Proof.
  intros Hd. destruct p as [s|]; cbn; [|done].
  by destruct (truthy s) eqn:Hs.
Qed.

Lemma ws_close_rejected (ws : WsId) (σ : World) :
  (run (ws_close ws) σ).1 = Ok () ∧ rejected ws σ (run (ws_close ws) σ).2.
Proof. by repeat split. Qed.

Lemma emitted_assoc3 (σ σ' : World) (a b c : Effect) :
  trace σ' = ((trace σ ++ [a]) ++ [b]) ++ [c] → emitted σ σ' [a; b; c].
Proof. intros Ht. unfold emitted. by rewrite Ht, <- !app_assoc. Qed.

Section Handshake.
Context `{!JsRuntime}.

(** The default channel of [src/server.js] is never empty. *)
Lemma DEFAULT_CHANNEL_truthy : truthy Server.DEFAULT_CHANNEL = true.
Proof. by apply or_else_truthy. Qed.

Lemma Server_connection_guard (ws : WsId) (req : Request) (σ : World) :
  norm (param_callsign req) = "" →
  run (Server.connection ws req) σ = run (ws_close ws) σ.
Proof.
  intros Hcs. unfold Server.connection, try_catch. cbn [run].
  rewrite Hcs. reflexivity.
Qed.

Lemma Part000_connection_guard (ws : WsId) (req : Request) (σ : World) :
  norm (param_callsign req) = "" ∨ missing (param_channel req) →
  run (Part000.connection ws req) σ = run (ws_close ws) σ.
Proof.
  intros Hbad. unfold Part000.connection, try_catch. cbn [run].
  destruct Hbad as [Hcs|Hch].
  - rewrite Hcs. reflexivity.
  - rewrite (or_else_missing _ _ Hch). cbn. by rewrite orb_true_r.
Qed.

Lemma run_joinRoom (channel : string) (ws : WsId) (σ : World) :
  run (Index.joinRoom channel ws) σ
  = (Ok (), set_rooms (joined_rooms channel ws (rooms σ)) σ).
Proof. unfold Index.joinRoom. mrun. by join_inline σ channel Hroom. Qed.

(** [src/index.js] with no identity: the socket joins the room of its
    channel and nothing else happens. *)
Lemma Index_connection_anonymous (ws : WsId) (req : Request) (σ : World) :
  norm (param_callsign req) = "" →
  let channel := or_else (param_channel req) "7.050" in
  run (Index.connection ws req) σ
  = (Ok (), update_socket ws
              (with_handlers {| cl_channel := channel; cl_callsign := "" |})
              (set_rooms (joined_rooms channel ws (rooms σ))
                 (update_socket ws (with_identity channel "") σ))).
Proof.
  intros Hcs channel. unfold Index.connection. fold channel.
  change (toUpperCase (trim (or_else (param_callsign req) "")))
    with (norm (param_callsign req)).
  rewrite Hcs. mrun. rewrite run_joinRoom. by mrun.
Qed.

(** The joined run of [src/server.js]: store up, socket open and taking
    the write. *)
Lemma Server_connection_joined (ws : WsId) (req : Request) (σ : World) :
  let callsign := norm (param_callsign req) in
  let channel := or_else (param_channel req) Server.DEFAULT_CHANNEL in
  callsign ≠ "" → dbUp σ = true → is_open σ ws = true → writable σ ws →
  ∃ σ', run (Server.connection ws req) σ = (Ok (), σ') ∧
    emitted σ σ' [EQuery (UpsertStation callsign channel);
                  ESerialize (hello_event callsign channel);
                  ESend ws (JSON_stringify (hello_event callsign channel))] ∧
    rooms σ' = joined_rooms channel ws (rooms σ) ∧
    stations σ' = apply_sql (UpsertStation callsign channel) (clock σ) (stations σ).
Proof.
  intros callsign channel Hcs Hup Hopen Hw.
  unfold Server.connection, try_catch. cbn [run]. fold callsign. fold channel.
  rewrite (truthy_nonempty _ Hcs).
  rewrite (or_else_truthy _ _ DEFAULT_CHANNEL_truthy : truthy channel = true).
  cbn [negb orb]. mrun.
  join_inline σ channel Hroom.
  all: rewrite run_query; mrun; rewrite Hup; mrun.
  all: rewrite run_ws_send_open; mrun.
  all: try (rewrite !is_open_update by done; by mrun).
  all: try (rewrite !writable_update by done; by mrun).
  all: eexists; split; [reflexivity|]; split; [apply emitted_assoc3; by mrun|by mrun].
Qed.

Lemma Part000_connection_joined (ws : WsId) (req : Request) (σ : World) :
  let callsign := norm (param_callsign req) in
  let channel := or_else (param_channel req) "" in
  callsign ≠ "" → channel ≠ "" →
  dbUp σ = true → is_open σ ws = true → writable σ ws →
  ∃ σ', run (Part000.connection ws req) σ = (Ok (), σ') ∧
    emitted σ σ' [EQuery (UpsertStation callsign channel);
                  ESerialize (hello_event callsign channel);
                  ESend ws (JSON_stringify (hello_event callsign channel))] ∧
    rooms σ' = joined_rooms channel ws (rooms σ) ∧
    stations σ' = apply_sql (UpsertStation callsign channel) (clock σ) (stations σ).
Proof.
  intros callsign channel Hcs Hch Hup Hopen Hw.
  unfold Part000.connection, try_catch. cbn [run]. fold callsign. fold channel.
  rewrite (truthy_nonempty _ Hcs), (truthy_nonempty _ Hch).
  cbn [negb orb]. mrun.
  join_inline σ channel Hroom.
  all: rewrite run_query; mrun; rewrite Hup; mrun.
  all: rewrite run_ws_send_open; mrun.
  all: try (rewrite !is_open_update by done; by mrun).
  all: try (rewrite !writable_update by done; by mrun).
  all: eexists; split; [reflexivity|]; split; [apply emitted_assoc3; by mrun|by mrun].
Qed.

(** The joined run of [src/index.js] for a request with an identity:
    the upsert, then a [presence] event broadcast to the room the socket
    has just entered. *)
Lemma Index_connection_presence (ws : WsId) (req : Request) (σ : World) :
  let callsign := norm (param_callsign req) in
  let channel := or_else (param_channel req) "7.050" in
  let members := set_add ws (default [] (rooms σ !! channel)) in
  callsign ≠ "" → dbUp σ = true →
  (∀ w, is_open σ w = true → writable σ w) →
  ∃ σ', run (Index.connection ws req) σ = (Ok (), σ') ∧
    rooms σ' !! channel = Some members ∧
    emitted σ σ'
      (EQuery (UpsertStation callsign channel)
       :: ESerialize (presence_event callsign channel)
       :: ((λ w, ESend w (JSON_stringify (presence_event callsign channel)))
             <$> filter (λ w, is_open σ w = true) members)).
Proof.
  intros callsign channel members Hcs Hup Hw.
  unfold Index.connection. fold channel.
  change (toUpperCase (trim (or_else (param_callsign req) "")))
    with callsign.
  rewrite (truthy_nonempty _ Hcs). mrun. rewrite run_joinRoom. mrun.
  rewrite run_query. mrun. rewrite Hup. mrun.
  set (σ2 := set_stations _ _).
  assert (rooms σ2 !! channel = Some members) as Hroom
    by (subst σ2; cbn; apply lookup_insert_eq).
  assert (∀ w, is_open σ2 w = is_open σ w) as Hopen2.
  { intros w. subst σ2. autorewrite with world. by apply is_open_update. }
  assert (∀ w, writable σ2 w ↔ writable σ w) as Hw2.
  { intros w. subst σ2. autorewrite with world. by apply writable_update. }
  rewrite (Index_broadcast_run _ _ _ _ Hroom).
  rewrite reached_all_writable
    by (intros w _ Ho; apply Hw2, Hw; by rewrite <- Hopen2).
  mrun. eexists. split; [reflexivity|].
  split; [subst σ2; by mrun|].
  unfold emitted. subst σ2. mrun. rewrite <- app_assoc. cbn [app].
  rewrite (list_filter_iff _ (λ w, is_open σ w = true)); [done|].
  intros w. by rewrite Hopen2.
Qed.

Lemma keeps_rooms_Index_broadcast (channel : string) (obj : json) :
  keeps rooms (Index.broadcastToChannel channel obj).
Proof. unfold Index.broadcastToChannel. eauto 10 with keeps. Qed.

Lemma Index_connection_rooms (ws : WsId) (req : Request) (σ : World) :
  rooms (run (Index.connection ws req) σ).2
  = joined_rooms (or_else (param_channel req) "7.050") ws (rooms σ).
Proof.
  unfold Index.connection. rewrite run_bind. cbn [run modify].
  rewrite (keeps_after rooms _ _ () _ _ (run_joinRoom _ _ _)); [done|].
  pose proof keeps_rooms_Index_broadcast. eauto 10 with keeps.
Qed.

Lemma Server_connection_rooms (ws : WsId) (req : Request) (σ : World) :
  norm (param_callsign req) ≠ "" →
  rooms (run (Server.connection ws req) σ).2
  = joined_rooms (or_else (param_channel req) Server.DEFAULT_CHANNEL) ws (rooms σ).
Proof.
  intros Hcs. unfold Server.connection.
  rewrite try_catch_keeps by eauto with keeps.
  rewrite (truthy_nonempty _ Hcs).
  rewrite (or_else_truthy _ _ DEFAULT_CHANNEL_truthy).
  cbn [negb orb].
  set (channel := or_else _ _).
  set (rest := modify (update_socket ws (with_identity _ _)) ≫= _).
  assert (keeps rooms rest) as Hrest by (subst rest; eauto 15 with keeps).
  mrun. join_inline σ channel Hroom.
  all: by rewrite Hrest.
Qed.
(** With an identity, the first thing [src/server.js] emits is the
    presence upsert, whatever happens next. *)
Lemma Server_connection_upsert_first (ws : WsId) (req : Request) (σ : World) :
  norm (param_callsign req) ≠ "" →
  ∃ es, trace (run (Server.connection ws req) σ).2
        = trace σ ++ EQuery (UpsertStation (norm (param_callsign req))
                               (or_else (param_channel req) Server.DEFAULT_CHANNEL))
                     :: es.
Proof.
  intros Hcs. unfold Server.connection, try_catch. cbn [run].
  rewrite (truthy_nonempty _ Hcs).
  rewrite (or_else_truthy _ _ DEFAULT_CHANNEL_truthy).
  cbn [negb orb]. mrun.
  set (channel := or_else _ _).
  join_inline σ channel Hroom.
  all: rewrite run_query; mrun; destruct (dbUp σ); mrun.
  all: try (unfold ws_close; mrun; exists [EClose ws]; by rewrite <- app_assoc).
  all: match goal with |- context [run (ws_send ?w ?d) ?s] =>
         destruct (ws_send_appends w d s) as [es Hes];
         destruct (run (ws_send w d) s) as [[[]|e] σ3]
       end; cbn [snd] in Hes; unfold ws_close; mrun; rewrite Hes; mrun.
  all: rewrite <- !app_assoc; cbn [app]; by eexists.
Qed.

Lemma Server_identity_not_rejected (ws : WsId) (req : Request) (σ : World) :
  norm (param_callsign req) ≠ "" →
  ¬ rejected ws σ (run (Server.connection ws req) σ).2.
Proof.
  intros Hcs (_ & _ & Hem).
  destruct (Server_connection_upsert_first ws req σ Hcs) as [es Hes].
  unfold emitted in Hem. rewrite Hes in Hem.
  apply app_inv_head in Hem. discriminate.
Qed.

(** [src/index.js] closes nothing at connect time. *)
Lemma Index_connection_closes_nothing (ws : WsId) (req : Request) :
  keeps closes (Index.connection ws req).
Proof.
  unfold Index.connection.
  apply keeps_bind; [by apply keeps_modify|intros _].
  apply keeps_bind; [intros σ; by rewrite run_joinRoom|intros _].
  apply keeps_bind; [|intros _; by apply keeps_modify].
  apply keeps_if; [|apply keeps_ret].
  apply keeps_bind; [apply keeps_closes_query|intros _].
  unfold Index.broadcastToChannel.
  apply keeps_bind; [apply keeps_gets|intros [members|]]; [|apply keeps_ret].
  apply keeps_bind; [apply keeps_closes_stringify|intros data].
  apply keeps_for_of. intros w.
  apply keeps_bind; [apply keeps_gets|intros opened].
  apply keeps_if; [apply keeps_closes_ws_send|apply keeps_ret].
Qed.

End Handshake.

(** C1, as the code has it. A request whose callsign is missing or empty
    once trimmed and upper-cased is turned away by [src/server.js] and by
    the earlier server: the socket is closed, no room changes and no
    statement is sent to the store. [src/index.js] turns nobody away: it
    sends nothing to the store and emits nothing for such a request, and
    the socket becomes a member of the room of its channel. The channel
    that the guard of [src/server.js] tests is never empty, the default
    having taken the place of a missing one: there the identity alone
    decides. *)
Theorem handshake_without_identity `{!JsRuntime}
    (ws : WsId) (req : Request) (σ : World) :
  norm (param_callsign req) = "" →
  ((run (Server.connection ws req) σ).1 = Ok () ∧
   rejected ws σ (run (Server.connection ws req) σ).2) ∧
  ((run (Part000.connection ws req) σ).1 = Ok () ∧
   rejected ws σ (run (Part000.connection ws req) σ).2) ∧
  (let σ' := (run (Index.connection ws req) σ).2 in
   stations σ' = stations σ ∧ emitted σ σ' [] ∧
   joined ws (or_else (param_channel req) "7.050") σ') ∧
  truthy (or_else (param_channel req) Server.DEFAULT_CHANNEL) = true.
Proof.
  intros Hcs. split; [|split; [|split]].
  - rewrite (Server_connection_guard _ _ _ Hcs). apply ws_close_rejected.
  - rewrite Part000_connection_guard by (by left). apply ws_close_rejected.
  - rewrite (Index_connection_anonymous _ _ _ Hcs). cbn [snd].
    split; [done|]. split.
    + unfold emitted. autorewrite with world. cbn. by rewrite app_nil_r.
    + by eapply joined_rooms_joined.
  - apply or_else_truthy, DEFAULT_CHANNEL_truthy.
Qed.

Lemma handshake_without_identity_witness :
  norm (param_callsign (anonymous_on (Some "7.050"))) = "" ∧
  rejected 1%nat one_accepted
    (run (Server.connection 1%nat (anonymous_on (Some "7.050"))) one_accepted).2.
Proof.
  split; [reflexivity|].
  exact (proj2 (proj1 (handshake_without_identity 1%nat (anonymous_on (Some "7.050"))
                         one_accepted eq_refl))).
Defined.

(** The earlier server also turns away a request without a channel. *)
Lemma Part000_rejects_missing_channel `{!JsRuntime}
    (ws : WsId) (req : Request) (σ : World) :
  missing (param_channel req) →
  rejected ws σ (run (Part000.connection ws req) σ).2.
Proof.
  intros Hch. rewrite Part000_connection_guard by (by right). apply ws_close_rejected.
Qed.

(** C1 as stated fails twice. With a callsign and no channel,
    [src/server.js] lets the socket into the room of the default channel
    and writes to the store; with a channel and no callsign,
    [src/index.js] lets the socket into the room. *)
Lemma missing_parameter_not_always_rejected :
  (missing (param_channel (k1abc_on None)) ∧
   ¬ rejected 1%nat one_accepted
       (run (Server.connection 1%nat (k1abc_on None)) one_accepted).2) ∧
  (missing (param_callsign (anonymous_on (Some "7.050"))) ∧
   ¬ rejected 1%nat one_accepted
       (run (Index.connection 1%nat (anonymous_on (Some "7.050"))) one_accepted).2).
Proof.
  split; (split; [by left|]).
  - intros (Hrooms & _ & _).
    apply (f_equal (λ r : gmap string (list WsId), r !! "7.050")) in Hrooms.
    vm_compute in Hrooms. discriminate.
  - intros (Hrooms & _ & _).
    apply (f_equal (λ r : gmap string (list WsId), r !! "7.050")) in Hrooms.
    vm_compute in Hrooms. discriminate.
Qed.

(** C10. A request that leaves the channel out, or gives the empty
    string, is handled exactly as the same request on channel "7.050":
    always by [src/index.js], and by [src/server.js] whenever the
    environment does not override the default channel. It is not turned
    away for that: [src/index.js] adds the socket to the room of "7.050"
    and turns nothing away; [src/server.js] adds the socket to the room
    of "7.050" and does not turn it away as soon as the request has an
    identity. *)
Theorem missing_channel_takes_default `{!JsRuntime}
    (ws : WsId) (req : Request) (σ : World) :
  missing (param_channel req) →
  Server.DEFAULT_CHANNEL = "7.050" →
  let req' := {| param_callsign := param_callsign req;
                 param_channel := Some "7.050" |} in
  (run (Index.connection ws req) σ = run (Index.connection ws req') σ ∧
   joined ws "7.050" (run (Index.connection ws req) σ).2 ∧
   ¬ rejected ws σ (run (Index.connection ws req) σ).2) ∧
  (run (Server.connection ws req) σ = run (Server.connection ws req') σ ∧
   (norm (param_callsign req) ≠ "" →
    joined ws "7.050" (run (Server.connection ws req) σ).2 ∧
    ¬ rejected ws σ (run (Server.connection ws req) σ).2)).
Proof.
  intros Hmiss Hdefault req'. split; [split; [|split]|split].
  - unfold Index.connection. by rewrite (or_else_missing _ _ Hmiss).
  - eapply joined_rooms_joined. rewrite Index_connection_rooms.
    by rewrite (or_else_missing _ _ Hmiss).
  - apply closes_nothing_not_rejected, Index_connection_closes_nothing.
  - unfold Server.connection.
    by rewrite (or_else_missing _ _ Hmiss), Hdefault.
  - intros Hcs. split.
    + eapply joined_rooms_joined.
      rewrite (Server_connection_rooms _ _ _ Hcs).
      by rewrite (or_else_missing _ _ Hmiss), Hdefault.
    + by apply Server_identity_not_rejected.
Qed.

Lemma missing_channel_takes_default_witness :
  missing (param_channel (k1abc_on None)) ∧
  Server.DEFAULT_CHANNEL = "7.050" ∧
  joined 1%nat "7.050"
    (run (Server.connection 1%nat (k1abc_on None)) one_accepted).2.
Proof.
  split; [by left|]. split; [reflexivity|].
  exact (proj1 (proj2 (proj2 (@missing_channel_takes_default kind_runtime 1%nat
                                (k1abc_on None) one_accepted
                                (or_introl (eq_refl None)) (eq_refl "7.050")))
                  ltac:(discriminate))).
Defined.

(** C7, as the code has it. In [src/server.js] and in the earlier server
    a request with an identity (and, in the earlier server, a channel)
    that goes through -- store up, socket open and taking the write --
    makes the server emit exactly: the presence upsert, the
    serialization of the [hello] event carrying the callsign and the
    channel, and one send of it, to the joining socket. [src/index.js]
    has no [hello]: after the upsert it serializes a [presence] event
    carrying the callsign and the channel and sends it to every open
    member of the room, the joining socket among them. *)
Theorem hello_goes_to_joiner_only `{!JsRuntime}
    (ws : WsId) (req : Request) (σ : World) :
  norm (param_callsign req) ≠ "" →
  dbUp σ = true →
  is_open σ ws = true →
  writable σ ws →
  let callsign := norm (param_callsign req) in
  (let channel := or_else (param_channel req) Server.DEFAULT_CHANNEL in
   ∃ σ', run (Server.connection ws req) σ = (Ok (), σ') ∧
     joined ws channel σ' ∧
     emitted σ σ' [EQuery (UpsertStation callsign channel);
                   ESerialize (hello_event callsign channel);
                   ESend ws (JSON_stringify (hello_event callsign channel))]) ∧
  (let channel := or_else (param_channel req) "" in
   channel ≠ "" →
   ∃ σ', run (Part000.connection ws req) σ = (Ok (), σ') ∧
     joined ws channel σ' ∧
     emitted σ σ' [EQuery (UpsertStation callsign channel);
                   ESerialize (hello_event callsign channel);
                   ESend ws (JSON_stringify (hello_event callsign channel))]) ∧
  (let channel := or_else (param_channel req) "7.050" in
   let members := set_add ws (default [] (rooms σ !! channel)) in
   (∀ w, is_open σ w = true → writable σ w) →
   ∃ σ', run (Index.connection ws req) σ = (Ok (), σ') ∧
     rooms σ' !! channel = Some members ∧
     emitted σ σ'
       (EQuery (UpsertStation callsign channel)
        :: ESerialize (presence_event callsign channel)
        :: ((λ w, ESend w (JSON_stringify (presence_event callsign channel)))
              <$> filter (λ w, is_open σ w = true) members))).
Proof.
  intros Hcs Hup Hopen Hw callsign. split; [|split].
  - intros channel.
    destruct (Server_connection_joined ws req σ Hcs Hup Hopen Hw)
      as (σ' & Hrun & Hem & Hrooms & _).
    exists σ'. split; [done|]. split; [by eapply joined_rooms_joined|done].
  - intros channel Hch.
    destruct (Part000_connection_joined ws req σ Hcs Hch Hup Hopen Hw)
      as (σ' & Hrun & Hem & Hrooms & _).
    exists σ'. split; [done|]. split; [by eapply joined_rooms_joined|done].
  - intros channel members Hall.
    exact (Index_connection_presence ws req σ Hcs Hup Hall).
Qed.

Lemma hello_goes_to_joiner_only_witness :
  norm (param_callsign (k1abc_on (Some "7.050"))) ≠ "" ∧
  dbUp one_accepted = true ∧
  is_open one_accepted 1%nat = true ∧
  writable one_accepted 1%nat ∧
  ∃ σ', run (Server.connection 1%nat (k1abc_on (Some "7.050"))) one_accepted
        = (Ok (), σ') ∧
    joined 1%nat "7.050" σ' ∧
    emitted one_accepted σ'
      [EQuery (UpsertStation "K1ABC" "7.050");
       ESerialize (hello_event "K1ABC" "7.050");
       ESend 1%nat "hello"].
Proof.
  split; [discriminate|]. split; [reflexivity|]. split; [reflexivity|].
  split; [reflexivity|].
  exact (proj1 (@hello_goes_to_joiner_only kind_runtime 1%nat
                  (k1abc_on (Some "7.050")) one_accepted
                  ltac:(discriminate) (eq_refl true) (eq_refl true) (eq_refl false))).
Defined.

(** C7 as stated fails on [src/index.js]: a request with identity
    "K1ABC" on "7.050" joins, and all the server emits is the upsert and
    a [presence] event broadcast to the room; no [hello] is serialized
    or sent. *)
Lemma index_join_sends_no_hello :
  let r := run (Index.connection 1%nat (k1abc_on (Some "7.050"))) one_accepted in
  r.1 = Ok () ∧
  joined 1%nat "7.050" r.2 ∧
  new_effects one_accepted r.2
    = [EQuery (UpsertStation "K1ABC" "7.050");
       ESerialize (presence_event "K1ABC" "7.050");
       ESend 1%nat "presence"] ∧
  ¬ receives 1%nat (JSON_stringify (hello_event "K1ABC" "7.050"))
      (new_effects one_accepted r.2).
Proof.
  cbn zeta. split; [reflexivity|]. split.
  - exists [1%nat]. split; [reflexivity|]. by left.
  - split; [reflexivity|].
    intros Hin. vm_compute in Hin.
    repeat (apply elem_of_cons in Hin as [Heq|Hin]; [discriminate|]).
    by apply elem_of_nil in Hin.
Qed.

(** ** Inbound frames ([src/index.js]) *)

(** C5, as the code has it. A parseable frame whose kind is not [ping]
    is serialized again, once, and handed to every open member of the
    sender's channel in iteration order, the sender included: nothing
    spares the connection the frame came from. *)
Theorem relay_reaches_every_open_member `{!JsRuntime}
    (cl : Closure) (A : WsId) (raw : string) (msg : json)
    (members : list WsId) (σ : World) :
  JSON_parse raw = Some msg →
  kind_is_ping msg = false →
  rooms σ !! cl_channel cl = Some members →
  (∀ w, w ∈ members → is_open σ w = true → writable σ w) →
  let sends := (λ w, ESend w (JSON_stringify msg)) <$>
                 filter (λ w, is_open σ w = true) members in
  run (Index.on_message cl A raw) σ
    = (Ok (), set_trace (trace σ ++ ESerialize msg :: sends) σ) ∧
  (∀ w, w ∈ members → is_open σ w = true →
        receives w (JSON_stringify msg) sends) ∧
  (A ∈ members → is_open σ A = true → receives A (JSON_stringify msg) sends).
Proof.
  intros Hparse Hkind Hroom Hw sends.
  assert (∀ w, w ∈ members → is_open σ w = true →
               receives w (JSON_stringify msg) sends) as Hall.
  { intros w Hin Hopen. unfold receives, sends.
    apply list_elem_of_fmap. exists w. split; [done|].
    by apply list_elem_of_filter. }
  split; [|split; [exact Hall|apply Hall]].
  unfold Index.on_message. rewrite Hparse, Hkind.
  rewrite (Index_broadcast_run _ _ _ _ Hroom).
  by rewrite (reached_all_writable _ _ Hw).
Qed.

Lemma relay_reaches_every_open_member_witness :
  JSON_parse "offer" = Some (kind_frame "offer") ∧
  kind_is_ping (kind_frame "offer") = false ∧
  rooms two_joined !! "7.050" = Some [1%nat; 2%nat] ∧
  (∀ w, w ∈ [1%nat; 2%nat] → is_open two_joined w = true → writable two_joined w) ∧
  run (Index.on_message {| cl_channel := "7.050"; cl_callsign := "K1ABC" |}
         1%nat "offer") two_joined
    = (Ok (), set_trace (trace two_joined ++
                           [ESerialize (kind_frame "offer");
                            ESend 1%nat "offer"; ESend 2%nat "offer"])
                two_joined).
Proof.
  assert (∀ w, w ∈ [1%nat; 2%nat] → is_open two_joined w = true →
               writable two_joined w) as Hall.
  { intros w Hin _.
    apply elem_of_cons in Hin as [->|Hin]; [reflexivity|].
    apply elem_of_cons in Hin as [->|Hin]; [reflexivity|].
    by apply elem_of_nil in Hin. }
  split; [reflexivity|]. split; [reflexivity|]. split; [reflexivity|].
  split; [exact Hall|].
  exact (proj1 (@relay_reaches_every_open_member kind_runtime
                  {| cl_channel := "7.050"; cl_callsign := "K1ABC" |}
                  1%nat "offer" (kind_frame "offer") [1%nat; 2%nat] two_joined
                  (eq_refl _) (eq_refl false) (eq_refl _) Hall)).
Defined.

(** C5 as stated fails: K1ABC and W1AW are joined to "7.050"; the frame
    of kind [offer] that K1ABC sends comes back to K1ABC, first of the
    two sends. *)
Lemma sender_receives_own_relay :
  let σ' := (run (Index.deliver (Incoming 1%nat "offer")) two_joined).2 in
  JSON_parse "offer" = Some (kind_frame "offer") ∧
  kind_is_ping (kind_frame "offer") = false ∧
  new_effects two_joined σ'
    = [ESerialize (kind_frame "offer"); ESend 1%nat "offer"; ESend 2%nat "offer"] ∧
  ¬ relayed_to_others 1%nat (JSON_stringify (kind_frame "offer")) two_joined
      [1%nat; 2%nat] (new_effects two_joined σ').
Proof.
  cbn zeta. split; [reflexivity|]. split; [reflexivity|]. split; [reflexivity|].
  intros [Hnot _]. apply Hnot. unfold receives.
  vm_compute. right. left.
Qed.




(** A connection that joined without an identity is answered as well;
    there is no record to refresh and the store is not asked. *)
Lemma ping_without_identity `{!JsRuntime}
    (cl : Closure) (ws : WsId) (raw : string) (msg : json) (σ : World) :
  JSON_parse raw = Some msg → kind_is_ping msg = true →
  cl_callsign cl = "" → is_open σ ws = true → writable σ ws →
  run (Index.on_message cl ws raw) σ
  = (Ok (), set_trace (trace σ ++ [ESerialize pong_event;
                                   ESend ws (JSON_stringify pong_event)]) σ).
Proof.
  intros Hparse Hkind Hcs Hopen Hw.
  unfold Index.on_message. rewrite Hparse, Hkind, Hcs.
  change (truthy "") with false. mrun.
  rewrite run_ws_send_open by (by mrun). mrun.
  by rewrite <- app_assoc.
Qed.

(** A frame that does not parse is dropped. *)
Lemma unparseable_frame_dropped `{!JsRuntime}
    (cl : Closure) (ws : WsId) (raw : string) (σ : World) :
  JSON_parse raw = None → run (Index.on_message cl ws raw) σ = (Ok (), σ).
Proof. intros Hparse. unfold Index.on_message. by rewrite Hparse. Qed.

(** ** Leaving a room *)

Section Leave.
Context `{!JsRuntime}.

(** [leaveRoom] of [src/index.js]: the member is taken out and the entry
    goes with it when it was the last one. *)
Lemma Index_leaveRoom_run (channel : string) (ws : WsId) (members : list WsId)
    (σ : World) :
  rooms σ !! channel = Some members →
  run (Index.leaveRoom channel ws) σ
  = (Ok (), set_rooms (if bool_decide (length (set_delete ws members) = 0%nat)
                       then delete channel (rooms σ)
                       else <[channel := set_delete ws members]> (rooms σ)) σ).
Proof.
  intros Hroom. unfold Index.leaveRoom. mrun. rewrite Hroom. mrun.
  case_bool_decide; mrun; [|done].
  by rewrite delete_insert_eq.
Qed.

(** After [leaveRoom] the map holds no empty set for the channel. *)
Lemma Index_leaveRoom_no_empty_room (channel : string) (ws : WsId) (σ : World) :
  rooms (run (Index.leaveRoom channel ws) σ).2 !! channel ≠ Some [].
Proof.
  destruct (rooms σ !! channel) as [members|] eqn:Hroom.
  - rewrite (Index_leaveRoom_run _ _ _ _ Hroom). cbn [snd rooms set_rooms].
    case_bool_decide as Hlen.
    + by rewrite lookup_delete_eq.
    + rewrite lookup_insert_eq. intros Heq. apply (inj Some) in Heq.
      by rewrite Heq in Hlen.
  - unfold Index.leaveRoom. mrun. rewrite Hroom. mrun. by rewrite Hroom.
Qed.

(** The last member leaving through [src/index.js] takes the entry away. *)
Lemma Index_leaveRoom_last_member (channel : string) (ws : WsId) (σ : World) :
  rooms σ !! channel = Some [ws] →
  rooms (run (Index.leaveRoom channel ws) σ).2 !! channel = None.
Proof.
  intros Hroom. rewrite (Index_leaveRoom_run _ _ _ _ Hroom).
  cbn [snd rooms set_rooms]. unfold set_delete.
  rewrite filter_cons, decide_False by (by intros ?; congruence).
  rewrite filter_nil. cbn. apply lookup_delete_eq.
Qed.

(** The close listener of [src/server.js] followed by
    [cleanupChannelIfEmpty]. *)
Lemma Server_on_close_run (cl : Closure) (ws : WsId) (members : list WsId)
    (σ : World) :
  rooms σ !! cl_channel cl = Some members →
  run (Server.on_close cl ws) σ
  = (Ok (), set_rooms (if bool_decide (length (set_delete ws members) = 0%nat)
                       then delete (cl_channel cl) (rooms σ)
                       else <[cl_channel cl := set_delete ws members]> (rooms σ))
              (update_socket ws (with_interval false) σ)).
Proof.
  intros Hroom. unfold Server.on_close, Server.cleanupChannelIfEmpty.
  mrun. rewrite Hroom. mrun. rewrite lookup_insert_eq.
  case_bool_decide; mrun; [|done].
  by rewrite delete_insert_eq.
Qed.

Lemma Server_on_close_no_empty_room (cl : Closure) (ws : WsId) (σ : World) :
  rooms (run (Server.on_close cl ws) σ).2 !! cl_channel cl ≠ Some [].
Proof.
  destruct (rooms σ !! cl_channel cl) as [members|] eqn:Hroom.
  - rewrite (Server_on_close_run _ _ _ _ Hroom). cbn [snd rooms set_rooms].
    case_bool_decide as Hlen.
    + by rewrite lookup_delete_eq.
    + rewrite lookup_insert_eq. intros Heq. apply (inj Some) in Heq.
      by rewrite Heq in Hlen.
  - unfold Server.on_close, Server.cleanupChannelIfEmpty.
    mrun. rewrite Hroom. mrun. rewrite Hroom. mrun. by rewrite Hroom.
Qed.

Lemma Server_on_close_last_member (cl : Closure) (ws : WsId) (σ : World) :
  rooms σ !! cl_channel cl = Some [ws] →
  rooms (run (Server.on_close cl ws) σ).2 !! cl_channel cl = None.
Proof.
  intros Hroom. rewrite (Server_on_close_run _ _ _ _ Hroom).
  cbn [snd rooms set_rooms]. unfold set_delete.
  rewrite filter_cons, decide_False by (by intros ?; congruence).
  rewrite filter_nil. cbn. apply lookup_delete_eq.
Qed.

(** The close listener of the earlier server only takes the member out:
    the last member leaves an empty set behind, for every world. *)
Lemma Part000_on_close_last_member (cl : Closure) (ws : WsId) (σ : World) :
  rooms σ !! cl_channel cl = Some [ws] →
  rooms (run (Part000.on_close cl ws) σ).2 !! cl_channel cl = Some [].
Proof.
  intros Hroom. unfold Part000.on_close. mrun. rewrite Hroom. mrun.
  rewrite lookup_insert_eq. unfold set_delete.
  rewrite filter_cons, decide_False by (by intros ?; congruence).
  by rewrite filter_nil.
Qed.

End Leave.

(** C4 holds for [src/index.js] and [src/server.js] (lemmas above) and
    fails for the earlier server: K1ABC joins "7.050" as its only
    member, the socket closes, and the registry still maps "7.050" to a
    set, now empty. *)
Theorem earlier_server_keeps_empty_room :
  let σ := after Part000.deliver
             [Connection 1%nat false (k1abc_on (Some "7.050")); Close 1%nat]
             empty_world in
  rooms σ !! "7.050" = Some [] ∧
  readyState (socket_of σ 1%nat) = CLOSED ∧
  interval (socket_of σ 1%nat) = false.
Proof. cbn zeta. repeat split; vm_compute; reflexivity. Qed.

(** The same two events through the two other servers leave no entry. *)
Lemma later_servers_drop_empty_room :
  rooms (after Index.deliver
           [Connection 1%nat false (k1abc_on (Some "7.050")); Close 1%nat]
           empty_world) !! "7.050" = None ∧
  rooms (after Server.deliver
           [Connection 1%nat false (k1abc_on (Some "7.050")); Close 1%nat]
           empty_world) !! "7.050" = None.
Proof. by split. Qed.

(** ** The heartbeat of [src/server.js] *)

Section Heartbeat.
Context `{!JsRuntime}.

(** A tick ends normally whatever happens inside. *)
Lemma heartbeat_returns (cl : Closure) (ws : WsId) (σ : World) :
  (run (Server.heartbeat cl ws) σ).1 = Ok ().
Proof.
  unfold Server.heartbeat, try_catch. cbn [run].
  by destruct (run _ σ) as [[[]|e] σ1].
Qed.

Lemma heartbeat_keeps_rooms (cl : Closure) (ws : WsId) :
  keeps rooms (Server.heartbeat cl ws).
Proof. unfold Server.heartbeat. eauto 10 with keeps. Qed.

(** A tick writes [isAlive] and no other field of any socket. *)
Lemma heartbeat_keeps_field {T : Type} (field : WebSocket → T)
    (cl : Closure) (ws w : WsId) :
  (∀ b s, field (with_isAlive b s) = field s) →
  keeps (λ σ, field (socket_of σ w)) (Server.heartbeat cl ws).
Proof.
  intros Hf. unfold Server.heartbeat.
  apply keeps_try_catch; [|apply keeps_ret].
  apply keeps_bind; [apply keeps_modify; intros σ; by apply field_update|intros _].
  apply keeps_bind; [apply keeps_ws_ping; by intros ? ?|intros _].
  apply keeps_query; by intros ? ?.
Qed.

(** A tick closes nothing. *)
Lemma heartbeat_keeps_closes (cl : Closure) (ws : WsId) :
  keeps closes (Server.heartbeat cl ws).
Proof.
  unfold Server.heartbeat.
  apply keeps_try_catch; [|apply keeps_ret].
  apply keeps_bind; [by apply keeps_modify|intros _].
  apply keeps_bind; [apply keeps_closes_ws_ping|intros _].
  apply keeps_closes_query.
Qed.

(** On an open socket that takes the write, a tick marks the connection
    unconfirmed, whatever [isAlive] was: the flag is written and never
    read. *)
Lemma heartbeat_marks_unconfirmed (cl : Closure) (ws : WsId) (σ : World) :
  is_open σ ws = true → writable σ ws →
  isAlive (socket_of (run (Server.heartbeat cl ws) σ).2 ws) = Some false.
Proof.
  intros Hopen Hw.
  unfold Server.heartbeat. rewrite try_catch_keeps by apply keeps_ret.
  rewrite run_bind. cbn [run modify].
  set (σ1 := update_socket ws (with_isAlive false) σ).
  assert (isAlive (socket_of σ1 ws) = Some false) as H1
    by (subst σ1; by rewrite socket_of_update_eq).
  rewrite <- H1.
  apply (keeps_bind (λ σ, isAlive (socket_of σ ws))); [|intros _].
  - apply keeps_ws_ping. by intros ? ?.
  - apply keeps_query; by intros ? ?.
Qed.

(** The [Tick] event of a connection held as live keeps it so. *)
Lemma tick_keeps_held_live (ws : WsId) (channel : string) (σ : World) :
  held_live ws channel σ →
  held_live ws channel (run (Server.deliver (Tick ws)) σ).2.
Proof.
  intros (Hj & Hopen & Hiv & Hcl).
  cbn [Server.deliver]. rewrite run_bind. cbn [run gets].
  destruct (handlers (socket_of σ ws)) as [cl|]; [|by repeat split].
  rewrite Hiv. repeat split.
  - unfold joined. by rewrite heartbeat_keeps_rooms.
  - unfold is_open. by rewrite (heartbeat_keeps_field readyState).
  - by rewrite (heartbeat_keeps_field interval).
  - by rewrite heartbeat_keeps_closes.
Qed.

Lemma after_app (deliver : Event → M ()) (first rest : list Event) (σ : World) :
  after deliver (first ++ rest) σ = after deliver rest (after deliver first σ).
Proof. unfold after. apply foldl_app. Qed.

Lemma ticks_keep_held_live (ws : WsId) (channel : string) (n : nat) (σ : World) :
  held_live ws channel σ →
  held_live ws channel (after Server.deliver (repeat (Tick ws) n) σ).
Proof.
  revert σ. induction n as [|n IH]; intros σ Hlive; [done|].
  cbn [repeat after foldl]. apply IH. by apply tick_keeps_held_live.
Qed.

End Heartbeat.

(** ** No empty room in [src/index.js] and [src/server.js] *)

Lemma joined_rooms_inhabited (channel : string) (ws : WsId) (σ σ' : World) :
  rooms σ' = joined_rooms channel ws (rooms σ) →
  no_empty_room σ → no_empty_room σ'.
Proof.
  intros Hr Hinv ch members. rewrite Hr. unfold joined_rooms.
  destruct (decide (channel = ch)) as [->|Hne].
  - rewrite lookup_insert_eq. intros [= <-] Hnil.
    pose proof (set_add_member ws (default [] (rooms σ !! ch))) as Hin.
    rewrite Hnil in Hin. by apply elem_of_nil in Hin.
  - rewrite lookup_insert_ne by done. apply Hinv.
Qed.

Lemma same_rooms_inhabited (σ σ' : World) :
  rooms σ' = rooms σ → no_empty_room σ → no_empty_room σ'.
Proof. intros Hr Hinv ch members. rewrite Hr. apply Hinv. Qed.

(** Taking a member out and dropping the entry when the set is empty. *)
Lemma left_rooms_inhabited (channel : string) (ws : WsId) (members : list WsId)
    (σ σ' : World) :
  rooms σ' = (if bool_decide (length (set_delete ws members) = 0%nat)
              then delete channel (rooms σ)
              else <[channel := set_delete ws members]> (rooms σ)) →
  no_empty_room σ → no_empty_room σ'.
Proof.
  intros Hr Hinv ch ms. rewrite Hr. case_bool_decide as Hlen.
  - destruct (decide (channel = ch)) as [->|Hne].
    + by rewrite lookup_delete_eq.
    + rewrite lookup_delete_ne by done. apply Hinv.
  - destruct (decide (channel = ch)) as [->|Hne].
    + rewrite lookup_insert_eq. intros [= <-] Hnil. by rewrite Hnil in Hlen.
    + rewrite lookup_insert_ne by done. apply Hinv.
Qed.

Section Inhabited.
Context `{!JsRuntime}.

Lemma keeps_rooms_Index_on_message (cl : Closure) (ws : WsId) (raw : string) :
  keeps rooms (Index.on_message cl ws raw).
Proof.
  unfold Index.on_message. pose proof keeps_rooms_Index_broadcast.
  destruct (JSON_parse raw); [|apply keeps_ret].
  eauto 12 with keeps.
Qed.

Lemma Index_leaveRoom_inhabited (channel : string) (ws : WsId) (σ : World) :
  no_empty_room σ → no_empty_room (run (Index.leaveRoom channel ws) σ).2.
Proof.
  intros Hinv. destruct (rooms σ !! channel) as [members|] eqn:Hroom.
  - eapply left_rooms_inhabited; [|exact Hinv].
    by rewrite (Index_leaveRoom_run _ _ _ _ Hroom).
  - unfold Index.leaveRoom. mrun. by rewrite Hroom.
Qed.

(** Every event [src/index.js] handles keeps the registry free of empty
    rooms. *)
Lemma Index_deliver_inhabited (e : Event) (σ : World) :
  no_empty_room σ → no_empty_room (run (Index.deliver e) σ).2.
Proof.
  intros Hinv. destruct e as [ws raises req|ws raw|ws|ws|ws]; cbn [Index.deliver].
  - rewrite run_bind. cbn [run accept modify].
    eapply joined_rooms_inhabited; [apply Index_connection_rooms|done].
  - rewrite run_bind. cbn [run gets].
    destruct (handlers (socket_of σ ws)) as [cl|]; [|done].
    eapply same_rooms_inhabited; [apply keeps_rooms_Index_on_message|done].
  - done.
  - done.
  - unfold transport_closed. mrun.
    match goal with |- context [handlers ?s] => destruct (handlers s) as [cl|] end;
      [|done].
    by apply Index_leaveRoom_inhabited.
Qed.

Lemma Server_on_close_inhabited (cl : Closure) (ws : WsId) (σ : World) :
  no_empty_room σ → no_empty_room (run (Server.on_close cl ws) σ).2.
Proof.
  intros Hinv. destruct (rooms σ !! cl_channel cl) as [members|] eqn:Hroom.
  - eapply left_rooms_inhabited; [|exact Hinv].
    by rewrite (Server_on_close_run _ _ _ _ Hroom).
  - unfold Server.on_close, Server.cleanupChannelIfEmpty.
    mrun. rewrite Hroom. mrun. by rewrite Hroom.
Qed.

Lemma Server_connection_inhabited (ws : WsId) (req : Request) (σ : World) :
  no_empty_room σ → no_empty_room (run (Server.connection ws req) σ).2.
Proof.
  intros Hinv. destruct (decide (norm (param_callsign req) = "")) as [Hcs|Hcs].
  - by rewrite (Server_connection_guard _ _ _ Hcs).
  - eapply joined_rooms_inhabited; [by apply Server_connection_rooms|done].
Qed.

(** Every event [src/server.js] handles keeps the registry free of empty
    rooms. *)
Lemma Server_deliver_inhabited (e : Event) (σ : World) :
  no_empty_room σ → no_empty_room (run (Server.deliver e) σ).2.
Proof.
  intros Hinv. destruct e as [ws raises req|ws raw|ws|ws|ws]; cbn [Server.deliver].
  - rewrite run_bind. cbn [run accept modify].
    by apply Server_connection_inhabited.
  - rewrite run_bind. cbn [run gets].
    by destruct (handlers (socket_of σ ws)) as [cl|].
  - rewrite run_bind. cbn [run gets].
    by destruct (handlers (socket_of σ ws)) as [cl|].
  - rewrite run_bind. cbn [run gets].
    destruct (handlers (socket_of σ ws)) as [cl|]; [|done].
    destruct (interval (socket_of σ ws)); [|done].
    eapply same_rooms_inhabited; [apply heartbeat_keeps_rooms|done].
  - unfold transport_closed. mrun.
    match goal with |- context [handlers ?s] => destruct (handlers s) as [cl|] end;
      [|done].
    by apply Server_on_close_inhabited.
Qed.

End Inhabited.

(** X4. Whatever the events, the registries of [src/index.js] and
    [src/server.js] never hold an entry for a channel without members. *)
Lemma later_servers_never_hold_empty_room `{!JsRuntime} (events : list Event) :
  no_empty_room (after Index.deliver events empty_world) ∧
  no_empty_room (after Server.deliver events empty_world).
Proof.
  assert (no_empty_room empty_world) as Hinit by (by intros ch members).
  revert Hinit. generalize empty_world as σ. intros σ Hσ. split.
  - revert σ Hσ. induction events as [|e rest IH]; intros σ Hσ; [done|].
    cbn [after foldl]. apply IH. by apply Index_deliver_inhabited.
  - revert σ Hσ. induction events as [|e rest IH]; intros σ Hσ; [done|].
    cbn [after foldl]. apply IH. by apply Server_deliver_inhabited.
Qed.


(** C2 fails on the code. K1ABC joins "7.050" through [src/server.js]
    and never answers a ping. After two heartbeat ticks, and after any
    number of further ones, the connection is still a member of the
    room, its socket is open, its timer runs and the server has closed
    nothing. *)
Theorem unanswered_heartbeats_never_reap (n : nat) :
  let σ := after Server.deliver
             (Connection 1%nat false (k1abc_on (Some "7.050"))
              :: Tick 1%nat :: Tick 1%nat :: repeat (Tick 1%nat) n)
             empty_world in
  held_live 1%nat "7.050" σ.
Proof.
  cbn zeta.
  change (Connection 1%nat false (k1abc_on (Some "7.050"))
          :: Tick 1%nat :: Tick 1%nat :: repeat (Tick 1%nat) n)
    with ([Connection 1%nat false (k1abc_on (Some "7.050")); Tick 1%nat; Tick 1%nat]
          ++ repeat (Tick 1%nat) n).
  rewrite after_app.
  apply ticks_keep_held_live.
  split; [|split; [|split]]; [|vm_compute; reflexivity..].
  exists [1%nat]. split; [vm_compute; reflexivity|by left].
Qed.

(** After the two ticks the flag says that no pong came; the server
    holds the connection all the same. *)
Lemma missed_pong_is_recorded_only :
  let σ := after Server.deliver
             [Connection 1%nat false (k1abc_on (Some "7.050"));
              Tick 1%nat; Tick 1%nat] empty_world in
  isAlive (socket_of σ 1%nat) = Some false ∧
  rooms σ !! "7.050" = Some [1%nat] ∧
  trace σ = [EQuery (UpsertStation "K1ABC" "7.050");
             ESerialize (hello_event "K1ABC" "7.050"); ESend 1%nat "hello";
             EPing 1%nat; EQuery (TouchStationChannel "K1ABC" "7.050");
             EPing 1%nat; EQuery (TouchStationChannel "K1ABC" "7.050")].
Proof. cbn zeta. repeat split; vm_compute; reflexivity. Qed.

(** ** Recent messages *)

#[local] Instance newer_first_total : Total newer_first.
Proof. intros a b. unfold newer_first. lia. Qed.

#[local] Instance newer_first_transitive : Transitive newer_first.
Proof. intros a b c. unfold newer_first. lia. Qed.

#[local] Instance ascending_transitive : Transitive ascending.
Proof. intros a b c. unfold ascending. lia. Qed.

Lemma copy_row_id (rows : list Row) : copy_row <$> rows = rows.
Proof.
  induction rows as [|[] rest IH]; [done|].
  rewrite fmap_cons, IH. reflexivity.
Qed.

Lemma select_recent_descending (channel : string) (limit : Z) (table : list Message) :
  StronglySorted descending (select_recent channel limit table).
Proof.
  unfold select_recent.
  apply (StronglySorted_fmap row_of newer_first descending); [done|].
  eapply StronglySorted_app_1_l. rewrite take_drop.
  apply StronglySorted_merge_sort; apply _.
Qed.

Lemma select_recent_length (channel : string) (limit : Z) (table : list Message) :
  (length (select_recent channel limit table) ≤ Z.to_nat limit)%nat.
Proof. unfold select_recent. rewrite length_fmap, length_take. lia. Qed.

Lemma select_recent_stored (channel : string) (limit : Z) (table : list Message)
    (r : Row) :
  r ∈ select_recent channel limit table →
  ∃ m, m ∈ table ∧ m_channel m = channel ∧ r = row_of m.
Proof.
  unfold select_recent. intros (m & -> & Hm)%list_elem_of_fmap.
  apply subseteq_take in Hm. rewrite merge_sort_Permutation in Hm.
  apply list_elem_of_filter in Hm as [Hch Hin]. by exists m.
Qed.

Lemma select_recent_newest (channel : string) (limit : Z) (table : list Message)
    (m : Message) :
  m ∈ table → m_channel m = channel →
  row_of m ∈ select_recent channel limit table ∨
  ∀ r, r ∈ select_recent channel limit table → m_id m ≤ r_id r.
Proof.
  intros Hin Hch. unfold select_recent.
  set (sorted := merge_sort newer_first (filter (λ m, m_channel m = channel) table)).
  assert (m ∈ sorted) as Hsorted.
  { subst sorted. rewrite merge_sort_Permutation. by apply list_elem_of_filter. }
  assert (StronglySorted newer_first sorted) as Hss
    by (apply StronglySorted_merge_sort; apply _).
  rewrite <- (take_drop (Z.to_nat limit) sorted) in Hsorted, Hss.
  apply elem_of_app in Hsorted as [Htake|Hdrop].
  - left. apply list_elem_of_fmap. by exists m.
  - right. intros r (m' & -> & Hm')%list_elem_of_fmap.
    exact (StronglySorted_app_1_elem_of _ _ _ _ _ Hss Hm' Hdrop).
Qed.

Lemma reverse_ascending (rows : list Row) :
  StronglySorted descending rows → StronglySorted ascending (reverse rows).
Proof.
  intros Hd. apply Sorted_StronglySorted; [apply _|].
  apply (Sorted_reverse descending). by apply StronglySorted_Sorted.
Qed.

Lemma Qle_bool_inject_Z (a b : Z) : Qle_bool (inject_Z a) (inject_Z b) = (a <=? b).
Proof. unfold Qle_bool. cbn. by rewrite !Z.mul_1_r. Qed.

(** Clamping an integer between 1 and [hi]. *)
Lemma clamp_inject_Z (hi n : Z) :
  Math_min (Some (inject_Z hi)) (Math_max (Some (inject_Z 1)) (Some (inject_Z n)))
  = Some (inject_Z (Z.min hi (Z.max 1 n))).
Proof.
  unfold Math_max. rewrite Qle_bool_inject_Z.
  destruct (Z.leb_spec 1 n) as [H1|H1].
  - rewrite Z.max_r by done. unfold Math_min. rewrite Qle_bool_inject_Z.
    destruct (Z.leb_spec hi n); [by rewrite Z.min_l|by rewrite Z.min_r by lia].
  - rewrite Z.max_l by lia. unfold Math_min. rewrite Qle_bool_inject_Z.
    destruct (Z.leb_spec hi 1); [by rewrite Z.min_l|by rewrite Z.min_r by lia].
Qed.

Lemma integral_inject_Z (k : Z) : 0 ≤ k → integral (inject_Z k) = true.
Proof.
  intros Hk. unfold integral. cbn. rewrite Z.mod_1_r. cbn.
  by apply Z.leb_le.
Qed.

Lemma limit_value_inject_Z (k : Z) : limit_value (inject_Z k) = k.
Proof. unfold limit_value. cbn. apply Z.div_1_r. Qed.

Lemma query_rows_run (channel : string) (k : Z) (σ : World) :
  dbUp σ = true → 0 ≤ k →
  run (query_rows channel (Some (inject_Z k))) σ
  = (Ok (select_recent channel k (messages σ)),
     set_trace (trace σ ++ [EQuery (SelectRecent channel (Some (inject_Z k)))]) σ).
Proof.
  intros Hup Hk. unfold query_rows. mrun. rewrite Hup.
  rewrite (integral_inject_Z _ Hk). mrun. by rewrite limit_value_inject_Z.
Qed.

(** C9. With the store up and a limit parameter that is absent or an
    integer [n], the route answers with the rows the query selected, in
    reverse: [src/index.js] at most [min 200 (max 1 n)] rows of the
    channel, [src/server.js] at most [min 500 (max 1 n)]. The rows
    selected are stored messages of the channel, in descending id, no
    more than the limit, and no message of the channel left out is newer
    than one selected. The answer holds the same rows, unchanged, in
    ascending id. *)
Theorem recent_selected_newest_first_answered_oldest_first `{!JsRuntime}
    (q_channel q_limit : option string) (n : Z) (σ : World) :
  dbUp σ = true →
  requested_limit q_limit = Some (inject_Z n) →
  (run (Index_recent q_channel q_limit) σ).1
    = Ok (Messages (reverse (select_recent (or_else q_channel "7.050")
                               (Z.min 200 (Z.max 1 n)) (messages σ)))) ∧
  (run (Server_recent q_channel q_limit) σ).1
    = Ok (Messages (reverse (select_recent (or_else q_channel Server.DEFAULT_CHANNEL)
                               (Z.min 500 (Z.max 1 n)) (messages σ)))) ∧
  ∀ channel limit,
    let selected := select_recent channel limit (messages σ) in
    StronglySorted descending selected ∧
    (length selected ≤ Z.to_nat limit)%nat ∧
    (∀ r, r ∈ selected →
          ∃ m, m ∈ messages σ ∧ m_channel m = channel ∧ r = row_of m) ∧
    (∀ m, m ∈ messages σ → m_channel m = channel →
          row_of m ∈ selected ∨ ∀ r, r ∈ selected → m_id m ≤ r_id r) ∧
    StronglySorted ascending (reverse selected) ∧
    reverse selected ≡ₚ selected.
Proof.
  intros Hup Hlimit. split; [|split].
  - unfold Index_recent, try_catch. cbn [run]. rewrite Hlimit, clamp_inject_Z.
    rewrite run_bind, (query_rows_run _ _ _ Hup) by lia.
    cbn. by rewrite copy_row_id.
  - unfold Server_recent, try_catch. cbn [run]. rewrite Hlimit, clamp_inject_Z.
    by rewrite run_bind, (query_rows_run _ _ _ Hup) by lia.
  - intros channel limit selected. subst selected.
    split; [apply select_recent_descending|].
    split; [apply select_recent_length|].
    split; [apply select_recent_stored|].
    split; [apply select_recent_newest|].
    split; [apply reverse_ascending, select_recent_descending|].
    apply reverse_Permutation.
Qed.

Lemma recent_selected_newest_first_answered_oldest_first_witness :
  dbUp four_messages = true ∧
  requested_limit (Some "2") = Some (inject_Z 2) ∧
  (run (Index_recent (Some "7.050") (Some "2")) four_messages).1
    = Ok (Messages [row_of (cw 3 "7.050" "W1AW"); row_of (cw 4 "7.050" "K1ABC")]).
Proof.
  split; [reflexivity|]. split; [reflexivity|].
  exact (proj1 (@recent_selected_newest_first_answered_oldest_first kind_runtime
                  (Some "7.050") (Some "2") 2 four_messages
                  (eq_refl true) (eq_refl (Some (inject_Z 2))))).
Defined.

(** X25. A limit the store refuses (a limit parameter that is not a
    number), or a store that is down, gives the error answer 500
    ["recent_failed"], in [src/index.js] and in [src/server.js]. *)
Lemma recent_failure `{!JsRuntime} (q_channel q_limit : option string) (σ : World) :
  dbUp σ = false ∨ requested_limit q_limit = None →
  (run (Index_recent q_channel q_limit) σ).1 = Ok (Failure 500 "recent_failed") ∧
  (run (Server_recent q_channel q_limit) σ).1 = Ok (Failure 500 "recent_failed").
Proof.
  intros Hbad. unfold Index_recent, Server_recent, try_catch, query_rows. cbn [run].
  split; mrun; destruct Hbad as [Hdown|Hnan]; rewrite ?Hdown, ?Hnan;
    by destruct (dbUp σ).
Qed.

(** * Further properties *)

(** ** The room registry *)

Lemma set_add_idemp (ws : WsId) (members : list WsId) :
  set_add ws (set_add ws members) = set_add ws members.
Proof.
  unfold set_add at 1. by rewrite bool_decide_true by apply set_add_member.
Qed.

Lemma set_add_NoDup (ws : WsId) (members : list WsId) :
  NoDup members → NoDup (set_add ws members).
Proof.
  intros Hnd. unfold set_add. case_bool_decide as Hin; [done|].
  apply NoDup_app. split; [done|]. split; [|apply NoDup_singleton].
  intros x Hx ->%list_elem_of_singleton. done.
Qed.

Lemma set_delete_NoDup (ws : WsId) (members : list WsId) :
  NoDup members → NoDup (set_delete ws members).
Proof. apply NoDup_filter. Qed.

Lemma set_delete_absent (ws : WsId) (members : list WsId) :
  ws ∉ set_delete ws members.
Proof. unfold set_delete. intros [Hne _]%list_elem_of_filter. done. Qed.

Lemma set_delete_not_member (ws : WsId) (members : list WsId) :
  ws ∉ members → set_delete ws members = members.
Proof.
  intros Hnot. unfold set_delete. induction members as [|w rest IH]; [done|].
  rewrite filter_cons. apply not_elem_of_cons in Hnot as [Hne Hrest].
  rewrite decide_True by done. by rewrite IH.
Qed.

Lemma set_delete_added (ws : WsId) (members : list WsId) :
  ws ∉ members → set_delete ws (set_add ws members) = members.
Proof.
  intros Hnot. unfold set_add. rewrite bool_decide_false by done.
  unfold set_delete. rewrite filter_app, filter_cons.
  rewrite decide_False by (intros ?; congruence).
  rewrite filter_nil, app_nil_r. by apply set_delete_not_member.
Qed.

Lemma set_rooms_same (σ : World) : set_rooms (rooms σ) σ = σ.
Proof. by destruct σ. Qed.

Lemma set_rooms_twice (r r' : gmap string (list WsId)) (σ : World) :
  set_rooms r (set_rooms r' σ) = set_rooms r σ.
Proof. reflexivity. Qed.

(** X1. [joinRoom] adds the connection and is idempotent: after a join
    the connection is a member of the room of the channel, the other
    members of that room and all other rooms are as they were, and a
    room that held no connection twice still holds none twice - the
    connection is a member once; joining a second time changes nothing:
    the world is exactly as after the first join. *)
Theorem joinRoom_idempotent `{!JsRuntime} (channel : string) (ws : WsId) (σ : World) :
  let once := run (Index.joinRoom channel ws) σ in
  let before := default [] (rooms σ !! channel) in
  run (Index.joinRoom channel ws;; Index.joinRoom channel ws) σ = once ∧
  once.1 = Ok () ∧
  (∃ members, rooms once.2 !! channel = Some members ∧
     ws ∈ members ∧
     (∀ w, w ≠ ws → w ∈ members ↔ w ∈ before) ∧
     (NoDup before → NoDup members)) ∧
  ∀ other, other ≠ channel → rooms once.2 !! other = rooms σ !! other.
Proof.
  cbn zeta. rewrite run_bind, !run_joinRoom. cbn [rooms set_rooms fst snd].
  split; [|split; [done|split]].
  - f_equal. unfold set_rooms. cbn. f_equal.
    unfold joined_rooms. rewrite lookup_insert_eq. cbn [default from_option id].
    by rewrite insert_insert_eq, set_add_idemp.
  - exists (set_add ws (default [] (rooms σ !! channel))).
    split; [apply lookup_insert_eq|]. split; [apply set_add_member|].
    split; [|apply set_add_NoDup].
    intros w Hne. unfold set_add. case_bool_decide; [done|].
    rewrite elem_of_app, list_elem_of_singleton. tauto.
  - intros other Hne. unfold joined_rooms. by rewrite lookup_insert_ne.
Qed.

(** X2. Round trip in the registry: a connection that was not a member
    joins and leaves, and the world is as before -- the room is dropped
    again if the join created it, and keeps its other members in their
    order otherwise. *)
Theorem join_then_leave_restores `{!JsRuntime} (channel : string) (ws : WsId)
    (σ : World) :
  (∀ members, rooms σ !! channel = Some members → (ws ∉ members) ∧ members ≠ []) →
  run (Index.joinRoom channel ws;; Index.leaveRoom channel ws) σ = (Ok (), σ).
Proof.
  intros Hfresh. rewrite run_bind, run_joinRoom.
  rewrite (Index_leaveRoom_run _ _ (set_add ws (default [] (rooms σ !! channel))))
    by apply lookup_insert_eq.
  cbn [rooms set_rooms]. f_equal. rewrite set_rooms_twice.
  unfold joined_rooms.
  destruct (rooms σ !! channel) as [members|] eqn:Hroom; cbn [default from_option id].
  - destruct (Hfresh members eq_refl) as [Hnot Hne].
    rewrite (set_delete_added _ _ Hnot).
    rewrite bool_decide_false by (by destruct members).
    rewrite insert_insert_eq, (insert_id _ _ _ Hroom).
    apply set_rooms_same.
  - rewrite (set_delete_added ws []) by apply not_elem_of_nil.
    rewrite bool_decide_true by done.
    rewrite delete_insert_eq, delete_id by done.
    apply set_rooms_same.
Qed.

Lemma join_then_leave_restores_witness :
  (∀ members, rooms (room_of_two false) !! "7.050" = Some members →
              (3%nat ∉ members) ∧ members ≠ []) ∧
  run (Index.joinRoom "7.050" 3%nat;; Index.leaveRoom "7.050" 3%nat)
      (room_of_two false)
  = (Ok (), room_of_two false).
Proof.
  assert (∀ members, rooms (room_of_two false) !! "7.050" = Some members →
                     (3%nat ∉ members) ∧ members ≠ []) as Hfresh.
  { intros members [= <-]. split; [|discriminate].
    intros Hin. repeat (apply elem_of_cons in Hin as [Heq|Hin]; [discriminate|]).
    by apply elem_of_nil in Hin. }
  split; [exact Hfresh|].
  exact (@join_then_leave_restores kind_runtime "7.050" 3%nat (room_of_two false) Hfresh).
Defined.

(** *** Members are unique *)

Lemma joined_rooms_nodup (channel : string) (ws : WsId) (σ σ' : World) :
  rooms σ' = joined_rooms channel ws (rooms σ) → rooms_nodup σ → rooms_nodup σ'.
Proof.
  intros Hr Hinv ch members. rewrite Hr. unfold joined_rooms.
  destruct (decide (channel = ch)) as [->|Hne].
  - rewrite lookup_insert_eq. intros [= <-]. apply set_add_NoDup.
    destruct (rooms σ !! ch) as [old|] eqn:Hold; cbn; [by eapply Hinv|constructor].
  - rewrite lookup_insert_ne by done. apply Hinv.
Qed.

Lemma same_rooms_nodup (σ σ' : World) :
  rooms σ' = rooms σ → rooms_nodup σ → rooms_nodup σ'.
Proof. intros Hr Hinv ch members. rewrite Hr. apply Hinv. Qed.

Lemma left_rooms_nodup (channel : string) (ws : WsId) (members : list WsId)
    (σ σ' : World) :
  rooms σ !! channel = Some members →
  (rooms σ' = delete channel (rooms σ) ∨
   rooms σ' = <[channel := set_delete ws members]> (rooms σ)) →
  rooms_nodup σ → rooms_nodup σ'.
Proof.
  intros Hroom Hr Hinv ch ms. destruct Hr as [-> | ->].
  - destruct (decide (channel = ch)) as [->|Hne].
    + by rewrite lookup_delete_eq.
    + rewrite lookup_delete_ne by done. apply Hinv.
  - destruct (decide (channel = ch)) as [->|Hne].
    + rewrite lookup_insert_eq. intros [= <-]. apply set_delete_NoDup. by eapply Hinv.
    + rewrite lookup_insert_ne by done. apply Hinv.
Qed.

Section Unique.
Context `{!JsRuntime}.

Lemma Part000_connection_rooms (ws : WsId) (req : Request) (σ : World) :
  rooms (run (Part000.connection ws req) σ).2 = rooms σ ∨
  ∃ channel, rooms (run (Part000.connection ws req) σ).2
             = joined_rooms channel ws (rooms σ).
Proof.
  unfold Part000.connection.
  rewrite try_catch_keeps by eauto with keeps.
  destruct (negb (truthy (norm (param_callsign req))) ||
            negb (truthy (or_else (param_channel req) ""))); [by left|].
  right. exists (or_else (param_channel req) "").
  set (channel := or_else _ _).
  set (rest := modify (update_socket ws (with_identity _ _)) ≫= _).
  assert (keeps rooms rest) as Hrest by (subst rest; eauto 15 with keeps).
  mrun. join_inline σ channel Hroom.
  all: by rewrite Hrest.
Qed.

Lemma Index_leaveRoom_nodup (channel : string) (ws : WsId) (σ : World) :
  rooms_nodup σ → rooms_nodup (run (Index.leaveRoom channel ws) σ).2.
Proof.
  intros Hinv. destruct (rooms σ !! channel) as [members|] eqn:Hroom.
  - eapply (left_rooms_nodup channel ws members σ); [done| |done].
    rewrite (Index_leaveRoom_run _ _ _ _ Hroom). cbn [snd rooms set_rooms].
    case_bool_decide; [by left|by right].
  - unfold Index.leaveRoom. mrun. by rewrite Hroom.
Qed.

Lemma Server_on_close_nodup (cl : Closure) (ws : WsId) (σ : World) :
  rooms_nodup σ → rooms_nodup (run (Server.on_close cl ws) σ).2.
Proof.
  intros Hinv. destruct (rooms σ !! cl_channel cl) as [members|] eqn:Hroom.
  - eapply (left_rooms_nodup (cl_channel cl) ws members σ); [done| |done].
    rewrite (Server_on_close_run _ _ _ _ Hroom). cbn [snd rooms set_rooms].
    case_bool_decide; [by left|by right].
  - unfold Server.on_close, Server.cleanupChannelIfEmpty.
    mrun. rewrite Hroom. mrun. by rewrite Hroom.
Qed.

Lemma Part000_on_close_nodup (cl : Closure) (ws : WsId) (σ : World) :
  rooms_nodup σ → rooms_nodup (run (Part000.on_close cl ws) σ).2.
Proof.
  intros Hinv. unfold Part000.on_close. mrun.
  destruct (rooms σ !! cl_channel cl) as [members|] eqn:Hroom; mrun; [|done].
  eapply (left_rooms_nodup (cl_channel cl) ws members σ); [done|by right|done].
Qed.

Lemma Index_deliver_nodup (e : Event) (σ : World) :
  rooms_nodup σ → rooms_nodup (run (Index.deliver e) σ).2.
Proof.
  intros Hinv. destruct e as [ws raises req|ws raw|ws|ws|ws]; cbn [Index.deliver].
  - rewrite run_bind. cbn [run accept modify].
    eapply joined_rooms_nodup; [apply Index_connection_rooms|done].
  - rewrite run_bind. cbn [run gets].
    destruct (handlers (socket_of σ ws)) as [cl|]; [|done].
    eapply same_rooms_nodup; [apply keeps_rooms_Index_on_message|done].
  - done.
  - done.
  - unfold transport_closed. mrun.
    match goal with |- context [handlers ?s] => destruct (handlers s) as [cl|] end;
      [|done].
    by apply Index_leaveRoom_nodup.
Qed.

Lemma Server_deliver_nodup (e : Event) (σ : World) :
  rooms_nodup σ → rooms_nodup (run (Server.deliver e) σ).2.
Proof.
  intros Hinv. destruct e as [ws raises req|ws raw|ws|ws|ws]; cbn [Server.deliver].
  - rewrite run_bind. cbn [run accept modify].
    destruct (decide (norm (param_callsign req) = "")) as [Hcs|Hcs].
    + by rewrite (Server_connection_guard _ _ _ Hcs).
    + eapply joined_rooms_nodup; [by apply Server_connection_rooms|done].
  - rewrite run_bind. cbn [run gets].
    by destruct (handlers (socket_of σ ws)) as [cl|].
  - rewrite run_bind. cbn [run gets].
    by destruct (handlers (socket_of σ ws)) as [cl|].
  - rewrite run_bind. cbn [run gets].
    destruct (handlers (socket_of σ ws)) as [cl|]; [|done].
    destruct (interval (socket_of σ ws)); [|done].
    eapply same_rooms_nodup; [apply heartbeat_keeps_rooms|done].
  - unfold transport_closed. mrun.
    match goal with |- context [handlers ?s] => destruct (handlers s) as [cl|] end;
      [|done].
    by apply Server_on_close_nodup.
Qed.

Lemma Part000_deliver_nodup (e : Event) (σ : World) :
  rooms_nodup σ → rooms_nodup (run (Part000.deliver e) σ).2.
Proof.
  intros Hinv. destruct e as [ws raises req|ws raw|ws|ws|ws]; cbn [Part000.deliver].
  - rewrite run_bind. cbn [run accept modify].
    match goal with |- rooms_nodup (run (Part000.connection ws req) ?s).2 =>
      destruct (Part000_connection_rooms ws req s) as [Hr|[channel Hr]]
    end.
    + by eapply same_rooms_nodup.
    + by eapply joined_rooms_nodup.
  - done.
  - done.
  - rewrite run_bind. cbn [run gets].
    destruct (handlers (socket_of σ ws)) as [cl|]; [|done].
    destruct (interval (socket_of σ ws)); [|done].
    eapply same_rooms_nodup; [|done].
    unfold Part000.iv. refine ((_ : keeps rooms _) σ). eauto 10 with keeps.
  - unfold transport_closed. mrun.
    match goal with |- context [handlers ?s] => destruct (handlers s) as [cl|] end;
      [|done].
    by apply Part000_on_close_nodup.
Qed.

End Unique.

(** X3. Whatever the events, in all three servers a connection is never
    twice a member of a room: [Set.add] in the join and [Set.delete] in
    the close listeners keep every membership free of duplicates, so a
    broadcast meets each member once. *)
Theorem members_are_unique `{!JsRuntime} (events : list Event) :
  rooms_nodup (after Index.deliver events empty_world) ∧
  rooms_nodup (after Server.deliver events empty_world) ∧
  rooms_nodup (after Part000.deliver events empty_world).
Proof.
  assert (rooms_nodup empty_world) as Hinit by (by intros ch members).
  revert Hinit. generalize empty_world as σ. intros σ Hσ. split; [|split].
  - revert σ Hσ. induction events as [|e rest IH]; intros σ Hσ; [done|].
    cbn [after foldl]. apply IH. by apply Index_deliver_nodup.
  - revert σ Hσ. induction events as [|e rest IH]; intros σ Hσ; [done|].
    cbn [after foldl]. apply IH. by apply Server_deliver_nodup.
  - revert σ Hσ. induction events as [|e rest IH]; intros σ Hσ; [done|].
    cbn [after foldl]. apply IH. by apply Part000_deliver_nodup.
Qed.

(** ** Who a broadcast writes to *)

(** X5. A broadcast writes to nobody but open members of the channel it
    is called for, in [src/index.js] and in [src/server.js]: a connection
    joined to another channel, or whose socket is not open, gets nothing,
    whether or not a write throws on the way. *)
Theorem broadcast_reaches_only_open_members `{!JsRuntime}
    (σ : World) (channel : string) (obj : json) (w : WsId) (data : string) :
  receives w data (new_effects σ (run (Index.broadcastToChannel channel obj) σ).2) ∨
  receives w data (new_effects σ (run (Server.broadcastToChannel channel obj) σ).2) →
  joined w channel σ ∧ is_open σ w = true ∧ data = JSON_stringify obj.
Proof.
  destruct (rooms σ !! channel) as [members|] eqn:Hroom.
  - rewrite (Index_broadcast_run _ _ _ _ Hroom), (Server_broadcast_run _ _ _ _ Hroom).
    unfold new_effects, receives. cbn [snd trace set_trace].
    rewrite drop_app_length. intros Hin.
    assert (ESend w data ∈ ESerialize obj ::
              ((λ v, ESend v (JSON_stringify obj)) <$> (reached σ members).1)) as Hin'
      by (by destruct Hin).
    apply elem_of_cons in Hin' as [Heq|Hin']; [discriminate|].
    apply list_elem_of_fmap in Hin' as (v & [= -> ->] & Hv).
    apply reached_only_open in Hv as [Hmem Hopen].
    split; [by exists members|done].
  - rewrite (Index_broadcast_no_room _ _ _ Hroom).
    assert (run (Server.broadcastToChannel channel obj) σ = (Ok (), σ)) as ->.
    { unfold Server.broadcastToChannel. mrun. by rewrite Hroom. }
    unfold new_effects, receives. cbn [snd]. rewrite drop_all.
    intros [Hin|Hin]; by apply elem_of_nil in Hin.
Qed.

Lemma broadcast_reaches_only_open_members_witness :
  let σ := room_of_two false in
  (receives 2%nat "message"
     (new_effects σ (run (Index.broadcastToChannel "7.050" (kind_frame "message")) σ).2) ∨
   receives 2%nat "message"
     (new_effects σ (run (Server.broadcastToChannel "7.050" (kind_frame "message")) σ).2)) ∧
  joined 2%nat "7.050" σ ∧ is_open σ 2%nat = true ∧
  "message" = JSON_stringify (kind_frame "message").
Proof.
  assert (receives 2%nat "message"
            (new_effects (room_of_two false)
               (run (Index.broadcastToChannel "7.050" (kind_frame "message"))
                    (room_of_two false)).2)) as Hin.
  { unfold receives. vm_compute. right. right. left. }
  cbn zeta. split; [by left|].
  exact (@broadcast_reaches_only_open_members kind_runtime (room_of_two false)
           "7.050" (kind_frame "message") 2%nat "message" (or_introl Hin)).
Defined.

(** ** Closing a connection *)

Section Closing.
Context `{!JsRuntime}.

Lemma left_not_joined (channel : string) (ws : WsId) (members : list WsId)
    (r : gmap string (list WsId)) (σ' : World) :
  rooms σ' = (if bool_decide (length (set_delete ws members) = 0%nat)
              then delete channel r
              else <[channel := set_delete ws members]> r) →
  ¬ joined ws channel σ'.
Proof.
  intros Hr (ms & Hms & Hin). rewrite Hr in Hms. case_bool_decide.
  - by rewrite lookup_delete_eq in Hms.
  - rewrite lookup_insert_eq in Hms. injection Hms as <-.
    by apply set_delete_absent in Hin.
Qed.

Lemma socket_of_set_rooms (r : gmap string (list WsId)) (σ : World) (ws : WsId) :
  socket_of (set_rooms r σ) ws = socket_of σ ws.
Proof. reflexivity. Qed.

Lemma left_other_rooms (channel other : string) (ws : WsId) (members : list WsId)
    (r : gmap string (list WsId)) :
  other ≠ channel →
  (if bool_decide (length (set_delete ws members) = 0%nat)
   then delete channel r
   else <[channel := set_delete ws members]> r) !! other = r !! other.
Proof.
  intros Hne. case_bool_decide.
  - by rewrite lookup_delete_ne.
  - by rewrite lookup_insert_ne.
Qed.

End Closing.

(** X6. The [close] event of a connection that [src/server.js] joined:
    the socket is out of the room of its channel, its heartbeat timer is
    cleared, the other rooms are as they were, and a tick that would
    still be queued for it does nothing at all. *)
Theorem Server_close_deregisters `{!JsRuntime}
    (ws : WsId) (cl : Closure) (σ : World) :
  handlers (socket_of σ ws) = Some cl →
  let σ' := (run (Server.deliver (Close ws)) σ).2 in
  ¬ joined ws (cl_channel cl) σ' ∧
  interval (socket_of σ' ws) = false ∧
  readyState (socket_of σ' ws) = CLOSED ∧
  (∀ other, other ≠ cl_channel cl → rooms σ' !! other = rooms σ !! other) ∧
  run (Server.deliver (Tick ws)) σ' = (Ok (), σ').
Proof.
  intros Hcl σ'. subst σ'. cbn [Server.deliver]. unfold transport_closed. mrun.
  rewrite (field_update handlers) by done. rewrite Hcl.
  set (σ1 := update_socket ws (with_readyState CLOSED) σ).
  assert (readyState (socket_of σ1 ws) = CLOSED) as Hclosed
    by (subst σ1; by rewrite socket_of_update_eq).
  assert (handlers (socket_of σ1 ws) = Some cl) as Hcl1
    by (subst σ1; by rewrite (field_update handlers)).
  destruct (rooms σ1 !! cl_channel cl) as [members|] eqn:Hroom.
  - rewrite (Server_on_close_run _ _ _ _ Hroom). cbn [snd].
    split; [by eapply left_not_joined|].
    rewrite !socket_of_set_rooms, !socket_of_update_eq.
    split; [done|]. split; [done|].
    split; [intros other Hne; cbn [rooms set_rooms]; by rewrite left_other_rooms|].
    mrun. cbn [handlers interval with_interval]. by rewrite Hcl1.
  - unfold Server.on_close, Server.cleanupChannelIfEmpty.
    mrun. rewrite Hroom. mrun. rewrite Hroom. mrun.
    split; [intros (ms & Hms & _); autorewrite with world in Hms; congruence|].
    rewrite !socket_of_update_eq.
    split; [done|]. split; [done|]. split; [done|].
    cbn [handlers interval with_interval]. by rewrite Hcl1.
Qed.

Lemma Server_close_deregisters_witness :
  let σ := after Server.deliver
             [Connection 1%nat false (k1abc_on (Some "7.050"));
              Connection 2%nat false (w1aw_on (Some "7.050"))] empty_world in
  handlers (socket_of σ 1%nat) = Some {| cl_channel := "7.050"; cl_callsign := "K1ABC" |} ∧
  rooms (run (Server.deliver (Close 1%nat)) σ).2 !! "7.050" = Some [2%nat] ∧
  ¬ joined 1%nat "7.050" (run (Server.deliver (Close 1%nat)) σ).2.
Proof.
  cbn zeta. split; [reflexivity|]. split; [reflexivity|].
  exact (proj1 (@Server_close_deregisters kind_runtime 1%nat
                  {| cl_channel := "7.050"; cl_callsign := "K1ABC" |}
                  (after Server.deliver
                     [Connection 1%nat false (k1abc_on (Some "7.050"));
                      Connection 2%nat false (w1aw_on (Some "7.050"))] empty_world)
                  (eq_refl _))).
Defined.

(** X7. The [close] event of a connection whose listeners
    [src/index.js] registered: the socket is out of the room of its
    channel, the other rooms are as they were, and the server emits
    nothing and writes nothing to the store. *)
Theorem Index_close_deregisters `{!JsRuntime}
    (ws : WsId) (cl : Closure) (σ : World) :
  handlers (socket_of σ ws) = Some cl →
  let σ' := (run (Index.deliver (Close ws)) σ).2 in
  ¬ joined ws (cl_channel cl) σ' ∧
  (∀ other, other ≠ cl_channel cl → rooms σ' !! other = rooms σ !! other) ∧
  trace σ' = trace σ ∧ stations σ' = stations σ.
Proof.
  intros Hcl σ'. subst σ'. cbn [Index.deliver]. unfold transport_closed. mrun.
  rewrite (field_update handlers) by done. rewrite Hcl. unfold Index.on_close.
  set (σ1 := update_socket ws (with_readyState CLOSED) σ).
  destruct (rooms σ1 !! cl_channel cl) as [members|] eqn:Hroom.
  - rewrite (Index_leaveRoom_run _ _ _ _ Hroom). cbn [snd].
    split; [by eapply left_not_joined|].
    split; [intros other Hne; cbn [rooms set_rooms]; by rewrite left_other_rooms|].
    done.
  - unfold Index.leaveRoom. mrun. rewrite Hroom. mrun.
    split; [intros (ms & Hms & _); congruence|done].
Qed.

Lemma Index_close_deregisters_witness :
  handlers (socket_of two_joined 1%nat)
    = Some {| cl_channel := "7.050"; cl_callsign := "K1ABC" |} ∧
  rooms (run (Index.deliver (Close 1%nat)) two_joined).2 !! "7.050" = Some [2%nat] ∧
  ¬ joined 1%nat "7.050" (run (Index.deliver (Close 1%nat)) two_joined).2.
Proof.
  split; [reflexivity|]. split; [reflexivity|].
  exact (proj1 (@Index_close_deregisters kind_runtime 1%nat
                  {| cl_channel := "7.050"; cl_callsign := "K1ABC" |}
                  two_joined (eq_refl _))).
Defined.

(** ** A join that the store refuses ([src/server.js]) *)

Lemma socket_of_set_trace (t : list Effect) (σ : World) (ws : WsId) :
  socket_of (set_trace t σ) ws = socket_of σ ws.
Proof. reflexivity. Qed.

Lemma ws_close_keeps_field {T : Type} (field : WebSocket → T) (ws w : WsId) (σ : World) :
  (∀ st s, field (with_readyState st s) = field s) →
  field (socket_of (run (ws_close ws) σ).2 w) = field (socket_of σ w).
Proof.
  intros Hf. unfold ws_close. mrun.
  rewrite (field_update field); [done|].
  intros s. by destruct (_ || _).
Qed.

(** X8. When the presence upsert of a join fails, [src/server.js] closes
    the socket and sends no [hello], but the connection has already been
    added to the room and no listener has been registered yet: it is
    still a member of the room after its [close] event. *)
Theorem Server_refused_join_stays_member `{!JsRuntime}
    (ws : WsId) (raises : bool) (req : Request) (σ : World) :
  norm (param_callsign req) ≠ "" →
  dbUp σ = false →
  let callsign := norm (param_callsign req) in
  let channel := or_else (param_channel req) Server.DEFAULT_CHANNEL in
  let σ1 := (run (Server.deliver (Connection ws raises req)) σ).2 in
  let σ2 := (run (Server.deliver (Close ws)) σ1).2 in
  emitted σ σ1 [EQuery (UpsertStation callsign channel); EClose ws] ∧
  stations σ1 = stations σ ∧
  handlers (socket_of σ1 ws) = None ∧
  interval (socket_of σ1 ws) = false ∧
  joined ws channel σ1 ∧
  rooms σ2 = rooms σ1 ∧
  joined ws channel σ2.
Proof.
  intros Hcs Hdown callsign channel σ1 σ2.
  assert (emitted σ σ1 [EQuery (UpsertStation callsign channel); EClose ws] ∧
          stations σ1 = stations σ ∧
          handlers (socket_of σ1 ws) = None ∧
          interval (socket_of σ1 ws) = false ∧
          rooms σ1 = joined_rooms channel ws (rooms σ)) as (Hem & Hst & Hh & Hiv & Hr).
  { subst σ1. cbn [Server.deliver]. rewrite run_bind. cbn [run accept modify].
    set (σa := set_sockets _ σ).
    assert (handlers (socket_of σa ws) = None ∧ interval (socket_of σa ws) = false)
      as [Hha Hiva].
    { subst σa. unfold socket_of. cbn. by rewrite lookup_insert_eq. }
    unfold Server.connection, try_catch. cbn [run]. fold callsign channel.
    rewrite (truthy_nonempty callsign Hcs).
    rewrite (or_else_truthy _ _ DEFAULT_CHANNEL_truthy : truthy channel = true).
    cbn [negb orb]. mrun.
    join_inline σa channel Hroom.
    all: rewrite run_query; mrun.
    all: replace (dbUp σa) with false by (subst σa; by rewrite <- Hdown).
    all: cbn [snd fst].
    all: split; [unfold emitted, ws_close; mrun; subst σa; cbn; by rewrite <- app_assoc|].
    all: split; [unfold ws_close; mrun; by subst σa|].
    all: split; [rewrite (ws_close_keeps_field handlers) by done; mrun;
                 rewrite socket_of_set_trace, !(field_update handlers) by done;
                 first [exact Hha | by rewrite socket_of_set_rooms] |].
    all: split; [rewrite (ws_close_keeps_field interval) by done; mrun;
                 rewrite socket_of_set_trace, !(field_update interval) by done;
                 first [exact Hiva | by rewrite socket_of_set_rooms] |].
    all: unfold ws_close; mrun; by subst σa. }
  split; [done|]. split; [done|]. split; [done|]. split; [done|].
  split; [by eapply joined_rooms_joined|].
  assert (rooms σ2 = rooms σ1) as Hr2.
  { subst σ2. cbn [Server.deliver]. unfold transport_closed. mrun.
    rewrite (field_update handlers) by done. by rewrite Hh. }
  split; [done|]. eapply joined_rooms_joined. by rewrite Hr2.
Qed.

Lemma Server_refused_join_stays_member_witness :
  let σ := {| rooms := ∅; sockets := ∅; stations := ∅; messages := [];
              dbUp := false; clock := 0; trace := [] |} in
  norm (param_callsign (k1abc_on (Some "7.050"))) ≠ "" ∧
  dbUp σ = false ∧
  joined 1%nat "7.050"
    (after Server.deliver
       [Connection 1%nat false (k1abc_on (Some "7.050")); Close 1%nat] σ).
Proof.
  cbn zeta. split; [discriminate|]. split; [reflexivity|].
  exact (proj2 (proj2 (proj2 (proj2 (proj2 (proj2
    (@Server_refused_join_stays_member kind_runtime 1%nat false
       (k1abc_on (Some "7.050"))
       {| rooms := ∅; sockets := ∅; stations := ∅; messages := [];
          dbUp := false; clock := 0; trace := [] |}
       ltac:(discriminate) (eq_refl false)))))))).
Defined.

(** ** What the periodic timers do to the presence store *)

Lemma run_ws_ping_open (ws : WsId) (σ : World) :
  is_open σ ws = true → writable σ ws →
  run (ws_ping ws) σ = (Ok (), set_trace (trace σ ++ [EPing ws]) σ).
Proof.
  intros Hopen Hw. pose proof (open_not_connecting _ _ Hopen) as Hc.
  unfold ws_ping. rewrite run_bind. cbn [run gets].
  unfold writable in Hw. unfold is_open in Hopen. by rewrite Hw, Hc, Hopen.
Qed.

Lemma touch_channel_lookup (callsign channel : string) (now : Z)
    (table : gmap string Station) :
  (table !! callsign = None →
   alter (touch_channel channel now) callsign table = table) ∧
  (∀ r, table !! callsign = Some r →
        alter (touch_channel channel now) callsign table !! callsign
        = Some {| st_channel := channel; st_mode := st_mode r; st_last_seen := now |}).
Proof.
  split.
  - intros Hnone. apply map_eq. intros k.
    destruct (decide (callsign = k)) as [->|Hne].
    + by rewrite lookup_alter_eq, Hnone.
    + by rewrite lookup_alter_ne.
  - intros r Hr. by rewrite lookup_alter_eq, Hr.
Qed.

(** X9. A tick of the periodic timer with the store up: [src/server.js]
    pings the socket, and both it and the earlier server set [last_seen]
    of the connection's callsign to [now()] and its channel to the
    connection's channel. The statement is an update: a callsign that
    has no record gets none. *)
Theorem timer_refreshes_existing_record `{!JsRuntime}
    (cl : Closure) (ws : WsId) (σ : World) :
  dbUp σ = true →
  is_open σ ws = true →
  writable σ ws →
  let refreshed := alter (touch_channel (cl_channel cl) (clock σ)) (cl_callsign cl)
                     (stations σ) in
  let stmt := TouchStationChannel (cl_callsign cl) (cl_channel cl) in
  (∃ σ', run (Server.heartbeat cl ws) σ = (Ok (), σ') ∧
         stations σ' = refreshed ∧ emitted σ σ' [EPing ws; EQuery stmt]) ∧
  (∃ σ', run (Part000.iv cl ws) σ = (Ok (), σ') ∧
         stations σ' = refreshed ∧ emitted σ σ' [EQuery stmt]) ∧
  (stations σ !! cl_callsign cl = None → refreshed = stations σ) ∧
  (∀ r, stations σ !! cl_callsign cl = Some r →
        refreshed !! cl_callsign cl
        = Some {| st_channel := cl_channel cl; st_mode := st_mode r;
                  st_last_seen := clock σ |}).
Proof.
  intros Hup Hopen Hw refreshed stmt. split; [|split].
  - unfold Server.heartbeat, try_catch. cbn [run]. mrun.
    rewrite run_ws_ping_open
      by (rewrite ?is_open_update, ?writable_update by done; done).
    mrun. rewrite run_query. mrun. rewrite Hup.
    eexists. split; [reflexivity|]. mrun. split; [done|].
    unfold emitted. by rewrite <- app_assoc.
  - unfold Part000.iv, try_catch. cbn [run]. rewrite run_query, Hup.
    eexists. split; [reflexivity|]. by mrun.
  - apply touch_channel_lookup.
Qed.

Lemma timer_refreshes_existing_record_witness :
  let σ := after Server.deliver
             [Connection 1%nat false (k1abc_on (Some "7.050"))] empty_world in
  dbUp σ = true ∧ is_open σ 1%nat = true ∧ writable σ 1%nat ∧
  ∃ σ', run (Server.heartbeat {| cl_channel := "7.050"; cl_callsign := "K1ABC" |}
               1%nat) σ = (Ok (), σ') ∧
        stations σ' = alter (touch_channel "7.050" (clock σ)) "K1ABC" (stations σ) ∧
        emitted σ σ' [EPing 1%nat; EQuery (TouchStationChannel "K1ABC" "7.050")].
Proof.
  cbn zeta. split; [reflexivity|]. split; [reflexivity|]. split; [reflexivity|].
  exact (proj1 (@timer_refreshes_existing_record kind_runtime
                  {| cl_channel := "7.050"; cl_callsign := "K1ABC" |} 1%nat
                  (after Server.deliver
                     [Connection 1%nat false (k1abc_on (Some "7.050"))] empty_world)
                  (eq_refl true) (eq_refl true) (eq_refl false))).
Defined.

Lemma ws_ping_keeps_store (ws : WsId) (σ : World) :
  stations (run (ws_ping ws) σ).2 = stations σ ∧
  dbUp (run (ws_ping ws) σ).2 = dbUp σ.
Proof.
  split.
  - apply (keeps_ws_ping stations). by intros ? ?.
  - apply (keeps_ws_ping dbUp). by intros ? ?.
Qed.

(** X10. A store that rejects during a tick costs the connection
    nothing: the timer callback of [src/server.js] returns normally, no
    record changes, and the connection keeps its room, its socket state,
    its listeners and its timer; nothing is closed. *)
Theorem timer_survives_store_failure `{!JsRuntime}
    (cl : Closure) (ws : WsId) (σ : World) :
  dbUp σ = false →
  let r := run (Server.heartbeat cl ws) σ in
  r.1 = Ok () ∧
  stations r.2 = stations σ ∧
  rooms r.2 = rooms σ ∧
  closes r.2 = closes σ ∧
  ∀ w, readyState (socket_of r.2 w) = readyState (socket_of σ w) ∧
       handlers (socket_of r.2 w) = handlers (socket_of σ w) ∧
       interval (socket_of r.2 w) = interval (socket_of σ w).
Proof.
  intros Hdown r. subst r.
  split; [apply heartbeat_returns|].
  split.
  - unfold Server.heartbeat. rewrite try_catch_keeps by apply keeps_ret.
    rewrite run_bind. cbn [run modify].
    set (σ1 := update_socket ws (with_isAlive false) σ).
    rewrite run_bind.
    destruct (ws_ping_keeps_store ws σ1) as [Hst Hdb].
    destruct (run (ws_ping ws) σ1) as [[[]|e] σ2]; cbn [snd] in *.
    + rewrite run_query. rewrite Hdb. subst σ1. autorewrite with world.
      rewrite Hdown. exact Hst.
    + exact Hst.
  - split; [apply heartbeat_keeps_rooms|].
    split; [apply heartbeat_keeps_closes|].
    intros w. split; [|split].
    + by apply (heartbeat_keeps_field readyState).
    + by apply (heartbeat_keeps_field handlers).
    + by apply (heartbeat_keeps_field interval).
Qed.

Lemma timer_survives_store_failure_witness :
  let σ := {| rooms := {[ "7.050" := [1%nat] ]};
              sockets := {[ 1%nat := accepted false ]};
              stations := ∅; messages := []; dbUp := false; clock := 0;
              trace := [] |} in
  dbUp σ = false ∧
  (run (Server.heartbeat {| cl_channel := "7.050"; cl_callsign := "K1ABC" |}
          1%nat) σ).1 = Ok ().
Proof.
  cbn zeta. split; [reflexivity|].
  exact (proj1 (@timer_survives_store_failure kind_runtime
                  {| cl_channel := "7.050"; cl_callsign := "K1ABC" |} 1%nat
                  {| rooms := {[ "7.050" := [1%nat] ]};
                     sockets := {[ 1%nat := accepted false ]};
                     stations := ∅; messages := []; dbUp := false; clock := 0;
                     trace := [] |}
                  (eq_refl false))).
Defined.

(** ** What an inbound frame cannot do *)

Section Frames.
Context `{!JsRuntime}.

Lemma keeps_Index_broadcast {T : Type} (proj : World → T) (channel : string) (obj : json) :
  ignores_trace proj → keeps proj (Index.broadcastToChannel channel obj).
Proof.
  intros Ht. unfold Index.broadcastToChannel.
  apply keeps_bind; [apply keeps_gets|intros [members|]]; [|apply keeps_ret].
  apply keeps_bind; [by apply keeps_stringify|intros data].
  apply keeps_for_of. intros w.
  apply keeps_bind; [apply keeps_gets|intros opened].
  apply keeps_if; [by apply keeps_ws_send|apply keeps_ret].
Qed.

Lemma keeps_closes_Index_broadcast (channel : string) (obj : json) :
  keeps closes (Index.broadcastToChannel channel obj).
Proof.
  unfold Index.broadcastToChannel.
  apply keeps_bind; [apply keeps_gets|intros [members|]]; [|apply keeps_ret].
  apply keeps_bind; [apply keeps_closes_stringify|intros data].
  apply keeps_for_of. intros w.
  apply keeps_bind; [apply keeps_gets|intros opened].
  apply keeps_if; [apply keeps_closes_ws_send|apply keeps_ret].
Qed.

Lemma keeps_Index_on_message {T : Type} (proj : World → T)
    (cl : Closure) (ws : WsId) (raw : string) :
  ignores_trace proj → ignores_stations proj →
  keeps proj (Index.on_message cl ws raw).
Proof.
  intros Ht Hs. unfold Index.on_message.
  destruct (JSON_parse raw) as [msg|]; [|apply keeps_ret].
  destruct (kind_is_ping msg); [|by apply keeps_Index_broadcast].
  apply keeps_bind; [|intros _].
  - apply keeps_if; [by apply keeps_query|apply keeps_ret].
  - apply keeps_bind; [by apply keeps_stringify|intros data].
    by apply keeps_ws_send.
Qed.

Lemma keeps_other_station (callsign other : string) :
  other ≠ callsign →
  keeps (λ σ, stations σ !! other) (query (TouchStation callsign)).
Proof.
  intros Hne σ. rewrite run_query. destruct (dbUp σ); [|done].
  cbn. by rewrite lookup_alter_ne.
Qed.

End Frames.

(** X11. Whatever a connection sends, the message listener of
    [src/index.js] changes no room, no socket and no stored message,
    closes nothing, and touches no presence record other than the
    sender's own: a frame can only refresh the sender's [last_seen] and
    cause writes to sockets. *)
Theorem inbound_frame_changes_no_membership `{!JsRuntime}
    (cl : Closure) (ws : WsId) (raw : string) (σ : World) :
  let σ' := (run (Index.on_message cl ws raw) σ).2 in
  rooms σ' = rooms σ ∧
  sockets σ' = sockets σ ∧
  messages σ' = messages σ ∧
  closes σ' = closes σ ∧
  ∀ other, other ≠ cl_callsign cl → stations σ' !! other = stations σ !! other.
Proof.
  cbn zeta.
  split; [by apply (keeps_Index_on_message rooms)|].
  split; [by apply (keeps_Index_on_message sockets)|].
  split; [by apply (keeps_Index_on_message messages)|].
  split.
  - revert σ. change (keeps closes (Index.on_message cl ws raw)).
    unfold Index.on_message.
    destruct (JSON_parse raw) as [msg|]; [|apply keeps_ret].
    destruct (kind_is_ping msg); [|apply keeps_closes_Index_broadcast].
    apply keeps_bind; [|intros _].
    + apply keeps_if; [apply keeps_closes_query|apply keeps_ret].
    + apply keeps_bind; [apply keeps_closes_stringify|intros data].
      apply keeps_closes_ws_send.
  - intros other Hne. revert σ.
    change (keeps (λ σ, stations σ !! other) (Index.on_message cl ws raw)).
    unfold Index.on_message.
    destruct (JSON_parse raw) as [msg|]; [|apply keeps_ret].
    destruct (kind_is_ping msg);
      [|apply keeps_Index_broadcast; by intros ? ?].
    apply keeps_bind; [|intros _].
    + apply keeps_if; [by apply keeps_other_station|apply keeps_ret].
    + apply keeps_bind; [apply keeps_stringify; by intros ? ?|intros data].
      apply keeps_ws_send. by intros ? ?.
Qed.

(** ** Queries of the form [where ... order by ... limit n] *)

Section Top.
Context {A : Type} (R : relation A) `{!∀ x y, Decision (R x y)}.
Context (P : A → Prop) `{!∀ x, Decision (P x)}.

Lemma top_sound (n : nat) (l : list A) (x : A) :
  x ∈ take n (merge_sort R (filter P l)) → x ∈ l ∧ P x.
Proof.
  intros Hin%subseteq_take. rewrite merge_sort_Permutation in Hin.
  apply list_elem_of_filter in Hin as [HP Hin]. done.
Qed.

Lemma top_complete (n : nat) (l : list A) (x : A) :
  (length l ≤ n)%nat → x ∈ l → P x → x ∈ take n (merge_sort R (filter P l)).
Proof.
  intros Hlen Hin HP. rewrite take_ge.
  - rewrite merge_sort_Permutation. by apply list_elem_of_filter.
  - rewrite merge_sort_Permutation. pose proof (length_filter P l). lia.
Qed.

Lemma top_length (n : nat) (l : list A) :
  (length (take n (merge_sort R (filter P l))) ≤ n)%nat.
Proof. rewrite length_take. lia. Qed.

Lemma top_sorted `{!Transitive R, !Total R} (n : nat) (l : list A) :
  StronglySorted R (take n (merge_sort R (filter P l))).
Proof.
  eapply StronglySorted_app_1_l. rewrite take_drop.
  by apply StronglySorted_merge_sort.
Qed.

Lemma top_NoDup {B : Type} (f : A → B) (n : nat) (l : list A) :
  NoDup (f <$> l) → NoDup (f <$> take n (merge_sort R (filter P l))).
Proof.
  intros Hnd.
  apply (sublist_NoDup _ (f <$> merge_sort R (filter P l))).
  - rewrite merge_sort_Permutation.
    apply (sublist_NoDup _ (f <$> l)); [done|].
    apply fmap_sublist, sublist_filter.
  - apply fmap_sublist, sublist_take.
Qed.

End Top.

(** ** Registering and listing stations *)

#[local] Instance seen_later_total : Total seen_later.
Proof. intros a b. unfold seen_later. lia. Qed.

#[local] Instance seen_later_transitive : Transitive seen_later.
Proof. intros a b c. unfold seen_later. lia. Qed.

Lemma upsert_station_lookup (callsign channel : string) (now : Z)
    (table : gmap string Station) :
  apply_sql (UpsertStation callsign channel) now table !! callsign
  = Some {| st_channel := channel;
            st_mode := match table !! callsign with
                       | Some r => st_mode r
                       | None => Some "morse"
                       end;
            st_last_seen := now |}.
Proof. cbn. destruct (table !! callsign); by rewrite lookup_insert_eq. Qed.

Lemma upsert_station_other (callsign channel other : string) (now : Z)
    (table : gmap string Station) :
  other ≠ callsign →
  apply_sql (UpsertStation callsign channel) now table !! other = table !! other.
Proof. intros Hne. cbn. destruct (table !! callsign); by rewrite lookup_insert_ne. Qed.

Lemma upsert_station_size (callsign channel : string) (now : Z)
    (table : gmap string Station) :
  (size (apply_sql (UpsertStation callsign channel) now table) ≤ S (size table))%nat.
Proof.
  cbn. destruct (table !! callsign) eqn:Hl.
  - rewrite map_size_insert_Some by eauto. lia.
  - by rewrite map_size_insert_None.
Qed.

Lemma Index_register_run (req : RegisterRequest) (σ : World) :
  norm (reg_callsign req) ≠ "" →
  dbUp σ = true →
  let callsign := norm (reg_callsign req) in
  let channel := or_else (reg_channel req) (or_else (reg_query_channel req) "7.050") in
  ∃ σ', run (Index_register req) σ = (Ok (Json (callsign, channel)), σ') ∧
    stations σ' = apply_sql (UpsertStation callsign channel) (clock σ) (stations σ) ∧
    rooms σ' = rooms σ ∧ sockets σ' = sockets σ ∧ messages σ' = messages σ ∧
    dbUp σ' = dbUp σ ∧ clock σ' = clock σ.
Proof.
  intros Hcs Hup callsign channel.
  unfold Index_register, try_catch. cbn [run].
  change (toUpperCase (trim (or_else (reg_callsign req) ""))) with callsign.
  fold channel. rewrite (truthy_nonempty callsign Hcs). cbn [negb].
  mrun. rewrite run_query, Hup. mrun.
  eexists. split; [reflexivity|]. by mrun.
Qed.

(** X12. A registration with a callsign, the store answering: the
    answer carries the normalised callsign and the channel (the one of
    the body, else the one of the query, else "7.050"), and the store
    holds one record for that callsign, on that channel, seen now; a
    record that existed keeps its mode, the other records are untouched,
    and the realtime state (rooms, sockets) is not involved. *)
Theorem register_stores_the_station
    (req : RegisterRequest) (σ : World) :
  norm (reg_callsign req) ≠ "" →
  dbUp σ = true →
  let callsign := norm (reg_callsign req) in
  let channel := or_else (reg_channel req) (or_else (reg_query_channel req) "7.050") in
  ∃ σ', run (Index_register req) σ = (Ok (Json (callsign, channel)), σ') ∧
    stations σ' !! callsign
      = Some {| st_channel := channel;
                st_mode := match stations σ !! callsign with
                           | Some r => st_mode r
                           | None => Some "morse"
                           end;
                st_last_seen := clock σ |} ∧
    (∀ other, other ≠ callsign → stations σ' !! other = stations σ !! other) ∧
    rooms σ' = rooms σ ∧ sockets σ' = sockets σ ∧ messages σ' = messages σ.
Proof.
  intros Hcs Hup callsign channel.
  destruct (Index_register_run req σ Hcs Hup)
    as (σ' & Hrun & Hst & Hrooms & Hsockets & Hmessages & _).
  exists σ'. split; [exact Hrun|]. rewrite Hst.
  split; [apply upsert_station_lookup|].
  split; [intros other Hne; by apply upsert_station_other|done].
Qed.

Lemma register_stores_the_station_witness :
  let req := {| reg_callsign := Some " k1abc "; reg_channel := None;
                reg_query_channel := Some "14.070" |} in
  norm (reg_callsign req) ≠ "" ∧ dbUp empty_world = true ∧
  ∃ σ', run (Index_register req) empty_world = (Ok (Json ("K1ABC", "14.070")), σ') ∧
        stations σ' !! "K1ABC"
        = Some {| st_channel := "14.070"; st_mode := Some "morse"; st_last_seen := 0 |}.
Proof.
  cbn zeta. split; [discriminate|]. split; [reflexivity|].
  destruct (register_stores_the_station
              {| reg_callsign := Some " k1abc "; reg_channel := None;
                 reg_query_channel := Some "14.070" |} empty_world
              ltac:(discriminate) (eq_refl true)) as (σ' & Hrun & Hst & _).
  exists σ'. split; [exact Hrun|exact Hst].
Defined.

(** X13. A registration that is not answered with [ok] has written
    nothing: without a callsign (missing, empty or blank) the answer is
    400 and the world is untouched, the store not even asked; and any
    error answer, of [src/index.js] or [src/server.js], leaves every
    presence record as it was. *)
Theorem register_error_writes_nothing `{!JsRuntime}
    (req : RegisterRequest) (σ : World) :
  (norm (reg_callsign req) = "" →
   run (Index_register req) σ = (Ok (Status 400 "callsign_required"), σ) ∧
   run (Server_register req) σ = (Ok (Status 400 "callsign_required"), σ)) ∧
  (∀ code error, (run (Index_register req) σ).1 = Ok (Status code error) →
                 stations (run (Index_register req) σ).2 = stations σ) ∧
  (∀ code error, (run (Server_register req) σ).1 = Ok (Status code error) →
                 stations (run (Server_register req) σ).2 = stations σ).
Proof.
  split; [|split].
  - intros Hcs. unfold Index_register, Server_register, try_catch. cbn [run].
    change (toUpperCase (trim (or_else (reg_callsign req) "")))
      with (norm (reg_callsign req)).
    by rewrite Hcs.
  - intros code error. unfold Index_register, try_catch. cbn [run].
    destruct (negb (truthy _)); [done|].
    mrun. rewrite run_query. by destruct (dbUp σ).
  - intros code error. unfold Server_register, try_catch. cbn [run].
    destruct (negb (truthy _)); [done|].
    mrun. rewrite run_query. by destruct (dbUp σ).
Qed.

Lemma fresh_iff (now : Z) (ttl : Q) (last_seen : Z) :
  fresh now ttl last_seen = true ↔ Qlt (inject_Z now - ttl) (inject_Z last_seen).
Proof.
  unfold fresh. rewrite negb_true_iff, <- not_true_iff_false, Qle_bool_iff.
  split; [apply Qnot_le_lt|apply Qlt_not_le].
Qed.

Lemma fresh_now (now : Z) (ttl : Q) :
  Qlt 0 ttl → fresh now ttl now = true.
Proof.
  intros Httl. apply fresh_iff.
  destruct ttl as [n d]. unfold Qlt, Qminus, Qplus, Qopp, inject_Z in *.
  cbn in *. nia.
Qed.

Lemma run_query_online (on_channel : string → bool) (ttl : Q) (σ : World) :
  dbUp σ = true →
  run (query_online on_channel (Some ttl)) σ
  = (Ok (select_online on_channel (clock σ) ttl (stations σ)), σ).
Proof. intros Hup. unfold query_online. mrun. rewrite Hup. by mrun. Qed.

Lemma select_online_sound (on_channel : string → bool) (now : Z) (ttl : Q)
    (table : gmap string Station) (r : OnlineRow) :
  r ∈ select_online on_channel now ttl table →
  ∃ st, table !! on_callsign r = Some st ∧ r = online_row (on_callsign r, st) ∧
        on_channel (st_channel st) = true ∧ fresh now ttl (st_last_seen st) = true.
Proof.
  unfold select_online. intros ([cs st] & -> & Hin)%list_elem_of_fmap.
  apply top_sound in Hin as [Hin [Hch Hfr]].
  apply elem_of_map_to_list in Hin. by exists st.
Qed.

Lemma select_online_complete (on_channel : string → bool) (now : Z) (ttl : Q)
    (table : gmap string Station) (cs : string) (st : Station) :
  (size table ≤ 200)%nat →
  table !! cs = Some st →
  on_channel (st_channel st) = true →
  fresh now ttl (st_last_seen st) = true →
  online_row (cs, st) ∈ select_online on_channel now ttl table.
Proof.
  intros Hsz Hl Hch Hfr. unfold select_online.
  apply list_elem_of_fmap. exists (cs, st). split; [done|].
  apply top_complete; [by rewrite length_map_to_list| |done].
  by apply elem_of_map_to_list.
Qed.

Lemma select_online_sorted (on_channel : string → bool) (now : Z) (ttl : Q)
    (table : gmap string Station) :
  StronglySorted (λ a b, on_last_seen b ≤ on_last_seen a)
    (select_online on_channel now ttl table).
Proof.
  unfold select_online.
  apply (StronglySorted_fmap online_row seen_later); [done|].
  apply top_sorted; apply _.
Qed.

Lemma select_online_unique (on_channel : string → bool) (now : Z) (ttl : Q)
    (table : gmap string Station) :
  NoDup (on_callsign <$> select_online on_channel now ttl table).
Proof.
  unfold select_online. rewrite <- list_fmap_compose.
  apply top_NoDup. apply NoDup_fst_map_to_list.
Qed.

(** X14. The online list of [src/index.js], the store answering and the
    time-to-live a number: the route changes nothing and answers with
    stored stations only, each on the asked channel ("7.050" when none
    is asked) and seen within the time-to-live, the latest seen first,
    no callsign twice and at most 200 of them; while the store holds at
    most 200 stations, every such station is listed. *)
Theorem online_lists_fresh_stations_of_channel `{!JsRuntime}
    (q_channel : option string) (ttl : Q) (σ : World) :
  station_ttl 60 = Some ttl →
  dbUp σ = true →
  let channel := or_else q_channel "7.050" in
  ∃ rows, run (Index_online q_channel) σ = (Ok (Json rows), σ) ∧
    (∀ r, r ∈ rows →
       ∃ st, stations σ !! on_callsign r = Some st ∧
             r = online_row (on_callsign r, st) ∧
             st_channel st = channel ∧
             Qlt (inject_Z (clock σ) - ttl) (inject_Z (st_last_seen st))) ∧
    StronglySorted (λ a b, on_last_seen b ≤ on_last_seen a) rows ∧
    NoDup (on_callsign <$> rows) ∧
    (length rows ≤ 200)%nat ∧
    ((size (stations σ) ≤ 200)%nat →
     ∀ cs st, stations σ !! cs = Some st →
              st_channel st = channel →
              Qlt (inject_Z (clock σ) - ttl) (inject_Z (st_last_seen st)) →
              online_row (cs, st) ∈ rows).
Proof.
  intros Httl Hup channel.
  exists (select_online (String.eqb channel) (clock σ) ttl (stations σ)).
  split; [|split; [|split; [|split; [|split]]]].
  - unfold Index_online, try_catch. cbn [run]. fold channel.
    rewrite Httl. mrun. rewrite run_query_online by done. by mrun.
  - intros r (st & Hl & Hr & Hch & Hfr)%select_online_sound.
    exists st. split; [done|]. split; [done|].
    split; [symmetry; by apply String.eqb_eq|by apply fresh_iff].
  - apply select_online_sorted.
  - apply select_online_unique.
  - unfold select_online. rewrite length_fmap. apply top_length.
  - intros Hsz cs st Hl Hch Hfr. apply select_online_complete; try done.
    + apply String.eqb_eq. by rewrite Hch.
    + by apply fresh_iff.
Qed.

Lemma online_lists_fresh_stations_of_channel_witness :
  @station_ttl kind_runtime 60 = Some (inject_Z 60) ∧ dbUp two_joined = true ∧
  ∃ rows, run (Index_online None) two_joined = (Ok (Json rows), two_joined) ∧
          NoDup (on_callsign <$> rows) ∧ (length rows ≤ 200)%nat.
Proof.
  split; [reflexivity|]. split; [reflexivity|].
  destruct (@online_lists_fresh_stations_of_channel kind_runtime None (inject_Z 60)
              two_joined (eq_refl (Some (inject_Z 60))) (eq_refl true))
    as (rows & Hrun & _ & _ & Hnd & Hlen & _).
  exists rows. split; [exact Hrun|]. split; [exact Hnd|exact Hlen].
Defined.

Lemma or_else_fixed (s d : string) : truthy s = true → or_else (Some s) d = s.
Proof. intros Hs. cbn. by rewrite Hs. Qed.

(** X15. Registering, then asking who is online ([src/index.js]): with
    a positive time-to-live and fewer than 200 stations in the store,
    the station that has just registered is on the online list of its
    channel, seen at the time of the registration, and on the list of no
    other channel. *)
Theorem registered_station_is_online `{!JsRuntime}
    (req : RegisterRequest) (ttl : Q) (σ : World) :
  norm (reg_callsign req) ≠ "" →
  dbUp σ = true →
  station_ttl 60 = Some ttl →
  Qlt 0 ttl →
  (size (stations σ) < 200)%nat →
  let callsign := norm (reg_callsign req) in
  let channel := or_else (reg_channel req) (or_else (reg_query_channel req) "7.050") in
  let σ' := (run (Index_register req) σ).2 in
  (∃ rows r, run (Index_online (Some channel)) σ' = (Ok (Json rows), σ') ∧
             r ∈ rows ∧ on_callsign r = callsign ∧ on_channel r = channel ∧
             on_last_seen r = clock σ) ∧
  (∀ other, or_else other "7.050" ≠ channel →
     ∃ rows, run (Index_online other) σ' = (Ok (Json rows), σ') ∧
             callsign ∉ on_callsign <$> rows).
Proof.
  intros Hcs Hup Httl Hpos Hsz callsign channel σ'.
  destruct (Index_register_run req σ Hcs Hup)
    as (σ1 & Hrun & Hst & _ & _ & _ & Hup1 & Hclock1).
  fold callsign channel in Hrun, Hst.
  assert (σ' = σ1) as -> by (unfold σ'; by rewrite Hrun).
  rewrite Hup in Hup1.
  assert (truthy channel = true) as Hch
    by (unfold channel; by do 2 apply or_else_truthy).
  assert (∀ q_channel,
            run (Index_online q_channel) σ1
            = (Ok (Json (select_online (String.eqb (or_else q_channel "7.050"))
                           (clock σ1) ttl (stations σ1))), σ1)) as Hlist.
  { intros q_channel. unfold Index_online, try_catch. cbn [run].
    rewrite Httl. mrun. rewrite run_query_online by done. by mrun. }
  pose proof (upsert_station_lookup callsign channel (clock σ) (stations σ)) as Hrec.
  rewrite <- Hst in Hrec.
  split.
  - match type of Hrec with
    | _ = Some ?st => eexists _, (online_row (callsign, st))
    end.
    split; [apply Hlist|]. split; [|done].
    rewrite (or_else_fixed channel) by done.
    apply select_online_complete.
    + rewrite Hst. pose proof (upsert_station_size callsign channel (clock σ) (stations σ)).
      lia.
    + exact Hrec.
    + apply String.eqb_refl.
    + cbn [st_last_seen]. rewrite Hclock1. by apply fresh_now.
  - intros other Hother. eexists. split; [apply Hlist|].
    intros (r & Hr & Hin)%list_elem_of_fmap.
    apply select_online_sound in Hin as (st & Hl & _ & Heq & _).
    rewrite <- Hr, Hrec in Hl. injection Hl as <-.
    apply String.eqb_eq in Heq. by cbn in Heq.
Qed.

Lemma registered_station_is_online_witness :
  let req := {| reg_callsign := Some " k1abc "; reg_channel := Some "14.070";
                reg_query_channel := None |} in
  let σ' := (run (Index_register req) two_joined).2 in
  norm (reg_callsign req) ≠ "" ∧ dbUp two_joined = true ∧
  @station_ttl kind_runtime 60 = Some (inject_Z 60) ∧ Qlt 0 (inject_Z 60) ∧
  (size (stations two_joined) < 200)%nat ∧
  (∃ rows r, run (Index_online (Some "14.070")) σ' = (Ok (Json rows), σ') ∧
             r ∈ rows ∧ on_callsign r = "K1ABC") ∧
  (∃ rows, run (Index_online (Some "7.050")) σ' = (Ok (Json rows), σ') ∧
           "K1ABC" ∉ on_callsign <$> rows).
Proof.
  cbn zeta.
  assert ((size (stations two_joined) < 200)%nat) as Hsz by (vm_compute; lia).
  split; [discriminate|]. split; [reflexivity|]. split; [reflexivity|].
  split; [reflexivity|]. split; [exact Hsz|].
  destruct (@registered_station_is_online kind_runtime
              {| reg_callsign := Some " k1abc "; reg_channel := Some "14.070";
                 reg_query_channel := None |} (inject_Z 60) two_joined
              ltac:(discriminate) (eq_refl true) (eq_refl (Some (inject_Z 60)))
              (eq_refl Lt) Hsz) as [(rows & r & Hrun & Hin & Hcs & _) Hother].
  split.
  - exists rows, r. split; [exact Hrun|]. split; [exact Hin|exact Hcs].
  - apply (Hother (Some "7.050")). discriminate.
Defined.

(** ** Posting a message *)

Lemma reached_sockets (σ1 σ2 : World) (members : list WsId) :
  sockets σ1 = sockets σ2 → reached σ1 members = reached σ2 members.
Proof.
  intros Hs. induction members as [|w rest IH]; [done|].
  cbn [reached]. unfold is_open, socket_of. by rewrite Hs, IH.
Qed.

Section Post.
Context `{!JsRuntime}.

Lemma run_insert_message (id : Z) (channel from : string) (to : option string)
    (type text : string) (p : json) (σ : World) :
  dbUp σ = true → JSON_parse text = Some p →
  run (insert_message id channel from to type text) σ
  = (Ok (id, clock σ),
     set_messages (messages σ ++
                   [{| m_id := id; m_channel := channel; m_from_callsign := from;
                       m_to_callsign := to; m_type := type; m_payload := p;
                       m_created_at := clock σ |}]) σ).
Proof. intros Hup Hp. unfold insert_message. mrun. rewrite Hup, Hp. by mrun. Qed.

Lemma Index_post_message_run (nextval : Z) (body : MessageBody) (stored : json)
    (σ : World) :
  post_from body ≠ "" →
  dbUp σ = true →
  JSON_parse (JSON_stringify (payload_or_empty (msg_payload body))) = Some stored →
  let p := payload_or_empty (msg_payload body) in
  let msg := post_row nextval body p (clock σ) in
  let members := default [] (rooms σ !! post_channel body) in
  ∃ σ', run (Index_post_message nextval body) σ
        = (Ok (if (reached σ members).2 then Json msg else Status 500 "send_failed"), σ') ∧
    messages σ' = messages σ ++
                  [{| m_id := nextval; m_channel := post_channel body;
                      m_from_callsign := post_from body;
                      m_to_callsign := recipient (msg_toCallsign body);
                      m_type := or_else (msg_type body) "CW_MORSE";
                      m_payload := stored; m_created_at := clock σ |}] ∧
    stations σ' = apply_sql (UpsertStation (post_from body) (post_channel body))
                    (clock σ) (stations σ) ∧
    rooms σ' = rooms σ ∧ sockets σ' = sockets σ ∧
    dbUp σ' = dbUp σ ∧ clock σ' = clock σ ∧
    new_effects σ σ'
    = [ESerialize p; EQuery (UpsertStation (post_from body) (post_channel body))] ++
      match rooms σ !! post_channel body with
      | Some _ => ESerialize (message_event msg) ::
                  ((λ w, ESend w (JSON_stringify (message_event msg)))
                     <$> (reached σ members).1)
      | None => []
      end.
Proof.
  intros Hfrom Hup Hparse p msg members.
  unfold Index_post_message, try_catch. cbn [run].
  change (toUpperCase (trim (or_else (msg_fromCallsign body) ""))) with (post_from body).
  fold (post_channel body). fold p.
  rewrite (truthy_nonempty _ Hfrom). cbn [negb].
  mrun. rewrite (run_insert_message _ _ _ _ _ _ stored) by done.
  mrun. rewrite run_query. cbn [set_messages dbUp clock stations trace].
  mrun. rewrite Hup. mrun.
  fold msg. unfold new_effects, members.
  destruct (rooms σ !! post_channel body) as [ms|] eqn:Hroom.
  - rewrite (Index_broadcast_run _ _ _ ms) by done.
    rewrite (reached_sockets _ σ) by done. cbn [default from_option id].
    destruct (reached σ ms).2; mrun.
    all: eexists; split; [reflexivity|]; mrun.
    all: repeat (split; [done|]).
    all: rewrite <- !app_assoc, drop_app_length; done.
  - rewrite Index_broadcast_no_room by done. cbn [default from_option id reached snd]. mrun.
    eexists; split; [reflexivity|]; mrun.
    repeat (split; [done|]).
    rewrite <- !app_assoc, drop_app_length; done.
Qed.

Lemma reached_raises (σ : World) (members : list WsId) (w : WsId) :
  w ∈ members → is_open σ w = true → sendRaises (socket_of σ w) = true →
  (reached σ members).2 = false.
Proof.
  intros Hin Hopen Hr. induction members as [|v rest IH]; [by apply elem_of_nil in Hin|].
  cbn [reached]. apply elem_of_cons in Hin as [<-|Hin].
  - by rewrite Hopen, Hr.
  - destruct (is_open σ v); [|by apply IH].
    destruct (sendRaises (socket_of σ v)); [done|by apply IH].
Qed.

Lemma Index_recent_run (q_channel q_limit : option string) (n : Z) (σ : World) :
  dbUp σ = true →
  requested_limit q_limit = Some (inject_Z n) →
  (run (Index_recent q_channel q_limit) σ).1
  = Ok (Messages (reverse (select_recent (or_else q_channel "7.050")
                             (Z.min 200 (Z.max 1 n)) (messages σ)))).
Proof.
  intros Hup Hlimit.
  unfold Index_recent, try_catch. cbn [run]. rewrite Hlimit, clamp_inject_Z.
  rewrite run_bind, (query_rows_run _ _ _ Hup) by lia.
  cbn. by rewrite copy_row_id.
Qed.

Lemma select_recent_latest (channel : string) (limit : Z) (table : list Message)
    (m : Message) :
  0 < limit → m_channel m = channel →
  (∀ x, x ∈ table → m_id x < m_id m) →
  head (select_recent channel limit (table ++ [m])) = Some (row_of m).
Proof.
  intros Hlimit Hch Hnew. unfold select_recent.
  set (sorted := merge_sort newer_first
                   (filter (λ m, m_channel m = channel) (table ++ [m]))).
  assert (m ∈ sorted) as Hin.
  { subst sorted. rewrite merge_sort_Permutation. apply list_elem_of_filter.
    split; [done|]. apply elem_of_app. right. by left. }
  assert (StronglySorted newer_first sorted) as Hss
    by (apply StronglySorted_merge_sort; apply _).
  assert (∀ x, x ∈ sorted → x = m ∨ m_id x < m_id m) as Hold.
  { intros x Hx. subst sorted. rewrite merge_sort_Permutation in Hx.
    apply list_elem_of_filter in Hx as [_ Hx].
    apply elem_of_app in Hx as [Hx|Hx]; [right; by apply Hnew|].
    left. by apply list_elem_of_singleton in Hx. }
  destruct (Z.to_nat limit) as [|k] eqn:Hk; [lia|].
  destruct sorted as [|h rest]; [by apply elem_of_nil in Hin|].
  cbn. f_equal. f_equal.
  apply elem_of_cons in Hin as [->|Hin]; [done|].
  apply StronglySorted_inv in Hss as [_ Hall].
  rewrite Forall_forall in Hall. specialize (Hall m Hin). unfold newer_first in Hall.
  destruct (Hold h) as [->|Hlt]; [by left|done|lia].
Qed.

(** X16. A post with a sender, the store answering and taking the
    payload text back as the payload [p] it came from, no member write
    throwing: the route answers with the message [msg] (id from the
    sequence, creation time the time of the insert, the channel "7.050"
    and the type "CW_MORSE" unless given), the table [messages] has
    grown by exactly that row, the sender is recorded on the channel as
    seen now, the rooms stay as they were, and the connections that are
    handed the text of [{ kind: "message", data: msg }] are exactly the
    open members of the room of the channel. *)
Theorem post_stores_and_reaches_the_room
    (nextval : Z) (body : MessageBody) (σ : World) :
  let p := payload_or_empty (msg_payload body) in
  let msg := post_row nextval body p (clock σ) in
  post_from body ≠ "" →
  dbUp σ = true →
  JSON_parse (JSON_stringify p) = Some p →
  (∀ w, joined w (post_channel body) σ → is_open σ w = true → writable σ w) →
  ∃ σ' m, run (Index_post_message nextval body) σ = (Ok (Json msg), σ') ∧
    messages σ' = messages σ ++ [m] ∧ row_of m = msg ∧
    (∃ st, stations σ' !! post_from body = Some st ∧
           st_channel st = post_channel body ∧ st_last_seen st = clock σ) ∧
    rooms σ' = rooms σ ∧
    ∀ w data, receives w data (new_effects σ σ') ↔
              data = JSON_stringify (message_event msg) ∧
              joined w (post_channel body) σ ∧ is_open σ w = true.
Proof.
  intros p msg Hfrom Hup Hparse Hw.
  destruct (Index_post_message_run nextval body p σ Hfrom Hup Hparse)
    as (σ' & Hrun & Hms & Hst & Hrooms & _ & _ & _ & Hfx).
  fold p msg in Hrun, Hfx.
  assert (reached σ (default [] (rooms σ !! post_channel body))
          = (filter (λ w, is_open σ w = true)
               (default [] (rooms σ !! post_channel body)), true)) as Hreached.
  { apply reached_all_writable. intros w Hin. apply Hw.
    destruct (rooms σ !! post_channel body) as [ms|] eqn:Hroom;
      [by exists ms|by apply elem_of_nil in Hin]. }
  rewrite Hreached in Hrun, Hfx. cbn [fst snd] in Hrun, Hfx.
  eexists σ', _. split; [exact Hrun|]. split; [exact Hms|]. split; [done|].
  split; [|split; [done|]].
  - rewrite Hst, upsert_station_lookup. by eexists.
  - intros w data. unfold receives, joined. rewrite Hfx.
    destruct (rooms σ !! post_channel body) as [ms|] eqn:Hroom; cbn [default from_option id].
    + split.
      * intros Hin. repeat (apply elem_of_cons in Hin as [Heq|Hin]; [discriminate|]).
        apply list_elem_of_fmap in Hin as (v & [= -> ->] & Hv).
        apply list_elem_of_filter in Hv as [Hopen Hv]. eauto.
      * intros (-> & (ms' & [= <-] & Hin) & Hopen).
        do 3 right. apply list_elem_of_fmap. exists w. split; [done|].
        by apply list_elem_of_filter.
    + split.
      * intros Hin. repeat (apply elem_of_cons in Hin as [Heq|Hin]; [discriminate|]).
        by apply elem_of_nil in Hin.
      * by intros (_ & (ms' & [=] & _) & _).
Qed.

(** X17. Posting, then reading back ([src/index.js]): once a post has
    passed the sender check and the store has taken it - whatever the
    fan-out did afterwards - the recent list of the channel ends with
    that message: the fields of the answer [msg], and the payload the
    store made of the payload text. The id handed out by the sequence is
    above every stored id, and the limit is absent or an integer. *)
Theorem posted_message_is_latest_recent
    (nextval : Z) (body : MessageBody) (stored : json)
    (q_limit : option string) (n : Z) (σ : World) :
  let p := payload_or_empty (msg_payload body) in
  post_from body ≠ "" →
  dbUp σ = true →
  JSON_parse (JSON_stringify p) = Some stored →
  (∀ x, x ∈ messages σ → m_id x < nextval) →
  requested_limit q_limit = Some (inject_Z n) →
  let σ' := (run (Index_post_message nextval body) σ).2 in
  ∃ rows, (run (Index_recent (Some (post_channel body)) q_limit) σ').1
          = Ok (Messages rows) ∧
          last rows = Some (post_row nextval body stored (clock σ)).
Proof.
  intros p Hfrom Hup Hparse Hnew Hlimit σ'.
  destruct (Index_post_message_run nextval body stored σ Hfrom Hup Hparse)
    as (σ1 & Hrun & Hms & _ & _ & _ & Hup1 & _).
  assert (σ' = σ1) as -> by (unfold σ'; by rewrite Hrun).
  rewrite Hup in Hup1.
  eexists. split; [by apply Index_recent_run|].
  rewrite last_reverse, Hms.
  rewrite or_else_fixed by (unfold post_channel; by apply or_else_truthy).
  rewrite select_recent_latest; [done|lia|done|done].
Qed.

(** X18. A post the route turns away before the store has taken it
    leaves nothing behind: without a sender (missing, empty or blank)
    the answer is 400 and the world is untouched; with a sender but the
    store down the answer is 500, and no message, no presence record
    and no room has changed and no frame has been sent. *)
Theorem refused_post_leaves_nothing
    (nextval : Z) (body : MessageBody) (σ : World) :
  (post_from body = "" →
   run (Index_post_message nextval body) σ = (Ok (Status 400 "from_required"), σ)) ∧
  (post_from body ≠ "" → dbUp σ = false →
   ∃ σ', run (Index_post_message nextval body) σ = (Ok (Status 500 "send_failed"), σ') ∧
         messages σ' = messages σ ∧ stations σ' = stations σ ∧ rooms σ' = rooms σ ∧
         ∀ w data, ¬ receives w data (new_effects σ σ')).
Proof.
  split.
  - intros Hfrom. unfold Index_post_message, try_catch. cbn [run].
    change (toUpperCase (trim (or_else (msg_fromCallsign body) ""))) with (post_from body).
    by rewrite Hfrom.
  - intros Hfrom Hdown. unfold Index_post_message, try_catch. cbn [run].
    change (toUpperCase (trim (or_else (msg_fromCallsign body) ""))) with (post_from body).
    rewrite (truthy_nonempty _ Hfrom). cbn [negb].
    mrun. unfold insert_message. mrun. rewrite Hdown. mrun.
    eexists. split; [reflexivity|]. mrun. repeat (split; [done|]).
    intros w data. unfold receives, new_effects. cbn [trace set_trace].
    rewrite drop_app_length.
    intros Hin. apply elem_of_cons in Hin as [Heq|Hin]; [discriminate|].
    by apply elem_of_nil in Hin.
Qed.

(** X19. The route is not all-or-nothing: when the write to one open
    member of the room throws, the post is answered with 500
    ["send_failed"], yet the message is in the table, with the id the
    sequence handed out, and the sender's presence record is written. *)
Theorem failed_fan_out_keeps_the_stored_post
    (nextval : Z) (body : MessageBody) (stored : json) (w : WsId) (σ : World) :
  post_from body ≠ "" →
  dbUp σ = true →
  JSON_parse (JSON_stringify (payload_or_empty (msg_payload body))) = Some stored →
  joined w (post_channel body) σ →
  is_open σ w = true →
  sendRaises (socket_of σ w) = true →
  ∃ σ' m, run (Index_post_message nextval body) σ
          = (Ok (Status 500 "send_failed"), σ') ∧
    messages σ' = messages σ ++ [m] ∧
    row_of m = post_row nextval body stored (clock σ) ∧
    ∃ st, stations σ' !! post_from body = Some st ∧
          st_channel st = post_channel body ∧ st_last_seen st = clock σ.
Proof.
  intros Hfrom Hup Hparse (ms & Hroom & Hin) Hopen Hraises.
  destruct (Index_post_message_run nextval body stored σ Hfrom Hup Hparse)
    as (σ' & Hrun & Hms & Hst & _).
  rewrite Hroom in Hrun. cbn [default from_option id] in Hrun.
  rewrite (reached_raises σ ms w) in Hrun by done.
  eexists σ', _. split; [exact Hrun|]. split; [exact Hms|]. split; [done|].
  rewrite Hst, upsert_station_lookup. by eexists.
Qed.

End Post.

Lemma post_stores_and_reaches_the_room_witness :
  let body := {| msg_fromCallsign := Some " k1abc "; msg_toCallsign := None;
                 msg_channel := Some "7.050"; msg_type := None;
                 msg_payload := Some (kind_frame "dit") |} in
  let msg := post_row 1 body (kind_frame "dit") (clock two_joined) in
  post_from body ≠ "" ∧ dbUp two_joined = true ∧
  JSON_parse (JSON_stringify (kind_frame "dit")) = Some (kind_frame "dit") ∧
  (∀ w, joined w "7.050" two_joined → is_open two_joined w = true →
        writable two_joined w) ∧
  ∃ σ' m, run (Index_post_message 1 body) two_joined = (Ok (Json msg), σ') ∧
          messages σ' = messages two_joined ++ [m] ∧ row_of m = msg.
Proof.
  cbn zeta.
  assert (∀ w, joined w "7.050" two_joined → is_open two_joined w = true →
               writable two_joined w) as Hw.
  { intros w (ms & Hl & Hin) _. vm_compute in Hl. injection Hl as <-.
    apply elem_of_cons in Hin as [->|Hin]; [reflexivity|].
    apply elem_of_cons in Hin as [->|Hin]; [reflexivity|].
    by apply elem_of_nil in Hin. }
  split; [discriminate|]. split; [reflexivity|]. split; [reflexivity|].
  split; [exact Hw|].
  destruct (@post_stores_and_reaches_the_room kind_runtime 1
              {| msg_fromCallsign := Some " k1abc "; msg_toCallsign := None;
                 msg_channel := Some "7.050"; msg_type := None;
                 msg_payload := Some (kind_frame "dit") |} two_joined
              ltac:(discriminate) (eq_refl true) (eq_refl (Some (kind_frame "dit"))) Hw)
    as (σ' & m & Hrun & Hms & Hrow & _).
  exists σ', m. split; [exact Hrun|]. split; [exact Hms|exact Hrow].
Defined.

Lemma posted_message_is_latest_recent_witness :
  let body := {| msg_fromCallsign := Some "w1aw"; msg_toCallsign := Some "k1abc";
                 msg_channel := None; msg_type := None; msg_payload := None |} in
  let σ' := (run (Index_post_message 5 body) four_messages).2 in
  post_from body ≠ "" ∧ dbUp four_messages = true ∧
  JSON_parse (JSON_stringify (JObj [])) = Some (kind_frame "?") ∧
  (∀ x, x ∈ messages four_messages → m_id x < 5) ∧
  requested_limit None = Some (inject_Z 100) ∧
  ∃ rows, (run (Index_recent (Some "7.050") None) σ').1 = Ok (Messages rows) ∧
          last rows = Some (posted 5 "7.050" "W1AW" (Some "K1ABC") "CW_MORSE"
                              (kind_frame "?") 2000).
Proof.
  cbn zeta.
  assert (∀ x, x ∈ messages four_messages → m_id x < 5) as Hnew.
  { intros x Hx. cbn in Hx.
    repeat (apply elem_of_cons in Hx as [->|Hx]; [reflexivity|]).
    by apply elem_of_nil in Hx. }
  split; [discriminate|]. split; [reflexivity|]. split; [reflexivity|].
  split; [exact Hnew|]. split; [reflexivity|].
  exact (@posted_message_is_latest_recent kind_runtime 5
           {| msg_fromCallsign := Some "w1aw"; msg_toCallsign := Some "k1abc";
              msg_channel := None; msg_type := None; msg_payload := None |}
           (kind_frame "?") None 100 four_messages
           ltac:(discriminate) (eq_refl true) (eq_refl (Some (kind_frame "?")))
           Hnew (eq_refl (Some (inject_Z 100)))).
Defined.

Lemma failed_fan_out_keeps_the_stored_post_witness :
  let body := {| msg_fromCallsign := Some "k1abc"; msg_toCallsign := None;
                 msg_channel := None; msg_type := Some "CW_MORSE";
                 msg_payload := Some (kind_frame "dit") |} in
  post_from body ≠ "" ∧ dbUp (room_of_two true) = true ∧
  JSON_parse (JSON_stringify (kind_frame "dit")) = Some (kind_frame "dit") ∧
  joined 1%nat "7.050" (room_of_two true) ∧
  is_open (room_of_two true) 1%nat = true ∧
  sendRaises (socket_of (room_of_two true) 1%nat) = true ∧
  ∃ σ' m, run (Index_post_message 7 body) (room_of_two true)
          = (Ok (Status 500 "send_failed"), σ') ∧
          messages σ' = [m] ∧ m_id m = 7.
Proof.
  cbn zeta.
  assert (joined 1%nat "7.050" (room_of_two true)) as Hj.
  { exists [1%nat; 2%nat]. split; [reflexivity|by left]. }
  split; [discriminate|]. split; [reflexivity|]. split; [reflexivity|].
  split; [exact Hj|]. split; [reflexivity|]. split; [reflexivity|].
  destruct (@failed_fan_out_keeps_the_stored_post kind_runtime 7
              {| msg_fromCallsign := Some "k1abc"; msg_toCallsign := None;
                 msg_channel := None; msg_type := Some "CW_MORSE";
                 msg_payload := Some (kind_frame "dit") |}
              (kind_frame "dit") 1%nat (room_of_two true)
              ltac:(discriminate) (eq_refl true) (eq_refl (Some (kind_frame "dit")))
              Hj (eq_refl true) (eq_refl true))
    as (σ' & m & Hrun & Hms & Hrow & _).
  exists σ', m. split; [exact Hrun|]. split; [exact Hms|].
  exact (f_equal r_id Hrow).
Defined.

(** ** Contacts *)

Lemma filtered_top_NoDup {A B : Type} (R : relation A) `{!∀ x y, Decision (R x y)}
    (P : A → Prop) `{!∀ x, Decision (P x)} (f : A → B) (n : nat) (l : list A) :
  NoDup (f <$> filter P l) → NoDup (f <$> take n (merge_sort R (filter P l))).
Proof.
  intros Hnd.
  apply (sublist_NoDup _ (f <$> merge_sort R (filter P l))).
  - by rewrite merge_sort_Permutation.
  - apply fmap_sublist, sublist_take.
Qed.

Lemma upsert_contact_lookup (my cs : string) (name location notes : option string)
    (table : gmap (string * string) Contact) :
  upsert_contact my cs name location notes table !! (my, cs)
  = Some {| c_name := name; c_location := location; c_notes := notes;
            c_last_contact_date := table !! (my, cs) ≫= c_last_contact_date;
            c_qso_count := default 0 (c_qso_count <$> table !! (my, cs)) |}.
Proof.
  unfold upsert_contact. destruct (table !! (my, cs)); by rewrite lookup_insert_eq.
Qed.

Lemma upsert_contact_other (my cs : string) (name location notes : option string)
    (table : gmap (string * string) Contact) (key : string * string) :
  key ≠ (my, cs) →
  upsert_contact my cs name location notes table !! key = table !! key.
Proof.
  intros Hne. unfold upsert_contact.
  destruct (table !! (my, cs)); by rewrite lookup_insert_ne.
Qed.

Lemma upsert_contact_size (my cs : string) (name location notes : option string)
    (table : gmap (string * string) Contact) :
  (size (upsert_contact my cs name location notes table) ≤ S (size table))%nat.
Proof.
  unfold upsert_contact. destruct (table !! (my, cs)) eqn:Hl.
  - rewrite map_size_insert_Some by eauto. lia.
  - by rewrite map_size_insert_None.
Qed.

Lemma select_contacts_sound (my : string) (table : gmap (string * string) Contact)
    (r : ContactRow) :
  r ∈ select_contacts my table → table !! (my, cr_callsign r) = Some (cr_contact r).
Proof.
  unfold select_contacts. intros ([[my' cs] c] & -> & Hin)%list_elem_of_fmap.
  apply top_sound in Hin as [Hin Hmy]. cbn in Hmy. subst my'.
  by apply elem_of_map_to_list in Hin.
Qed.

Lemma select_contacts_complete (my cs : string) (c : Contact)
    (table : gmap (string * string) Contact) :
  (size table ≤ 500)%nat →
  table !! (my, cs) = Some c →
  {| cr_callsign := cs; cr_contact := c |} ∈ select_contacts my table.
Proof.
  intros Hsz Hl. unfold select_contacts.
  apply list_elem_of_fmap. exists ((my, cs), c). split; [done|].
  apply top_complete; [by rewrite length_map_to_list| |done].
  by apply elem_of_map_to_list.
Qed.

Lemma select_contacts_unique (my : string) (table : gmap (string * string) Contact) :
  NoDup (cr_callsign <$> select_contacts my table).
Proof.
  unfold select_contacts. rewrite <- list_fmap_compose.
  apply filtered_top_NoDup.
  apply NoDup_fmap_2_strong; [|apply NoDup_filter, NoDup_map_to_list].
  intros [[my1 cs1] c1] [[my2 cs2] c2]
    [Hmy1 Hin1]%list_elem_of_filter [Hmy2 Hin2]%list_elem_of_filter Hcs.
  cbn in Hmy1, Hmy2, Hcs. subst.
  apply elem_of_map_to_list in Hin1, Hin2. congruence.
Qed.

(** X20. Saving a contact, then listing ([src/index.js]): with both
    callsigns given, the store up and fewer than 500 contacts stored,
    the update answers [ok], and the list of the same owner - written in
    any case, with any padding - has exactly one row for the contact's
    normalised callsign, with the name, location and notes of the update
    (what the body lacks is stored as [null]) and the contact date and
    the count the row had before, [null] and 0 for a new row. *)
Theorem saved_contact_is_listed_once
    (body : ContactBody) (q_myCallsign : option string)
    (table : gmap (string * string) Contact) :
  let my := norm (cb_myCallsign body) in
  let cs := norm (cb_callsign body) in
  my ≠ "" → cs ≠ "" →
  norm q_myCallsign = my →
  (size table < 500)%nat →
  ∃ table' rows,
    Index_contacts_update true body table = (Json (), table') ∧
    Index_contacts_list true q_myCallsign table' = Json rows ∧
    NoDup (cr_callsign <$> rows) ∧
    ∀ r, r ∈ rows ∧ cr_callsign r = cs ↔
         r = {| cr_callsign := cs;
                cr_contact :=
                  {| c_name := cb_name body; c_location := cb_location body;
                     c_notes := cb_notes body;
                     c_last_contact_date := table !! (my, cs) ≫= c_last_contact_date;
                     c_qso_count := default 0 (c_qso_count <$> table !! (my, cs)) |} |}.
Proof.
  intros my cs Hmy Hcs Hq Hsz.
  eexists _, (select_contacts my _). split; [|split; [|split]].
  - unfold Index_contacts_update.
    change (toUpperCase (trim (or_else (cb_myCallsign body) ""))) with my.
    change (toUpperCase (trim (or_else (cb_callsign body) ""))) with cs.
    by rewrite (truthy_nonempty my Hmy), (truthy_nonempty cs Hcs).
  - unfold Index_contacts_list.
    change (toUpperCase (trim (or_else q_myCallsign ""))) with (norm q_myCallsign).
    by rewrite Hq, (truthy_nonempty my Hmy).
  - apply select_contacts_unique.
  - intros r. split.
    + intros [Hin%select_contacts_sound Hr]. rewrite Hr in Hin.
      rewrite upsert_contact_lookup in Hin. destruct r as [cs' c]. cbn in Hr.
      cbn in Hin. congruence.
    + intros ->. split; [|done]. apply select_contacts_complete.
      * pose proof (upsert_contact_size my cs (cb_name body) (cb_location body)
                      (cb_notes body) table). lia.
      * apply upsert_contact_lookup.
Qed.

Lemma saved_contact_is_listed_once_witness :
  let body := {| cb_myCallsign := Some "k1abc"; cb_callsign := Some " w1aw ";
                 cb_name := Some "Hiram"; cb_location := None; cb_notes := None |} in
  norm (cb_myCallsign body) ≠ "" ∧ norm (cb_callsign body) ≠ "" ∧
  norm (Some " K1abc") = norm (cb_myCallsign body) ∧
  (size (∅ : gmap (string * string) Contact) < 500)%nat ∧
  ∃ table' rows,
    Index_contacts_update true body ∅ = (Json (), table') ∧
    Index_contacts_list true (Some " K1abc") table' = Json rows ∧
    NoDup (cr_callsign <$> rows).
Proof.
  cbn zeta.
  assert ((size (∅ : gmap (string * string) Contact) < 500)%nat) as Hsz
    by (rewrite map_size_empty; lia).
  split; [discriminate|]. split; [discriminate|]. split; [reflexivity|].
  split; [exact Hsz|].
  destruct (saved_contact_is_listed_once
              {| cb_myCallsign := Some "k1abc"; cb_callsign := Some " w1aw ";
                 cb_name := Some "Hiram"; cb_location := None; cb_notes := None |}
              (Some " K1abc") ∅ ltac:(discriminate) ltac:(discriminate)
              (eq_refl "K1ABC") Hsz)
    as (table' & rows & Hup & Hlist & Hnd & _).
  exists table', rows. split; [exact Hup|]. split; [exact Hlist|exact Hnd].
Defined.

(** X21. An update touches one row at most: the row of the normalised
    pair [(myCallsign, callsign)]. Every other contact is left as it
    was; and an update that is not answered with [ok] - a callsign
    missing or blank, or the store down - leaves the whole table as it
    was. *)
Theorem contact_update_touches_one_row
    (up : bool) (body : ContactBody) (table : gmap (string * string) Contact) :
  let answer := (Index_contacts_update up body table).1 in
  let table' := (Index_contacts_update up body table).2 in
  (∀ key, key ≠ (norm (cb_myCallsign body), norm (cb_callsign body)) →
          table' !! key = table !! key) ∧
  (answer ≠ Json () → table' = table) ∧
  (norm (cb_myCallsign body) = "" ∨ norm (cb_callsign body) = "" ↔
   answer = Status 400 "callsign_required").
Proof.
  cbn zeta. unfold Index_contacts_update.
  change (toUpperCase (trim (or_else (cb_myCallsign body) "")))
    with (norm (cb_myCallsign body)).
  change (toUpperCase (trim (or_else (cb_callsign body) "")))
    with (norm (cb_callsign body)).
  destruct (truthy (norm (cb_myCallsign body))) eqn:Hmy;
    destruct (truthy (norm (cb_callsign body))) eqn:Hcs;
    cbn [negb orb fst snd];
    try (apply truthy_empty_iff in Hmy); try (apply truthy_empty_iff in Hcs);
    try (split; [done|]; split; [done|]; split; [done|]; tauto).
  assert (norm (cb_myCallsign body) ≠ "") as Hmy'
    by (intros He; apply truthy_empty_iff in He; congruence).
  assert (norm (cb_callsign body) ≠ "") as Hcs'
    by (intros He; apply truthy_empty_iff in He; congruence).
  destruct up; cbn [fst snd].
  - split; [intros key Hne; by apply upsert_contact_other|].
    split; [done|]. split; [tauto|discriminate].
  - split; [done|]. split; [done|]. split; [tauto|discriminate].
Qed.

Lemma contacts_after_snoc (requests : list (bool * ContactBody))
    (r : bool * ContactBody) (table : gmap (string * string) Contact) :
  contacts_after (requests ++ [r]) table
  = (Index_contacts_update r.1 r.2 (contacts_after requests table)).2.
Proof. unfold contacts_after. by rewrite foldl_app. Qed.

(** X22. No route of [src/index.js] writes [last_contact_date] or
    [qso_count]: whatever series of updates a table that started empty
    has seen, every row of every contact list has [null] as its contact
    date and 0 as its count - the order [last_contact_date desc nulls
    last] of the list never gets a date to order by. *)
Theorem listed_contacts_never_dated
    (requests : list (bool * ContactBody)) (up : bool) (q_myCallsign : option string)
    (rows : list ContactRow) (r : ContactRow) :
  Index_contacts_list up q_myCallsign (contacts_after requests ∅) = Json rows →
  r ∈ rows →
  c_last_contact_date (cr_contact r) = None ∧ c_qso_count (cr_contact r) = 0.
Proof.
  assert (∀ key c, contacts_after requests ∅ !! key = Some c →
                   c_last_contact_date c = None ∧ c_qso_count c = 0) as Hinv.
  { induction requests as [|[u body] requests IH] using rev_ind.
    - intros key c Hl. unfold contacts_after in Hl. cbn [foldl] in Hl.
      by rewrite lookup_empty in Hl.
    - intros key c. rewrite contacts_after_snoc. cbn [fst snd].
      unfold Index_contacts_update.
      destruct (negb _ || negb _); cbn [snd]; [apply IH|].
      destruct u; cbn [snd]; [|apply IH].
      set (my := toUpperCase _). set (cs := toUpperCase _).
      destruct (decide (key = (my, cs))) as [->|Hne].
      + rewrite upsert_contact_lookup. intros [= <-]. cbn.
        destruct (contacts_after requests ∅ !! (my, cs)) as [old|] eqn:Hold; [|done].
        cbn. by apply (IH (my, cs)).
      + rewrite upsert_contact_other by done. apply IH. }
  unfold Index_contacts_list.
  destruct (negb _); [done|]. destruct up; [|done].
  intros [= <-] Hin%select_contacts_sound. by apply Hinv in Hin.
Qed.

Lemma listed_contacts_never_dated_witness :
  let body := {| cb_myCallsign := Some "k1abc"; cb_callsign := Some "w1aw";
                 cb_name := Some "Hiram"; cb_location := None; cb_notes := None |} in
  let row := {| cr_callsign := "W1AW";
                cr_contact := {| c_name := Some "Hiram"; c_location := None;
                                 c_notes := None; c_last_contact_date := None;
                                 c_qso_count := 0 |} |} in
  Index_contacts_list true (Some "K1ABC") (contacts_after [(true, body); (true, body)] ∅)
  = Json [row] ∧
  row ∈ [row] ∧
  c_last_contact_date (cr_contact row) = None ∧ c_qso_count (cr_contact row) = 0.
Proof.
  cbn zeta.
  assert (∀ (x : ContactRow), x ∈ [x]) as Hin by (intros x; by left).
  split; [vm_compute; reflexivity|]. split; [apply Hin|].
  exact (listed_contacts_never_dated
           [(true, {| cb_myCallsign := Some "k1abc"; cb_callsign := Some "w1aw";
                      cb_name := Some "Hiram"; cb_location := None; cb_notes := None |});
            (true, {| cb_myCallsign := Some "k1abc"; cb_callsign := Some "w1aw";
                      cb_name := Some "Hiram"; cb_location := None; cb_notes := None |})]
           true (Some "K1ABC") _ _ ltac:(vm_compute; reflexivity) (Hin _)).
Defined.

(** ** The online list of [src/server.js], and lists that fail *)

(** X23. The online list of [src/server.js], the store answering with
    at most 200 stations in it and the time-to-live a number (120 when
    [STATION_TTL_SEC] is not set, where [src/index.js] takes 60): the
    rows of the answer are exactly the stored stations on the asked
    channel - the default channel when none is asked - that were seen
    within the time-to-live; and nothing is changed. *)
Theorem Server_online_lists_exactly_the_fresh `{!JsRuntime}
    (q_channel : option string) (ttl : Q) (σ : World) :
  station_ttl 120 = Some ttl →
  dbUp σ = true →
  (size (stations σ) ≤ 200)%nat →
  (process_env "STATION_TTL_SEC" = None → ttl = inject_Z 120) ∧
  ∃ rows, run (Server_online q_channel) σ = (Ok (Json rows), σ) ∧
    ∀ r, r ∈ rows ↔
         ∃ st, stations σ !! on_callsign r = Some st ∧
               r = online_row (on_callsign r, st) ∧
               st_channel st = or_else q_channel Server.DEFAULT_CHANNEL ∧
               Qlt (inject_Z (clock σ) - ttl) (inject_Z (st_last_seen st)).
Proof.
  intros Httl Hup Hsz. split.
  { intros Henv. unfold station_ttl in Httl. rewrite Henv in Httl. congruence. }
  eexists. split.
  - unfold Server_online, try_catch. cbn [run].
    rewrite Httl. mrun. rewrite run_query_online by done. by mrun.
  - intros r. split.
    + intros (st & Hl & Hr & Hch & Hfr)%select_online_sound.
      exists st. split; [done|]. split; [done|].
      split; [symmetry; by apply String.eqb_eq|by apply fresh_iff].
    + intros (st & Hl & -> & Hch & Hfr). cbn [online_row on_callsign fst] in *.
      apply select_online_complete; try done.
      * apply String.eqb_eq. by rewrite Hch.
      * by apply fresh_iff.
Qed.

Lemma Server_online_lists_exactly_the_fresh_witness :
  @station_ttl kind_runtime 120 = Some (inject_Z 120) ∧ dbUp two_joined = true ∧
  (size (stations two_joined) ≤ 200)%nat ∧
  ∃ rows, run (Server_online (Some "7.050")) two_joined = (Ok (Json rows), two_joined).
Proof.
  assert ((size (stations two_joined) ≤ 200)%nat) as Hsz by (vm_compute; lia).
  split; [reflexivity|]. split; [reflexivity|]. split; [exact Hsz|].
  destruct (@Server_online_lists_exactly_the_fresh kind_runtime (Some "7.050")
              (inject_Z 120) two_joined (eq_refl (Some (inject_Z 120)))
              (eq_refl true) Hsz) as [_ (rows & Hrun & _)].
  exists rows. exact Hrun.
Defined.

(** X24. An online list that cannot be computed - the store is down, or
    [STATION_TTL_SEC] is set to something that is not a number - is
    answered with 500 ["online_failed"] by [src/index.js] and
    [src/server.js] alike, and nothing is changed. *)
Theorem online_failure_changes_nothing `{!JsRuntime}
    (q_channel : option string) (σ : World) :
  dbUp σ = false ∨
  (∃ s, process_env "STATION_TTL_SEC" = Some s ∧ truthy s = true ∧
        Number_of_string s = None) →
  run (Index_online q_channel) σ = (Ok (Status 500 "online_failed"), σ) ∧
  run (Server_online q_channel) σ = (Ok (Status 500 "online_failed"), σ).
Proof.
  intros Hbad.
  unfold Index_online, Server_online, try_catch, query_online, station_ttl.
  cbn [run]. split; mrun.
  all: destruct Hbad as [Hdown|(s & Henv & Hs & Hnan)].
  all: rewrite ?Hdown, ?Henv, ?Hs, ?Hnan; by destruct (dbUp σ).
Qed.

Lemma online_failure_changes_nothing_witness :
  let σ := {| rooms := ∅; sockets := ∅; stations := ∅; messages := [];
              dbUp := false; clock := 0; trace := [] |} in
  (dbUp σ = false ∨
   (∃ s, process_env "STATION_TTL_SEC" = Some s ∧ truthy s = true ∧
         Number_of_string s = None)) ∧
  run (Index_online None) σ = (Ok (Status 500 "online_failed"), σ).
Proof.
  cbn zeta. split; [by left|].
  exact (proj1 (@online_failure_changes_nothing kind_runtime None
                  {| rooms := ∅; sockets := ∅; stations := ∅; messages := [];
                     dbUp := false; clock := 0; trace := [] |}
                  (or_introl (eq_refl false)))).
Defined.

Lemma recent_failure_witness :
  (dbUp four_messages = false ∨ requested_limit (Some "abc") = None) ∧
  (run (Index_recent None (Some "abc")) four_messages).1
  = Ok (Failure 500 "recent_failed").
Proof.
  split; [by right|].
  exact (proj1 (@recent_failure kind_runtime None (Some "abc") four_messages
                  (or_intror (eq_refl None)))).
Defined.
